(** * C-SJX synthetic-jet model with Bouc-Wen hysteresis

    A shallow embedding of [csjx_boucwen_model.py]: the formation envelope,
    the continuity gain, the Bouc-Wen rate, the cycle simulator, the fast
    sweep and the calibration wrapper, followed by the properties the
    specification states about them.  The services around the model
    ([collapse_poetics.py], [app.py] and [weather_service.py]) follow in
    parts of their own.

    Numbers.  Python floats and NumPy [float64] values are modelled by real
    numbers: arithmetic is exact, and the rounding of binary64 is left out.
    Where rounding, overflow or underflow decides a property, the statement
    keeps a margin that rounding does not reach, and what happens at the
    edge is shown on the binary64 operations themselves, in the module
    [B64] of primitive floats.  A Python scalar division by zero raises
    [ZeroDivisionError] and is modelled as such.  A NumPy division by zero
    raises nothing and yields [inf] or [nan]: where the program can reach
    one (the arrays of the calibration) an element is an [option R], with
    [None] for a value that is not finite; elsewhere a statement that
    depends on such a quotient carries the hypothesis that excludes it.
    [math.exp] raises on overflow and gives zero on underflow.

    Failures.  A function that can raise returns a [result]: [Ok] with its
    value or [Raise] with the exception, in the order the source would
    reach them. *)

From Stdlib Require Import Reals Lra Lia ZArith List Ascii String.
From Stdlib Require PrimFloat.
From stdpp Require Import base decidable option list strings gmap.

Open Scope R_scope.

(** ** Decisions on real numbers, as the comparisons of the source *)

#[global] Instance R_eq_dec : EqDecision R := Req_dec_T.
#[global] Instance R_lt_dec : RelDecision Rlt := Rlt_dec.
#[global] Instance R_le_dec : RelDecision Rle := Rle_dec.
#[global] Instance R_gt_dec : RelDecision Rgt := Rgt_dec.
#[global] Instance R_inhabited : Inhabited R := populate 0.

(** ** Exceptions *)

Inductive PyExn : Type :=
  | ZeroDivisionError
  | ValueError
  | IndexError.

Inductive result (A : Type) : Type :=
  | Ok (a : A)
  | Raise (e : PyExn).

Arguments Ok {A} a.
Arguments Raise {A} e.

#[global] Instance result_ret : MRet result := fun A a => Ok a.

#[global] Instance result_bind : MBind result := fun A B k m =>
  match m with
  | Ok a => k a
  | Raise e => Raise e
  end.

(** Python's [a / b] on two floats. *)
Definition py_truediv (a b : R) : result R :=
  if decide (b = 0) then Raise ZeroDivisionError else Ok (a / b).

(** Python's builtin [max(a, b)]: [b] when it is strictly larger, else [a]. *)
Definition py_max (a b : R) : R :=
  if decide (a < b) then b else a.

(** ** NumPy primitives *)

(** [x ** y] on a non-negative [float64] base, the only case the model uses
    (the base is always [np.abs z]).  A zero base gives 1 for a zero
    exponent and 0 for a positive one.  For a zero base and a negative
    exponent NumPy gives [inf], which no real number stands for (see the
    header); the model takes 0 there, and the case arises only for an
    exponent [n < 1], which the statements on the power exclude. *)
Definition np_power (x y : R) : R :=
  if decide (x = 0) then (if decide (y = 0) then 1 else 0) else Rpower x y.

(** Python's [int(r)] on a float: truncation towards zero. *)
Definition py_int (r : R) : Z :=
  if decide (0 <= r) then Zfloor r else Zceil r.

(** ** Efficiency envelope and continuity gain *)

(** [formation_envelope(S, sigma=1.0, S_opt=4.0)], exactly.  The binary64
    value is this one rounded: it is 0.0 once the exponent falls below
    about -745 and 1.0 next to the peak ([B64.formation_envelope]). *)
Definition formation_envelope (S sigma S_opt : R) : R :=
  exp (- 0.5 * ((S - S_opt) / sigma) ^ 2).

(** [hysteresis_gain(tau_R, tau0=0.5, k_H=0.6)], exactly.  The binary64
    value is this one rounded: it reaches 1 + k_H for a large [tau_R] and
    need not grow between neighbouring floats ([B64.hysteresis_gain]). *)
Definition hysteresis_gain (tau_R tau0 k_H : R) : R :=
  let H := tau_R / (tau_R + tau0) in
  1.0 + k_H * H.

(** ** Bouc-Wen rate *)

(** [bouc_wen(xdot, z, A=1.0, beta=0.6, gamma=0.2, n=2)] *)
Definition bouc_wen (xdot z A beta gamma n : R) : R :=
  let absz := Rabs z in
  A * xdot - beta * Rabs xdot * (np_power absz (n - 1)) * z
  - gamma * xdot * (np_power absz n).

(** Call of [hysteresis_gain] on Python floats: the quotient raises on a
    zero denominator; otherwise the value is [hysteresis_gain]. *)
Definition py_hysteresis_gain (tau_R tau0 k_H : R) : result R :=
  H ← py_truediv tau_R (tau_R + tau0);
  mret (1.0 + k_H * H).

(** ** Random generators

    [np.random.default_rng(seed)] builds a fresh generator from an integer
    seed and refuses a negative one.  No function of the module draws from
    a generator, so the state is the seed it was built from. *)

Record Generator : Type := { entropy : Z }.

Definition default_rng (seed : Z) : result Generator :=
  if decide (seed < 0)%Z then Raise ValueError else Ok {| entropy := seed |}.

Definition RNG : result Generator := default_rng 417.

(** ** Array helpers *)

Definition b2r (b : bool) : R := if b then 1 else 0.

(** [np.arange(start, stop, step)] on floats: [ceil((stop - start)/step)]
    samples [start + i*step], none when that count is not positive; a zero
    step raises.  NumPy takes the ceiling of the binary64 quotient, the
    model that of the exact one: the two counts agree unless the exact
    quotient lies within rounding of an integer, where they can differ by
    one.  The statements that turn on the count keep the quotient 1e-9
    away from the integer that decides. *)
Definition np_arange (start stop step : R) : result (list R) :=
  if decide (step = 0) then Raise ZeroDivisionError
  else
    let len := Z.to_nat (Zceil ((stop - start) / step)) in
    Ok (map (fun i => start + INR i * step) (seq 0 len)).

Definition np_sum (l : list R) : R := foldr Rplus 0 l.

(** [np.diff]: successive differences. *)
Definition np_diff (l : list R) : list R :=
  zip_with (fun a b => b - a) l (tail l).

(** [np.trapz(y, x)]: [sum(diff(x) * (y[1:] + y[:-1]) / 2.0)]. *)
Definition np_trapz (y x : list R) : R :=
  np_sum (zip_with (fun d s => d * s / 2.0) (np_diff x)
            (zip_with Rplus (tail y) y)).

(** [np.gradient(f, x)] for one-dimensional arrays with the coordinates
    passed as an array and the default [edge_order=1].  NumPy first reads
    the spacings [diff(x)] and compares them with the first one, which
    fails with [IndexError] when there are fewer than two samples.  With
    two samples or more the edges are one-sided differences and the
    interior is the second-order central difference, in its uniform form
    when all spacings are equal and in the non-uniform form otherwise. *)
Definition np_gradient (fv x : list R) : result (list R) :=
  let N := length fv in
  if decide (N < 2)%nat then Raise IndexError
  else
    let dx := np_diff x in
    let uniform := bool_decide (Forall (fun d => d = dx !!! 0%nat) dx) in
    let interior (i : nat) : R :=
      if uniform then
        (fv !!! (i + 1)%nat - fv !!! (i - 1)%nat) / (2.0 * dx !!! 0%nat)
      else
        let dx1 := dx !!! (i - 1)%nat in
        let dx2 := dx !!! i in
        let a := - dx2 / (dx1 * (dx1 + dx2)) in
        let b := (dx2 - dx1) / (dx1 * dx2) in
        let c := dx1 / (dx2 * (dx1 + dx2)) in
        a * fv !!! (i - 1)%nat + b * fv !!! i + c * fv !!! (i + 1)%nat in
    Ok (map (fun i =>
               if decide (i = 0%nat) then
                 (fv !!! 1%nat - fv !!! 0%nat) / dx !!! 0%nat
               else if decide (i = (N - 1)%nat) then
                 (fv !!! (N - 1)%nat - fv !!! (N - 2)%nat) / dx !!! (N - 2)%nat
               else interior i)
            (seq 0 N)).

(** ** The cycle simulator *)

Record sim_params : Type := {
  D : R;
  f : R;
  stroke_ratio : R;
  tau_R : R;
  cavity_C : R;
  rho : R;
  mu_air : R;
  A_bw : R;
  beta : R;
  gamma : R;
  n : R;
  duration_cycles : R;
  dt : R;
  seed : Z
}.

(** The keyword defaults of [simulate_cycle]. *)
Definition default_params : sim_params := {|
  D := 0.010; f := 150.0; stroke_ratio := 4.0; tau_R := 2.0;
  cavity_C := 2.0e-8; rho := 1.2; mu_air := 1.8e-5;
  A_bw := 1.0; beta := 0.6; gamma := 0.2; n := 2;
  duration_cycles := 10; dt := 1e-5; seed := 417
|}.

(** One pass of the body of [for i in range(1, len(t))]. *)
Definition bouc_wen_step (p : sim_params) (xdot z : list R) (i : nat)
    : list R :=
  <[ i := z !!! (i - 1)%nat
          + (bouc_wen (xdot !!! (i - 1)%nat) (z !!! (i - 1)%nat)
               (A_bw p) (beta p) (gamma p) (n p)
             * dt p / py_max 1e-9 (tau_R p)) ]> z.

(** [z = np.zeros_like(t)] followed by the loop. *)
Definition hysteretic_state (p : sim_params) (t xdot : list R) : list R :=
  foldl (bouc_wen_step p xdot) (replicate (length t) 0)
        (seq 1 (length t - 1)).

(** The local variables of [simulate_cycle] when it reaches its [return]. *)
Record frame : Type := {
  fr_rng : Generator;
  fr_T : R;
  fr_duration : R;
  fr_t : list R;
  fr_S : R;
  fr_L0 : R;
  fr_U0 : R;
  fr_x_amp : R;
  fr_x : list R;
  fr_xdot : list R;
  fr_z : list R;
  fr_k1 : R;
  fr_k2 : R;
  fr_p : list R;
  fr_A0 : R;
  fr_dV : list R;
  fr_idx0 : nat;
  fr_A_loop : R;
  fr_out : list bool;
  fr_u : list R;
  fr_Cc : R;
  fr_u_exit : list R;
  fr_thrust_inst : list R;
  fr_impulse : R;
  fr_eff : R;
  fr_G : R;
  fr_impulse_eff : R
}.

Definition simulate_cycle_frame (p : sim_params) : result frame :=
  rng ← default_rng (seed p);
  T ← py_truediv 1.0 (f p);
  let duration := duration_cycles p * T in
  t ← np_arange 0.0 duration (dt p);
  let S := stroke_ratio p in
  let L0 := S * D p in
  U0 ← py_truediv L0 (0.5 * T);
  let x_amp := L0 / 2.0 in
  let x := map (fun ti => x_amp * sin (2 * PI * f p * ti)) t in
  let xdot :=
    map (fun ti => 2 * PI * f p * x_amp * cos (2 * PI * f p * ti)) t in
  let z := hysteretic_state p t xdot in
  k1 ← py_truediv 1.0 (py_max 1e-12 (cavity_C p));
  let k2 := 0.2 * k1 in
  let pr := zip_with (fun xi zi => k1 * xi + k2 * zi) x z in
  let A0 := PI * (D p / 2.0) ^ 2 in
  let dV := map (fun xi => A0 * xi) x in
  let idx0 := Z.to_nat (py_int (0.8 * INR (length t))) in
  grad ← np_gradient (drop idx0 dV) (drop idx0 t);
  let A_loop := np_trapz (zip_with Rmult (drop idx0 pr) grad) (drop idx0 t) in
  let out := map (fun v => bool_decide (v > 0)) xdot in
  let u := zip_with (fun v b => (v / A0) * b2r b) xdot out in
  let Cc := 0.8 in
  let u_exit := map (fun ui => Cc * ui) u in
  let thrust_inst :=
    zip_with (fun ue b => 1.0 * rho p * A0 * (ue ^ 2) * b2r b) u_exit out in
  let impulse := np_trapz thrust_inst t in
  let eff := formation_envelope S 1.0 4.0 in
  G ← py_hysteresis_gain (tau_R p) 0.5 0.6;
  let impulse_eff := impulse * eff * G in
  mret {|
    fr_rng := rng; fr_T := T; fr_duration := duration; fr_t := t;
    fr_S := S; fr_L0 := L0; fr_U0 := U0; fr_x_amp := x_amp;
    fr_x := x; fr_xdot := xdot; fr_z := z; fr_k1 := k1; fr_k2 := k2;
    fr_p := pr; fr_A0 := A0; fr_dV := dV; fr_idx0 := idx0;
    fr_A_loop := A_loop; fr_out := out; fr_u := u; fr_Cc := Cc;
    fr_u_exit := u_exit; fr_thrust_inst := thrust_inst;
    fr_impulse := impulse; fr_eff := eff; fr_G := G;
    fr_impulse_eff := impulse_eff
  |}.

(** The dictionary [simulate_cycle] returns. *)
Record cycle_result : Type := {
  r_t : list R;
  r_x : list R;
  r_xdot : list R;
  r_z : list R;
  r_p : list R;
  r_dV : list R;
  r_A_loop : R;
  r_impulse_raw : R;
  r_impulse : R;
  r_S : R;
  r_tau_R : R;
  r_D : R;
  r_f : R
}.

Definition returned (p : sim_params) (fr : frame) : cycle_result := {|
  r_t := fr_t fr; r_x := fr_x fr; r_xdot := fr_xdot fr; r_z := fr_z fr;
  r_p := fr_p fr; r_dV := fr_dV fr;
  r_A_loop := fr_A_loop fr; r_impulse_raw := fr_impulse fr;
  r_impulse := fr_impulse_eff fr;
  r_S := fr_S fr; r_tau_R := tau_R p; r_D := D p; r_f := f p
|}.

Definition simulate_cycle (p : sim_params) : result cycle_result :=
  fr ← simulate_cycle_frame p;
  mret (returned p fr).

(** ** Values that are not finite *)

(** An element of a NumPy array is a finite number, an infinity or a NaN;
    NumPy's arithmetic produces the last two without raising.  In the
    arrays of the calibration an element is an [option R], with [None] for
    a value that is not finite: a sum, a difference or a product with such
    a value is not finite either (zero times an infinity is a NaN).  The
    rows of the sweep hold real numbers: there a NaN has no number, and
    the statements on the table exclude the width that produces it. *)

(** [a / b] on one element: a zero divisor gives an infinity or a NaN. *)
Definition np_true_divide (a b : R) : option R :=
  if decide (b = 0) then None else Some (a / b).

(** [np.exp(-0.5*((S-4.0)/sigma)**2)] on one element.  With [sigma = 0]
    and [S <> 4.0] the quotient is infinite, its square is [inf] and the
    exponential of [-inf] is 0; with [S = 4.0] the quotient 0/0 is a NaN
    and so is the result. *)
Definition np_envelope (S sigma : R) : option R :=
  match np_true_divide (S - 4.0) sigma with
  | Some q => Some (exp (- 0.5 * q ^ 2))
  | None => if decide (S - 4.0 = 0) then None else Some 0
  end.

(** ** The fast sweep *)

(** [np.linspace(start, stop, num)] with the endpoint included. *)
Definition np_linspace (start stop : R) (num : nat) : list R :=
  map (fun i => start + INR i * ((stop - start) / INR (num - 1))) (seq 0 num).

Definition sweep_row : Type := (R * R * R)%type.

(** [sweep_S_tauR]: [None] stands for an argument left at its default; a
    [tau_vals] that is given is a Python list of floats, so that the
    quotient of the outer loop raises on a zero denominator (the default
    return times are positive).  The two nested [for] loops append to
    [data] in turn; an exception in the outer loop ends the sweep.  The
    envelope of the inner loop is NumPy's [np_envelope]: with [sigma = 0]
    it is 0.0 for [S <> 4.0]; for [S = 4.0] it is a NaN, in whose place
    the row holds 0, and the statements on the table take [sigma <> 0]. *)
Definition sweep_S_tauR (D f : R) (S_vals tau_vals : option (list R))
    (sigma k_H : R) (seed : Z) : result (list sweep_row) :=
  let S_vals := default (np_linspace 1.0 8.0 40) S_vals in
  let tau_vals := default [0.1; 0.5; 1.0; 2.0; 5.0] tau_vals in
  foldl (fun acc tau_R =>
           data ← acc;
           H ← py_truediv tau_R (tau_R + 0.5);
           mret (foldl (fun data S =>
                          let eff := default 0 (np_envelope S sigma) in
                          let impulse := eff * (1.0 + k_H * H) in
                          data ++ [(S, tau_R, impulse)])
                       data S_vals))
        (Ok []) tau_vals.

(** The table as the specification words it: the cross-product, [tau_R]
    outermost, each impulse from the envelope and gain functions. *)
Definition sweep_table_spec (S_vals tau_vals : list R) (sigma k_H : R)
    : list sweep_row :=
  tau_R ← tau_vals;
  S ← S_vals;
  [(S, tau_R, formation_envelope S sigma 4.0 * hysteresis_gain tau_R 0.5 k_H)].

(** ** Calibration *)

(** What [fit_sigma_kH] reads of SciPy's [OptimizeResult], and the two
    fields that tell whether the solver converged. *)
Record OptimizeResult : Type := {
  res_x : R * R;
  res_cost : R;
  res_fun : list R;
  res_status : Z;
  res_success : bool
}.

Definition np_dot (a b : list R) : R := np_sum (zip_with Rmult a b).

(** An element-wise operation on two one-dimensional arrays, with NumPy's
    broadcasting: arrays of equal length pair up, an array of length one
    is stretched to the length of the other, and any other two lengths
    raise [ValueError]. *)
Definition np_broadcast {A B C : Type} (g : A -> B -> C)
    (a : list A) (b : list B) : result (list C) :=
  if decide (length a = length b) then Ok (zip_with g a b)
  else match a, b with
       | [x], _ => Ok (map (g x) b)
       | _, [y] => Ok (map (fun x => g x y) a)
       | _, _ => Raise ValueError
       end.

(** The closure [resid] of [fit_sigma_kH], on one-dimensional benchmark
    arrays. *)
Definition resid (bench_S bench_tauR bench_impulse : list R) (tau0 : R)
    (params : R * R) : result (list (option R)) :=
  let '(sigma, kH) := params in
  let eff := map (fun S => np_envelope S sigma) bench_S in
  let H := map (fun t => np_true_divide t (t + tau0)) bench_tauR in
  model ← np_broadcast
             (fun e h => e' ← e; h' ← h; Some (e' * (1.0 + kH * h'))) eff H;
  np_broadcast (fun m b => m' ← m; Some (m' - b)) model bench_impulse.

(** The values of an array all of whose elements are finite,
    [np.all(np.isfinite(f))]. *)
Definition finite_values (f : list (option R)) : option (list R) :=
  mapM (fun v => v) f.

(** Sum of squared residuals of the surrogate at [(sigma, kH)], where the
    residuals exist and are finite. *)
Definition sum_sq_resid (bench_S bench_tauR bench_impulse : list R) (tau0 : R)
    (params : R * R) : option R :=
  match resid bench_S bench_tauR bench_impulse tau0 params with
  | Ok f => r ← finite_values f; Some (np_sum (map (fun r => r ^ 2) r))
  | Raise _ => None
  end.

Definition in_bounds (x lb ub : R * R) : Prop :=
  (lb.1 <= x.1 /\ x.1 <= ub.1) /\ (lb.2 <= x.2 /\ x.2 <= ub.2).

#[global] Instance in_bounds_dec x lb ub : Decision (in_bounds x lb ub).
Proof. unfold in_bounds. apply _. Defined.

Section Calibration.

(** The trust-region iteration of SciPy, external to the repository: from
    the residual function, the start and the bounds it yields the last
    iterate and the termination status (0: evaluation budget exhausted,
    1 to 4: one of the tolerances met). *)
Variable trf : (R * R -> result (list (option R))) -> R * R -> R * R -> R * R
               -> (R * R) * Z.

(** [scipy.optimize.least_squares(fun, x0, bounds=(lb, ub))] as its
    documentation and its checks fix the result.  An infeasible start is
    refused first; then the residuals are evaluated at the start, where an
    exception of [fun] passes through and residuals that are not finite
    are refused, with [ValueError] each time.  Otherwise [x] is the last
    iterate, [fun] the residuals there, [cost] half their sum of squares,
    and [success] says [status > 0].  The iteration accepts a step only
    when the residuals at the new point are finite, so those at its last
    iterate are; the last [ValueError] below is for a [trf] that breaks
    this. *)
Definition least_squares (fun_ : R * R -> result (list (option R)))
    (x0 lb ub : R * R) : result OptimizeResult :=
  if decide (in_bounds x0 lb ub) then
    f0 ← fun_ x0;
    match finite_values f0 with
    | None => Raise ValueError
    | Some _ =>
        let '(x, status) := trf fun_ x0 lb ub in
        f ← fun_ x;
        match finite_values f with
        | None => Raise ValueError
        | Some fx =>
            Ok {| res_x := x; res_cost := 0.5 * np_dot fx fx; res_fun := fx;
                  res_status := status;
                  res_success := bool_decide (0 < status)%Z |}
        end
    end
  else Raise ValueError.

(** [fit_sigma_kH(bench_S, bench_tauR, bench_impulse, tau0=0.5,
    init=(1.0, 0.6))] *)
Definition fit_sigma_kH (bench_S bench_tauR bench_impulse : list R)
    (tau0 : R) (init : R * R) : result (R * R * R) :=
  res ← least_squares (resid bench_S bench_tauR bench_impulse tau0) init
          (0.2, 0.0) (5.0, 2.0);
  let '(sigma_fit, kH_fit) := res_x res in
  mret (sigma_fit, kH_fit, res_cost res).

End Calibration.

(** ** Derived quantities and the inputs the statements name *)

(** The update the loop writes at index [i], from the previous state. *)
Definition euler_step (p : sim_params) (xd zp : R) : R :=
  zp + bouc_wen xd zp (A_bw p) (beta p) (gamma p) (n p)
       * dt p / py_max 1e-9 (tau_R p).

(** The array after the passes [1 .. k] of the loop. *)
Definition z_after (p : sim_params) (t xdot : list R) (k : nat) : list R :=
  foldl (bouc_wen_step p xdot) (replicate (length t) 0) (seq 1 k).

(** Number of samples of the time grid, [len(t)], as [np_arange] counts
    them. *)
Definition nsamples (p : sim_params) : nat :=
  Z.to_nat (Zceil ((duration_cycles p * (1.0 / f p) - 0.0) / dt p)).

(** [int(0.8*len(t))], the start of the final stretch. *)
Definition idx0_of (p : sim_params) : nat :=
  Z.to_nat (py_int (0.8 * INR (nsamples p))).

(** The conditions under which no statement of [simulate_cycle] raises: a
    seed the generator accepts, a frequency and a time step that can be
    divided by, at least two samples in the final stretch for
    [np.gradient], and a gain denominator that is not zero.  The diameter
    does not occur. *)
Definition returns (p : sim_params) : Prop :=
  (0 <= seed p)%Z /\ f p <> 0 /\ dt p <> 0
  /\ (2 <= nsamples p - idx0_of p)%nat /\ tau_R p + 0.5 <> 0.


(** Orifice area [A0 = pi*(D/2)^2]. *)
Definition orifice_area (p : sim_params) : R := PI * (D p / 2.0) ^ 2.

(** The default run with a negative fluid density. *)
Definition negative_density_params : sim_params := {|
  D := 0.010; f := 150.0; stroke_ratio := 4.0; tau_R := 2.0;
  cavity_C := 2.0e-8; rho := -1.2; mu_air := 1.8e-5;
  A_bw := 1.0; beta := 0.6; gamma := 0.2; n := 2;
  duration_cycles := 10; dt := 1e-5; seed := 417
|}.


(** The same parameters with another seed. *)
Definition with_seed (p : sim_params) (s : Z) : sim_params := {|
  D := D p; f := f p; stroke_ratio := stroke_ratio p; tau_R := tau_R p;
  cavity_C := cavity_C p; rho := rho p; mu_air := mu_air p;
  A_bw := A_bw p; beta := beta p; gamma := gamma p; n := n p;
  duration_cycles := duration_cycles p; dt := dt p; seed := s
|}.

(** A solver run that ends at the point [x] with the given status, for
    the examples: which point a solve ends at is SciPy's matter. *)
Definition trf_ends_at (x : R * R) (status : Z)
    : (R * R -> result (list (option R))) -> R * R -> R * R -> R * R
      -> (R * R) * Z :=
  fun _ _ _ _ => (x, status).

(** The drive displacement and velocity as functions of continuous time,
    the expressions [simulate_cycle] samples on its grid. *)
Definition drive_x (p : sim_params) (t : R) : R :=
  stroke_ratio p * D p / 2.0 * sin (2 * PI * f p * t).

Definition drive_xdot (p : sim_params) (t : R) : R :=
  2 * PI * f p * (stroke_ratio p * D p / 2.0) * cos (2 * PI * f p * t).

(** An infeasible start for the calibration: sigma below its lower bound. *)
Definition infeasible_start : R * R := (0.1, 0.6).

(** ** Further inputs and derived quantities *)

(** The parameters with [tau_R] and [cavity_C] replaced by the floored
    values the simulator divides by, [max(1e-9, tau_R)] and
    [max(1e-12, cavity_C)]. *)
Definition floored (p : sim_params) : sim_params := {|
  D := D p; f := f p; stroke_ratio := stroke_ratio p;
  tau_R := py_max 1e-9 (tau_R p);
  cavity_C := py_max 1e-12 (cavity_C p); rho := rho p; mu_air := mu_air p;
  A_bw := A_bw p; beta := beta p; gamma := gamma p; n := n p;
  duration_cycles := duration_cycles p; dt := dt p; seed := seed p
|}.

(** A run of three cycles at 10 Hz with a time step of 0.1: its grid has
    three samples. *)
Definition short_run_params : sim_params := {|
  D := 0.010; f := 10.0; stroke_ratio := 4.0; tau_R := 2.0;
  cavity_C := 2.0e-8; rho := 1.2; mu_air := 1.8e-5;
  A_bw := 1.0; beta := 0.6; gamma := 0.2; n := 2;
  duration_cycles := 3; dt := 0.1; seed := 417
|}.

(** A run with a return time and a compliance of zero, both below their
    floors, at a small stroke ratio. *)
Definition below_floor_params : sim_params := {|
  D := 0.010; f := 150.0; stroke_ratio := 1e-6; tau_R := 0;
  cavity_C := 0; rho := 1.2; mu_air := 1.8e-5;
  A_bw := 1.0; beta := 0.6; gamma := 0.2; n := 2;
  duration_cycles := 10; dt := 1e-5; seed := 417
|}.

(** The default run with the stroke ratio set to zero. *)
Definition zero_stroke_params : sim_params := {|
  D := 0.010; f := 150.0; stroke_ratio := 0; tau_R := 2.0;
  cavity_C := 2.0e-8; rho := 1.2; mu_air := 1.8e-5;
  A_bw := 1.0; beta := 0.6; gamma := 0.2; n := 2;
  duration_cycles := 10; dt := 1e-5; seed := 417
|}.

(** ** The demonstration figure

    [demo_plot] draws one curve per return time on a 300-point grid of
    stroke ratios.  The figure is modelled by what is handed to
    matplotlib: for every [plt.plot] call the abscissae, the ordinates and
    the return time its label prints, and the three captions. *)

Record plot_call : Type := {
  plot_x : list R;
  plot_y : list R;
  plot_label_tauR : R
}.

Record figure : Type := {
  fig_calls : list plot_call;
  fig_xlabel : string;
  fig_ylabel : string;
  fig_title : string
}.

Definition demo_plot : figure :=
  let S := np_linspace 1.0 8.0 300 in
  let tau0 := 0.5 in
  let tauR_values := [0.1; 0.5; 1.0; 2.0; 5.0] in
  let k_H := 0.6 in
  let sigma := 1.0 in
  let C_S := map (fun s => exp (- 0.5 * ((s - 4.0) / sigma) ^ 2)) S in
  let calls :=
    foldl (fun calls tauR =>
             let H := tauR / (tauR + tau0) in
             let T_norm := map (fun c => c * (1.0 + k_H * H)) C_S in
             calls ++ [{| plot_x := S; plot_y := T_norm;
                          plot_label_tauR := tauR |}])
          [] tauR_values in
  {| fig_calls := calls;
     fig_xlabel := "Stroke ratio S = L0/D";
     fig_ylabel := "Normalized impulse (arb.)";
     fig_title := "C-SJX model: impulse vs. S with continuity gain" |}.

(** The points a [plt.plot] call draws, tagged with the curve's return
    time, in the layout of a sweep row. *)
Definition plotted_rows (c : plot_call) : list sweep_row :=
  zip_with (fun s y => (s, plot_label_tauR c, y)) (plot_x c) (plot_y c).

(** * The same arithmetic on binary64

    Where the code computes with the four operations only, its binary64
    values are those of the primitive floats, operation by operation.
    These definitions are used to show where the values of the code part
    from the exact real numbers of the model above. *)

Module B64.

Import PrimFloat.

(** [hysteresis_gain] on floats whose sum is not zero. *)
#[warnings="-inexact-float"]
Definition hysteresis_gain (tau_R tau0 k_H : float) : float :=
  let H := (tau_R / (tau_R + tau0))%float in
  (1.0 + k_H * H)%float.

(** [x ** y] of NumPy on a base that is not negative: 1 for a zero
    exponent, and on a zero base 0 for a positive exponent and infinity
    for a negative one; elsewhere the value of the library's kernel. *)
Definition np_power (kernel : float -> float -> float) (x y : float)
    : float :=
  if (y =? 0)%float then 1%float
  else if (x =? 0)%float then
    if (y <? 0)%float then infinity
    else if (0 <? y)%float then 0%float
    else kernel x y
  else kernel x y.

(** [bouc_wen] on floats. *)
Definition bouc_wen (kernel : float -> float -> float)
    (xdot z A beta gamma n : float) : float :=
  let absz := abs z in
  (A * xdot - beta * abs xdot * np_power kernel absz (n - 1) * z
   - gamma * xdot * np_power kernel absz n)%float.

(** The value the loop of [simulate_cycle] writes from the previous
    state [z] and velocity [xdot]. *)
#[warnings="-inexact-float"]
Definition euler_step (kernel : float -> float -> float)
    (xdot z A beta gamma n dt tau_R : float) : float :=
  let floor := if (1e-9 <? tau_R)%float then tau_R else 1e-9%float in
  (z + bouc_wen kernel xdot z A beta gamma n * dt / floor)%float.

(** [np.exp]: the result is 0 once the exponential lies below half the
    smallest positive float, which it does from about -745.14 down, and
    exactly 1 at zero; elsewhere it is the value of the library's
    kernel. *)
Definition np_exp (kernel : float -> float) (x : float) : float :=
  if (x <? -746)%float then 0%float
  else if (x =? 0)%float then 1%float
  else kernel x.

(** [formation_envelope] on floats, for a width other than zero. *)
#[warnings="-inexact-float"]
Definition formation_envelope (kernel : float -> float)
    (S sigma S_opt : float) : float :=
  let d := ((S - S_opt) / sigma)%float in
  np_exp kernel (-0.5 * (d * d))%float.

End B64.

(** * The services around the model

    [collapse_poetics.py], the two routes and the weld ledger of [app.py].
    A request body and a ledger file hold JSON; a Python string is
    modelled by the bytes of its UTF-8 encoding. *)

(** A Python float as it reaches a comparison.  A finite float is a real
    number, as in the model above; the two infinities and NaN are kept
    apart because well-formed input produces them: [float("nan")],
    [float("inf")], and the literals [NaN] and [Infinity] that
    [json.loads] accepts. *)
Inductive pyfloat : Type :=
  | Finite (r : R)
  | PosInf
  | NegInf
  | NaN.

(** [a > b] and [a < b] for a float [a] and a finite constant [b]. *)
Definition float_gt (a : pyfloat) (b : R) : bool :=
  match a with
  | Finite r => bool_decide (r > b)
  | PosInf => true
  | NegInf | NaN => false
  end.

Definition float_lt (a : pyfloat) (b : R) : bool :=
  match a with
  | Finite r => bool_decide (r < b)
  | NegInf => true
  | PosInf | NaN => false
  end.

(** The integers that convert to a float are those that round to a
    binary64 value: the ones below 2^1024 - 2^970 in absolute value. *)
Definition float_int_bound : R := IZR (2 ^ 1024 - 2 ^ 970).

#[warnings="-register-all"]
Inductive json : Type :=
  | JNull
  | JBool (b : bool)
  | JNum (x : pyfloat)
  | JStr (s : string)
  | JArr (l : list json)
  | JObj (m : gmap string json).

(** The exceptions these functions can raise. *)
Inductive Exn : Type :=
  | AttributeError
  | TypeError
  | FloatValueError
  | OverflowError
  | JSONDecodeError
  | FileNotFoundError
  | HTTPStatusError
  | RequestError.

Inductive outcome (A : Type) : Type :=
  | Returns (a : A)
  | Raises (e : Exn).

Arguments Returns {A} a.
Arguments Raises {A} e.

#[global] Instance outcome_ret : MRet outcome := fun A a => Returns a.

#[global] Instance outcome_bind : MBind outcome := fun A B k m =>
  match m with
  | Returns a => k a
  | Raises e => Raises e
  end.

(** [d.get(key, default)] on a dictionary. *)
Definition dict_get (d : gmap string json) (key : string) (dflt : json)
    : json :=
  default dflt (d !! key).

(** [str.lower()]: the letters A to Z become a to z.  Python also folds
    capitals outside ASCII; none of them folds to a text in which one of
    the eight ASCII keywords below could start or end, so the occurrences
    of the keywords are those found on the bytes. *)
Definition ascii_lower (c : ascii) : ascii :=
  let k := nat_of_ascii c in
  if ((65 <=? k)%nat && (k <=? 90)%nat)%bool then ascii_of_nat (k + 32) else c.

Fixpoint py_lower (s : string) : string :=
  match s with
  | EmptyString => EmptyString
  | String c r => String (ascii_lower c) (py_lower r)
  end.

(** [str.upper()] on ASCII letters, used to state case-insensitivity. *)
Definition ascii_upper (c : ascii) : ascii :=
  let k := nat_of_ascii c in
  if ((97 <=? k)%nat && (k <=? 122)%nat)%bool then ascii_of_nat (k - 32) else c.

Fixpoint py_upper (s : string) : string :=
  match s with
  | EmptyString => EmptyString
  | String c r => String (ascii_upper c) (py_upper r)
  end.

(** [needle in hay] on strings: [needle] occurs somewhere in [hay]. *)
Fixpoint py_in (needle hay : string) : bool :=
  (String.prefix needle hay
   || match hay with
      | EmptyString => false
      | String _ r => py_in needle r
      end)%bool.

Module Poetics.

(** [CollapsePoeticsInterpreter]: the constructor stores the phrase in
    lower case. *)
Record CollapsePoeticsInterpreter : Type := { phrase : string }.

Definition new (phrase : string) : CollapsePoeticsInterpreter :=
  {| phrase := py_lower phrase |}.

(** One [if keyword in self.phrase: interpretations.append(text)]. *)
Definition append_if (keyword text : string) (self_phrase : string)
    (interpretations : list string) : list string :=
  if py_in keyword self_phrase then interpretations ++ [text]
  else interpretations.

Definition interpret (self : CollapsePoeticsInterpreter) : list string :=
  let interpretations := [] in
  let interpretations :=
    append_if "doorway" "Doorway → anchor point in κ-space"
      (phrase self) interpretations in
  let interpretations :=
    append_if "edge of a room"
      "Edge of room → not a boundary, but a reference rejection"
      (phrase self) interpretations in
  let interpretations :=
    append_if "act of stepping" "Act of stepping → drift initiation (ω > 0)"
      (phrase self) interpretations in
  let interpretations :=
    append_if "threshold" "Threshold → curvature fold, not scalar crossing"
      (phrase self) interpretations in
  let interpretations :=
    append_if "fold in time" "Fold in time → τR > 0 (return delay)"
      (phrase self) interpretations in
  let interpretations :=
    append_if "mirror" "Mirror → κ-preserving reflection"
      (phrase self) interpretations in
  let interpretations :=
    append_if "spiral" "Spiral → C > 0 (high curvature path)"
      (phrase self) interpretations in
  let interpretations :=
    append_if "wall" "Wall → ω → 1⁻ (saturation boundary)"
      (phrase self) interpretations in
  interpretations.

(** The keywords and their interpretations, as a table. *)
Definition lexicon : list (string * string) :=
  [ ("doorway", "Doorway → anchor point in κ-space");
    ("edge of a room",
     "Edge of room → not a boundary, but a reference rejection");
    ("act of stepping", "Act of stepping → drift initiation (ω > 0)");
    ("threshold", "Threshold → curvature fold, not scalar crossing");
    ("fold in time", "Fold in time → τR > 0 (return delay)");
    ("mirror", "Mirror → κ-preserving reflection");
    ("spiral", "Spiral → C > 0 (high curvature path)");
    ("wall", "Wall → ω → 1⁻ (saturation boundary)") ].

(** [generate_poetics_from_invariants(omega=None, C=None, tau_R=None,
    kappa=None)], each argument [None] or a float. *)
Definition generate_poetics_from_invariants
    (omega C tau_R kappa : option pyfloat) : list string :=
  let lines := [] in
  let lines :=
    match omega with
    | Some omega =>
        lines ++ [if float_gt omega 0.3
                  then "The ground slipped — a drift unbound."
                  else "It moved, but softly — a whisper of change."]
    | None => lines
    end in
  let lines :=
    match C with
    | Some C =>
        lines ++ [if float_gt C 0.2
                  then "A spiral deepened — pattern without peace."
                  else "It curled gently, holding form."]
    | None => lines
    end in
  let lines :=
    match tau_R with
    | Some tau_R =>
        lines ++ [if float_gt tau_R 5
                  then "No way back was found — time folded."
                  else "The loop closed — return was near."]
    | None => lines
    end in
  let lines :=
    match kappa with
    | Some kappa =>
        lines ++ [if float_lt kappa 0
                  then "Integrity broke — the weld failed."
                  else "It held. It lived as one."]
    | None => lines
    end in
  lines.

Section Routes.

(** [float(s)] on a string: the float it spells, if it spells one. *)
Variable str_to_float : string -> option pyfloat.

(** [float(v)] on a JSON value.  A JSON number reaches Python as a float
    or, for an integer literal, as an int of any size.  A finite number at
    or beyond [float_int_bound] in absolute value is no float, so it is
    such an int, and [float] raises [OverflowError] on it. *)
Definition py_float (v : json) : outcome pyfloat :=
  match v with
  | JNum (Finite r) =>
      if decide (Rabs r < float_int_bound) then Returns (Finite r)
      else Raises OverflowError
  | JNum x => Returns x
  | JBool b => Returns (Finite (if b then 1 else 0))
  | JStr s =>
      match str_to_float s with
      | Some x => Returns x
      | None => Raises FloatValueError
      end
  | JNull | JArr _ | JObj _ => Raises TypeError
  end.

(** The route [/interpret], from the JSON object of the request body to
    the list under ["interpretation"]. *)
Definition interpret_route (body : gmap string json) : outcome (list string) :=
  match dict_get body "phrase" (JStr "") with
  | JStr phrase => Returns (interpret (new phrase))
  | _ => Raises AttributeError
  end.

(** The keys [/generate] reads, in the order it reads them. *)
Definition generate_keys : list string :=
  ["omega"; "curvature"; "tauR"; "kappa"].

(** The route [/generate], to the list under ["poetic_fragment"]. *)
Definition generate_route (data : gmap string json) : outcome (list string) :=
  omega ← py_float (dict_get data "omega" (JNum (Finite 0)));
  curvature ← py_float (dict_get data "curvature" (JNum (Finite 0)));
  tau_R ← py_float (dict_get data "tauR" (JNum (Finite 0)));
  kappa ← py_float (dict_get data "kappa" (JNum (Finite 0)));
  mret (generate_poetics_from_invariants
          (Some omega) (Some curvature) (Some tau_R) (Some kappa)).

End Routes.

End Poetics.

(** * The weld ledger

    The second half of [app.py]: the weld test, the HUD of a weld and the
    ledger file. *)

Module AuditStack.


(** [math.isclose(a, b, rel_tol=rel_tol)] on finite floats, with the
    default [abs_tol] of 0: equal, or apart by no more than the relative
    tolerance of either. *)
Definition isclose (a b rel_tol : R) : bool :=
  if decide (a = b) then true
  else
    let diff := Rabs (b - a) in
    bool_decide (diff <= Rabs (rel_tol * b))
    || bool_decide (diff <= Rabs (rel_tol * a))
    || bool_decide (diff <= 0).

(** [math.exp(x)].  Above 709.782712893384 the result exceeds the largest
    float and Python raises [OverflowError]; below -745.1332191019412 it
    rounds to 0.0; in between it is the exponential (rounded, which the
    model leaves out). *)
Definition math_exp (x : R) : outcome R :=
  if decide (709.782712893384 < x) then Raises OverflowError
  else if decide (x < -745.1332191019412) then Returns 0
  else Returns (exp x).

(** [weld_pass]: the [and] evaluates [math.exp] only when the residual is
    within the tolerance. *)
Definition weld_pass (delta_kappa I_ratio residual tol : R) : outcome bool :=
  if bool_decide (Rabs residual <= tol) then
    e ← math_exp delta_kappa;
    mret (isclose e I_ratio 1e-9)
  else mret false.

(** [render_hud]: the dictionary it returns.  The identifier, the seed and
    the two hashes are passed through as they come. *)
Definition render_hud (weld_id : json)
    (delta_kappa I_ratio residual kappa I : R)
    (seed sha256 manifest_root_hash : json) (tol : R)
    : outcome (gmap string json) :=
  e ← math_exp delta_kappa;
  let I_t1 := I * e in
  let kappa_t1 := kappa + delta_kappa in
  passed ← weld_pass delta_kappa I_ratio residual tol;
  mret (list_to_map
    [ ("weld_id", weld_id);
      ("manifest_root_hash", manifest_root_hash);
      ("kappa", JNum (Finite kappa));
      ("I", JNum (Finite I));
      ("delta_kappa", JNum (Finite delta_kappa));
      ("I_ratio", JNum (Finite I_ratio));
      ("I_t1", JNum (Finite I_t1));
      ("kappa_t1", JNum (Finite kappa_t1));
      ("residual", JNum (Finite residual));
      ("tol", JNum (Finite tol));
      ("pass", JBool passed);
      ("seed", seed);
      ("sha256", sha256) ]).

(** ** Files

    A file holds the text of a JSON document, or text that [json.load]
    rejects (an empty file is such a text).  The working directory maps
    the names of its regular files to what they hold. *)
Inductive file : Type :=
  | Garbled
  | Doc (j : json).

Abbreviation files := (gmap string file).

(** A computation that reads or writes files and may raise: from the files
    before to the files after and the outcome. *)
Definition io (A : Type) : Type := files -> files * outcome A.

#[global] Instance io_ret : MRet io := fun A a fs => (fs, Returns a).

#[global] Instance io_bind : MBind io := fun A B k m fs =>
  match m fs with
  | (fs', Returns a) => k a fs'
  | (fs', Raises e) => (fs', Raises e)
  end.

Definition lift {A : Type} (o : outcome A) : io A := fun fs => (fs, o).

(** [os.path.exists(filename)] *)
Definition os_path_exists (filename : string) : io bool :=
  fun fs => (fs, Returns (bool_decide (is_Some (fs !! filename)))).

(** [with open(filename, "r") as f: json.load(f)] *)
Definition json_load (filename : string) : io json :=
  fun fs =>
    match fs !! filename with
    | None => (fs, Raises FileNotFoundError)
    | Some Garbled => (fs, Raises JSONDecodeError)
    | Some (Doc j) => (fs, Returns j)
    end.

(** [with open(filename, "w") as f: json.dump(data, f, indent=2)], for a
    name in the working directory, as the script and the default of
    [append_to_ledger] have it: the file is created or replaced.  (A path
    into a directory that does not exist cannot be opened; the model holds
    no directories and its statements on a missing file are made for the
    default name.) *)
Definition json_dump (data : json) (filename : string) : io unit :=
  fun fs => (<[filename := Doc data]> fs, Returns tt).

(** [data.append(entry)]: only a list has the method. *)
Definition py_append (data entry : json) : outcome json :=
  match data with
  | JArr l => Returns (JArr (l ++ [entry]))
  | _ => Raises AttributeError
  end.

(** [for x in l: f(x)] *)
Fixpoint for_each {A : Type} (f : A -> io unit) (l : list A) : io unit :=
  match l with
  | [] => mret tt
  | x :: rest => _ ← f x; for_each f rest
  end.

Definition append_to_ledger (entry : json) (filename : string) : io unit :=
  present ← os_path_exists filename;
  data ← (if (present : bool) then json_load filename
          else mret (JArr []));
  data ← lift (py_append data entry);
  json_dump data filename.




End AuditStack.

(** * The weather service

    [weather_service.py]: the request helper, the alert formatter, the
    coordinate check and the two look-ups, as the functions are written.
    Their registration with the server and the log messages are left
    out. *)

(** [a <= b] and [a >= b] for a float [a] and a finite constant [b]. *)
Definition float_le (a : pyfloat) (b : R) : bool :=
  match a with
  | Finite r => bool_decide (r <= b)
  | NegInf => true
  | PosInf | NaN => false
  end.

Definition float_ge (a : pyfloat) (b : R) : bool :=
  match a with
  | Finite r => bool_decide (b <= r)
  | PosInf => true
  | NegInf | NaN => false
  end.

(** [x.get(key, default)] on a JSON value: only a dictionary has the
    method. *)
Definition py_get (x : json) (key : string) (dflt : json) : outcome json :=
  match x with
  | JObj d => Returns (dict_get d key dflt)
  | _ => Raises AttributeError
  end.

(** The truth value of a JSON value, as [if x] and [x or y] take it. *)
Definition py_bool (x : json) : bool :=
  match x with
  | JNull => false
  | JBool b => b
  | JNum (Finite r) => bool_decide (r <> 0)
  | JNum _ => true
  | JStr s => bool_decide (s <> EmptyString)
  | JArr l => bool_decide (length l <> 0%nat)
  | JObj d => bool_decide (size d <> 0%nat)
  end.

(** The number of characters of a string held as UTF-8: the bytes that do
    not continue a character. *)
Definition utf8_len (s : string) : nat :=
  length (filter (fun c => (nat_of_ascii c <? 128)%nat
                           || (192 <=? nat_of_ascii c)%nat)
                 (list_ascii_of_string s)).

(** [len(x)] *)
Definition py_len (x : json) : outcome nat :=
  match x with
  | JArr l => Returns (length l)
  | JStr s => Returns (utf8_len s)
  | JObj d => Returns (size d)
  | JNull | JBool _ | JNum _ => Raises TypeError
  end.

Definition newline : string := String (ascii_of_nat 10) EmptyString.

Module Weather.

Definition NWS_API_BASE : string := "https://api.weather.gov".

Section Service.

(** [str(x)] of a float, as an f-string prints it. *)
Variable float_str : pyfloat -> string.

(** [str(x)] of a number, a list or a dictionary. *)
Variable py_repr : json -> string.

(** The body of the [try] in [make_nws_request]: the answer to a GET of
    [url] parsed as JSON, or the exception that [client.get],
    [raise_for_status] or [resp.json] raises.  The answer may depend on
    the requests made before. *)
Variable fetch : list json -> json -> outcome json.

(** What an f-string prints for a JSON value. *)
Definition py_str (x : json) : string :=
  match x with
  | JStr s => s
  | JNull => "None"
  | JBool true => "True"
  | JBool false => "False"
  | JNum _ | JArr _ | JObj _ => py_repr x
  end.

(** A computation that makes requests and may raise: from the requests
    made so far to the requests made then and the outcome. *)
Definition web (A : Type) : Type := list json -> list json * outcome A.

#[global] Instance web_ret : MRet web := fun A a log => (log, Returns a).

#[global] Instance web_bind : MBind web := fun A B k m log =>
  match m log with
  | (log', Returns a) => k a log'
  | (log', Raises e) => (log', Raises e)
  end.

Definition lift {A : Type} (o : outcome A) : web A := fun log => (log, o).

(** [make_nws_request]: a status error, a network error and a
    [ValueError] ([JSONDecodeError] is one) are answered with [None],
    here [JNull]; any other exception passes through. *)
Definition make_nws_request (url : json) : web json :=
  fun log =>
    (log ++ [url],
     match fetch log url with
     | Returns body => Returns body
     | Raises HTTPStatusError => Returns JNull
     | Raises RequestError => Returns JNull
     | Raises FloatValueError | Raises JSONDecodeError => Returns JNull
     | Raises e => Raises e
     end).

Definition format_alert (feature : json) : outcome string :=
  props ← py_get feature "properties" (JObj ∅);
  event ← py_get props "event" (JStr "Unknown");
  areaDesc ← py_get props "areaDesc" (JStr "Unknown");
  severity ← py_get props "severity" (JStr "Unknown");
  description ←
    py_get props "description" (JStr "No description available");
  instruction ←
    py_get props "instruction" (JStr "No specific instructions provided");
  mret ("Event: " +:+ py_str event +:+ newline
        +:+ "Area: " +:+ py_str areaDesc +:+ newline
        +:+ "Severity: " +:+ py_str severity +:+ newline +:+ newline
        +:+ "Description:" +:+ newline +:+ py_str description
        +:+ newline +:+ newline
        +:+ "Instructions:" +:+ newline +:+ py_str instruction
        +:+ newline).

Definition validate_lat_lon (lat lon : pyfloat) : bool :=
  float_ge lat (- 90.0) && float_le lat 90.0
  && (float_ge lon (- 180.0) && float_le lon 180.0).

(** [[format_alert(f) for f in l]] on a list *)
Fixpoint format_each (l : list json) : outcome (list string) :=
  match l with
  | [] => mret []
  | f :: rest =>
      text ← format_alert f;
      texts ← format_each rest;
      mret (text :: texts)
  end.

(** [[format_alert(f) for f in x]] on any value.  A string yields its
    characters and a dictionary its keys; these are strings, on which
    [format_alert] fails, so that only an empty one is gone through. *)
Definition format_all (x : json) : outcome (list string) :=
  match x with
  | JArr l => format_each l
  | JStr s =>
      if bool_decide (s = EmptyString) then Returns []
      else Raises AttributeError
  | JObj d =>
      if bool_decide (size d = 0%nat) then Returns []
      else Raises AttributeError
  | JNull | JBool _ | JNum _ => Raises TypeError
  end.

Definition invalid_lat_lon : gmap string json :=
  list_to_map
    [("error",
      JStr "invalid lat/lon; lat must be -90..90 and lon -180..180")].

Definition point_url (lat lon : pyfloat) : json :=
  JStr (NWS_API_BASE +:+ "/points/" +:+ float_str lat +:+ ","
        +:+ float_str lon).

Definition alerts_url (lat lon : pyfloat) : json :=
  JStr (NWS_API_BASE +:+ "/alerts/active?point=" +:+ float_str lat +:+ ","
        +:+ float_str lon).

(** [a or b] *)
Definition py_or (a b : json) : json := if py_bool a then a else b.

Definition get_weather (lat lon : pyfloat) (hourly : option bool)
    : web (gmap string json) :=
  if negb (validate_lat_lon lat lon) then mret invalid_lat_lon
  else
    let point_url := point_url lat lon in
    point ← make_nws_request point_url;
    match point with
    | JNull =>
        mret (list_to_map
                [("error", JStr "failed to fetch point metadata from NWS")])
    | _ =>
        props ← lift (py_get point "properties" (JObj ∅));
        forecast_url ←
          lift (if default false hourly
                then py_get props "forecastHourly" JNull
                else py_get props "forecast" JNull);
        forecast_url ←
          lift (if negb (py_bool forecast_url)
                then a ← py_get props "forecast" JNull;
                     b ← (if py_bool a then mret a
                          else py_get props "forecastHourly" JNull);
                     mret b
                else mret forecast_url);
        forecast ←
          (if py_bool forecast_url then make_nws_request forecast_url
           else mret JNull);
        let alerts_url := alerts_url lat lon in
        alerts ← make_nws_request alerts_url;
        formatted_alerts ←
          lift (if py_bool alerts
                then features ← py_get alerts "features" JNull;
                     match features with
                     | JArr l => format_each l
                     | _ => mret []
                     end
                else mret []);
        rel_loc ← lift (py_get props "relativeLocation" JNull);
        location_name ←
          lift (if py_bool rel_loc
                then p ← py_get rel_loc "properties" (JObj ∅);
                     py_get p "city" JNull
                else mret JNull);
        mret (list_to_map
                [ ("point_url", point_url);
                  ("point", props);
                  ("location_name", location_name);
                  ("forecast_url", forecast_url);
                  ("forecast", forecast);
                  ("alerts_raw", alerts);
                  ("alerts_text", JArr (JStr <$> formatted_alerts)) ])
    end.

Definition get_alerts (lat lon : pyfloat) : web (gmap string json) :=
  if negb (validate_lat_lon lat lon) then mret invalid_lat_lon
  else
    let alerts_url := alerts_url lat lon in
    alerts ← make_nws_request alerts_url;
    match alerts with
    | JNull =>
        mret (list_to_map
                [("error", JStr "failed to fetch alerts from NWS")])
    | _ =>
        features ← lift (py_get alerts "features" (JArr []));
        count ← lift (py_len features);
        formatted ← lift (format_all features);
        mret (list_to_map
                [ ("count", JNum (Finite (INR count)));
                  ("raw", alerts);
                  ("formatted", JArr (JStr <$> formatted)) ])
    end.

(** The exceptions that [make_nws_request] does not catch. *)
Definition uncaught (e : Exn) : Prop :=
  e <> HTTPStatusError /\ e <> RequestError
  /\ e <> FloatValueError /\ e <> JSONDecodeError.

(** A computation that raises nothing but uncaught exceptions. *)
Definition contained {A : Type} (m : web A) : Prop :=
  forall (log log' : list json) (e : Exn),
    m log = (log', Raises e) -> uncaught e.

End Service.

End Weather.

(** * Properties *)

(** ** Real-number facts used below *)

Lemma exp_le_1 (x : R) : x <= 0 -> exp x <= 1.
Proof.
  intros [Hlt | ->].
  - rewrite <- exp_0. left. now apply exp_increasing.
  - rewrite exp_0. lra.
Qed.

Lemma sqr_lt_abs (a b : R) : Rabs a < Rabs b -> a ^ 2 < b ^ 2.
Proof.
  intros H. rewrite <- (pow2_abs a), <- (pow2_abs b).
  pose proof (Rabs_pos a). nra.
Qed.

Lemma saturation_lt (t1 t2 c : R) :
  0 < c -> 0 <= t1 -> t1 < t2 -> t1 / (t1 + c) < t2 / (t2 + c).
Proof.
  intros Hc H1 H2.
  apply Rmult_lt_reg_r with ((t1 + c) * (t2 + c)); [nra |].
  replace (t1 / (t1 + c) * ((t1 + c) * (t2 + c))) with (t1 * (t2 + c))
    by (field; lra).
  replace (t2 / (t2 + c) * ((t1 + c) * (t2 + c))) with (t2 * (t1 + c))
    by (field; lra).
  nra.
Qed.

Lemma saturation_range (t c : R) : 0 < c -> 0 <= t -> 0 <= t / (t + c) < 1.
Proof.
  intros Hc Ht. split.
  - apply Rmult_le_pos; [lra |]. left. apply Rinv_0_lt_compat. lra.
  - apply Rmult_lt_reg_r with (t + c); [lra |].
    replace (t / (t + c) * (t + c)) with t by (field; lra). lra.
Qed.

(** ** Efficiency envelope (C8) *)

Lemma exp_8_le : exp 8 <= 6561.
Proof.
  replace 8 with (1 + 1 + 1 + 1 + 1 + 1 + 1 + 1) by lra.
  rewrite !exp_plus. pose proof exp_le_3 as H3. pose proof (exp_pos 1) as H0.
  assert (H2 : exp 1 * exp 1 <= 9) by nra.
  assert (H4 : exp 1 * exp 1 * exp 1 * exp 1 <= 81) by nra.
  assert (P2 : 0 < exp 1 * exp 1) by nra.
  assert (P4 : 0 < exp 1 * exp 1 * exp 1 * exp 1) by nra.
  nra.
Qed.

Lemma exp_neg_le (d : R) : 0 <= d -> exp (- d) * (1 + d) <= 1.
Proof.
  intros Hd.
  pose proof (exp_ineq1_le d) as H1.
  pose proof (exp_pos (- d)) as Hp.
  assert (H2 : exp (- d) * exp d = 1)
    by (rewrite <- exp_plus; replace (- d + d) with 0 by lra; apply exp_0).
  nra.
Qed.

(** The exponential of a negative number, bounded below through the
    exponential of its opposite. *)
Lemma exp_neg_ge (x c : R) : 0 < c -> exp x <= c -> / c <= exp (- x).
Proof.
  intros Hc Hx.
  pose proof (exp_pos x) as Hp. pose proof (exp_pos (- x)) as Hn.
  assert (Hinv : exp (- x) * exp x = 1)
    by (rewrite <- exp_plus; replace (- x + x) with 0 by lra; apply exp_0).
  apply Rmult_le_reg_r with c; [lra |].
  replace (/ c * c) with 1 by (field; lra). nra.
Qed.

Lemma exp_le_of_le (x y : R) : x <= y -> exp x <= exp y.
Proof.
  intros [Hlt | ->]; [left; by apply exp_increasing | lra].
Qed.

(** C8, as the code has it.  With the default width 1.0 and peak 4.0 the
    envelope lies in [0, 1], is exactly 1 at S = 4, takes the same value
    at two inputs that are mirror images about 4, and within
    |S - 4| <= 4 it drops by at least 1e-13 whenever |S - 4| grows by at
    least 1e-6: a decrease some hundred times larger than the rounding of
    binary64 on these values. *)
Theorem formation_envelope_shape :
  (forall S, 0 <= formation_envelope S 1.0 4.0 <= 1)
  /\ formation_envelope 4.0 1.0 4.0 = 1.0
  /\ (forall S1 S2, S1 - 4.0 = 4.0 - S2 ->
        formation_envelope S1 1.0 4.0 = formation_envelope S2 1.0 4.0)
  /\ (forall S1 S2,
        Rabs (S1 - 4.0) + 1e-6 <= Rabs (S2 - 4.0) -> Rabs (S2 - 4.0) <= 4 ->
        formation_envelope S2 1.0 4.0 + 1e-13
        <= formation_envelope S1 1.0 4.0).
Proof.
  unfold formation_envelope. split; [| split; [| split]].
  - intros S. split; [left; apply exp_pos |].
    apply exp_le_1. pose proof (pow2_ge_0 ((S - 4.0) / 1.0)). lra.
  - replace (- 0.5 * ((4.0 - 4.0) / 1.0) ^ 2) with 0 by (field; lra).
    rewrite exp_0. lra.
  - intros S1 S2 H. f_equal.
    replace ((S1 - 4.0) / 1.0) with (S1 - 4.0) by lra.
    replace ((S2 - 4.0) / 1.0) with (- (S1 - 4.0)) by lra.
    ring.
  - intros S1 S2 Hsep Hrange.
    replace ((S1 - 4.0) / 1.0) with (S1 - 4.0) by lra.
    replace ((S2 - 4.0) / 1.0) with (S2 - 4.0) by lra.
    rewrite <- (pow2_abs (S1 - 4.0)), <- (pow2_abs (S2 - 4.0)).
    set (a := Rabs (S1 - 4.0)) in *. set (b := Rabs (S2 - 4.0)) in *.
    assert (Ha : 0 <= a) by apply Rabs_pos.
    set (d := 0.5 * (b ^ 2 - a ^ 2)).
    replace (- 0.5 * b ^ 2) with (- 0.5 * a ^ 2 + - d) by (unfold d; lra).
    replace (- 0.5 * a ^ 2) with (- (0.5 * a ^ 2)) by lra.
    rewrite exp_plus.
    pose proof (exp_pos (- d)) as Hpd.
    pose proof (exp_pos (- (0.5 * a ^ 2))) as Hpa.
    destruct (Rle_lt_dec a 1) as [Hnear | Hfar].
    + assert (Hd : 5e-13 <= d) by (unfold d; nra).
      pose proof (exp_neg_le d ltac:(lra)) as Hdrop.
      assert (Hdrop' : exp (- d) <= 1 - 4.9e-13) by nra.
      assert (Hlow : / 3 <= exp (- (0.5 * a ^ 2))).
      { apply exp_neg_ge; [lra |].
        apply Rle_trans with (exp 1); [| exact exp_le_3].
        apply exp_le_of_le. nra. }
      nra.
    + assert (Hd : 1e-6 <= d) by (unfold d; nra).
      pose proof (exp_neg_le d ltac:(lra)) as Hdrop.
      assert (Hdrop' : exp (- d) <= 1 - 9e-7) by nra.
      assert (Hlow : / 6561 <= exp (- (0.5 * a ^ 2))).
      { apply exp_neg_ge; [lra |].
        apply Rle_trans with (exp 8); [| exact exp_8_le].
        apply exp_le_of_le. nra. }
      nra.
Qed.

Section EnvelopeInBinary64.

Import PrimFloat.

(** C8 as stated fails in binary64: far from the peak the exponential
    underflows, so that the envelope at S = 44 is exactly 0, outside
    (0, 1], and the same as at S = 43, although 43 is closer to 4. *)
Lemma formation_envelope_underflows :
  (abs (43 - 4.0) <? abs (44 - 4.0))%float = true
  /\ forall kernel : float -> float,
       B64.formation_envelope kernel 44 1.0 4.0 = 0%float
       /\ B64.formation_envelope kernel 43 1.0 4.0 = 0%float.
Proof. split; [reflexivity |]. intros kernel. split; reflexivity. Qed.

End EnvelopeInBinary64.

(** ** Continuity gain (C7) *)

(** C7, as the code has it.  For k_H >= 0 and the default tau0 = 0.5 the
    gain is exactly 1 at tau_R = 0 and within [1, 1 + k_H] for every
    tau_R >= 0; for k_H >= 0.01 it rises by at least 4e-13 between two
    return times of [0, 100] that are at least 1e-6 apart, an increase
    that the rounding of binary64 cannot undo. *)
Theorem hysteresis_gain_shape (k_H : R) :
  0 <= k_H ->
  hysteresis_gain 0 0.5 k_H = 1
  /\ (forall t, 0 <= t ->
        1 <= hysteresis_gain t 0.5 k_H <= 1 + k_H)
  /\ (forall t1 t2, 0 <= t1 -> t1 + 1e-6 <= t2 -> t2 <= 100 ->
        0.01 <= k_H ->
        hysteresis_gain t1 0.5 k_H + 4e-13 <= hysteresis_gain t2 0.5 k_H).
Proof.
  intros Hk. unfold hysteresis_gain. split; [| split].
  - replace (0 / (0 + 0.5)) with 0 by (field; lra). lra.
  - intros t Ht.
    destruct (saturation_range t 0.5) as [? ?]; [lra | lra |]. nra.
  - intros t1 t2 H1 Hsep H2 Hk'.
    assert (Hgap : t1 / (t1 + 0.5) + 4.9e-11 <= t2 / (t2 + 0.5)).
    { apply Rmult_le_reg_r with ((t1 + 0.5) * (t2 + 0.5)); [nra |].
      replace ((t1 / (t1 + 0.5) + 4.9e-11) * ((t1 + 0.5) * (t2 + 0.5)))
        with (t1 * (t2 + 0.5) + 4.9e-11 * ((t1 + 0.5) * (t2 + 0.5)))
        by (field; lra).
      replace (t2 / (t2 + 0.5) * ((t1 + 0.5) * (t2 + 0.5)))
        with (t2 * (t1 + 0.5)) by (field; lra).
      nra. }
    nra.
Qed.

Lemma hysteresis_gain_shape_default :
  0 <= 0.6
  /\ hysteresis_gain 0 0.5 0.6 = 1
  /\ (forall t, 0 <= t ->
        1 <= hysteresis_gain t 0.5 0.6 <= 1 + 0.6)
  /\ (forall t1 t2, 0 <= t1 -> t1 + 1e-6 <= t2 -> t2 <= 100 ->
        0.01 <= 0.6 ->
        hysteresis_gain t1 0.5 0.6 + 4e-13 <= hysteresis_gain t2 0.5 0.6).
Proof.
  split; [lra |]. apply (hysteresis_gain_shape 0.6). lra.
Defined.

Section GainInBinary64.

Import PrimFloat.

(** C7 as stated fails in binary64: at tau_R = 1e16 the quotient rounds
    to 1 and the gain is exactly 1 + k_H, not below it; and from the float
    3.7844383190879047 to the next one the gain drops, so that it is not
    increasing either. *)
#[warnings="-inexact-float"]
Lemma hysteresis_gain_rounds :
  B64.hysteresis_gain 1e16 0.5 0.6 = (1.0 + 0.6)%float
  /\ (3.7844383190879047 <? 3.784438319087905)%float = true
  /\ (B64.hysteresis_gain 3.784438319087905 0.5 0.6
      <? B64.hysteresis_gain 3.7844383190879047 0.5 0.6)%float = true.
Proof. repeat split; reflexivity. Qed.

End GainInBinary64.

(** ** The sweep table (C6) *)

Section CrossProduct.
Context {A B C : Type} (g : B -> A -> C).

Lemma foldl_append_map (xs : list A) (b : B) (acc : list C) :
  foldl (fun data a => data ++ [g b a]) acc xs = acc ++ map (g b) xs.
Proof.
  revert acc. induction xs as [| a xs IH]; intros acc; simpl.
  - by rewrite app_nil_r.
  - rewrite IH. by rewrite <- app_assoc.
Qed.

Lemma foldl_nested_append (xs : list A) (bs : list B) (acc : list C) :
  foldl (fun data b => foldl (fun data a => data ++ [g b a]) data xs) acc bs
  = acc ++ (b ← bs; map (g b) xs).
Proof.
  revert acc. induction bs as [| b bs IH]; intros acc.
  - simpl. by rewrite app_nil_r.
  - rewrite bind_cons. simpl. rewrite IH, foldl_append_map.
    by rewrite <- app_assoc.
Qed.

Lemma length_grid (xs : list A) (bs : list B) :
  length (b ← bs; map (g b) xs) = (length bs * length xs)%nat.
Proof.
  induction bs as [| b bs IH]; [done |].
  rewrite bind_cons, length_app, length_map, IH. done.
Qed.

Lemma lookup_grid (xs : list A) (bs : list B) (j i : nat) (b : B) (a : A) :
  bs !! j = Some b -> xs !! i = Some a ->
  (b ← bs; map (g b) xs) !! (j * length xs + i)%nat = Some (g b a).
Proof.
  revert j. induction bs as [| b0 bs IH]; intros j Hj Hi; [done |].
  rewrite bind_cons. destruct j as [| j]; simpl in *.
  - simplify_eq. rewrite lookup_app_l.
    + by rewrite list_lookup_fmap, Hi.
    + rewrite length_map. by eapply lookup_lt_Some.
  - rewrite lookup_app_r; rewrite length_map; [| lia].
    replace (length xs + j * length xs + i - length xs)%nat
      with (j * length xs + i)%nat by lia.
    by apply IH.
Qed.
End CrossProduct.

Lemma np_envelope_finite (S sigma : R) :
  sigma <> 0 ->
  np_envelope S sigma = Some (exp (- 0.5 * ((S - 4.0) / sigma) ^ 2)).
Proof.
  intros Hs. unfold np_envelope, np_true_divide. by rewrite decide_False.
Qed.

Lemma foldl_ext_all {A B : Type} (g h : A -> B -> A) (l : list B) (a : A) :
  (forall x y, g x y = h x y) -> foldl g a l = foldl h a l.
Proof.
  intros Hgh. revert a. induction l as [| b l IH]; intros a; [done |].
  cbn. by rewrite Hgh, IH.
Qed.

Lemma py_truediv_ok (a b : R) : b <> 0 -> py_truediv a b = Ok (a / b).
Proof. intros Hb. unfold py_truediv. by rewrite decide_False. Qed.

Lemma py_truediv_zero (a b : R) :
  b = 0 -> py_truediv a b = Raise ZeroDivisionError.
Proof. intros Hb. unfold py_truediv. by rewrite decide_True. Qed.

(** The outer loop of the sweep: it goes through while the quotient is
    defined, and stops with the exception of the first return time at
    which it is not. *)
Lemma sweep_loop_raised (step : list sweep_row -> R -> R -> list sweep_row)
    (taus : list R) (e : PyExn) :
  foldl (fun acc tau_R =>
           data ← acc;
           H ← py_truediv tau_R (tau_R + 0.5);
           mret (step data tau_R H))
        (Raise e) taus
  = Raise e.
Proof. induction taus as [| tau taus IH]; [done | exact IH]. Qed.

Lemma sweep_loop_ok (step : list sweep_row -> R -> R -> list sweep_row)
    (taus : list R) (data : list sweep_row) :
  Forall (fun tau => tau + 0.5 <> 0) taus ->
  foldl (fun acc tau_R =>
           data ← acc;
           H ← py_truediv tau_R (tau_R + 0.5);
           mret (step data tau_R H))
        (Ok data) taus
  = Ok (foldl (fun data tau_R => step data tau_R (tau_R / (tau_R + 0.5)))
          data taus).
Proof.
  revert data. induction taus as [| tau taus IH]; intros data Hok; [done |].
  apply Forall_cons in Hok as [Htau Hok].
  cbn [foldl mbind result_bind]. rewrite (py_truediv_ok _ _ Htau).
  cbn [mbind result_bind mret result_ret]. by apply IH.
Qed.

Lemma sweep_loop_pole (step : list sweep_row -> R -> R -> list sweep_row)
    (before after : list R) (tau : R) (data : list sweep_row) :
  Forall (fun tau => tau + 0.5 <> 0) before -> tau + 0.5 = 0 ->
  foldl (fun acc tau_R =>
           data ← acc;
           H ← py_truediv tau_R (tau_R + 0.5);
           mret (step data tau_R H))
        (Ok data) (before ++ tau :: after)
  = Raise ZeroDivisionError.
Proof.
  intros Hok Htau. rewrite foldl_app, (sweep_loop_ok step before data Hok).
  cbn [foldl mbind result_bind]. rewrite (py_truediv_zero _ _ Htau).
  cbn [mbind result_bind]. apply sweep_loop_raised.
Qed.

(** The table of a sweep whose return times all keep the quotient
    defined. *)
Lemma sweep_S_tauR_rows
    (D f : R) (S_vals tau_vals : option (list R)) (sigma k_H : R) (seed : Z) :
  sigma <> 0 ->
  Forall (fun tau => tau + 0.5 <> 0)
    (default [0.1; 0.5; 1.0; 2.0; 5.0] tau_vals) ->
  sweep_S_tauR D f S_vals tau_vals sigma k_H seed
  = Ok (tau ← default [0.1; 0.5; 1.0; 2.0; 5.0] tau_vals;
        map (fun S => (S, tau, formation_envelope S sigma 4.0
                               * hysteresis_gain tau 0.5 k_H))
            (default (np_linspace 1.0 8.0 40) S_vals)).
Proof.
  intros Hs Hok. unfold sweep_S_tauR. cbv zeta.
  etransitivity;
    [exact (sweep_loop_ok
              (fun data tau_R H =>
                 foldl (fun data S =>
                          data ++ [(S, tau_R,
                                    default 0 (np_envelope S sigma)
                                    * (1.0 + k_H * H))])
                       data (default (np_linspace 1.0 8.0 40) S_vals))
              _ [] Hok) |].
  apply f_equal.
  etransitivity;
    [| exact (foldl_nested_append
                (fun tau S => (S, tau, formation_envelope S sigma 4.0
                                       * hysteresis_gain tau 0.5 k_H))
                _ _ [])].
  apply foldl_ext_all. intros data tau.
  apply foldl_ext_all. intros rows S.
  by rewrite np_envelope_finite.
Qed.

(** C6, as the code has it.  When no return time is -0.5 and the width
    is not zero (NumPy's envelope is 0.0 or nan at a zero width) the table
    returned by [sweep_S_tauR] is the full cross-product of the tau_R
    values (outer loop) and the S values (inner loop): it has one row per
    pair, the row of the j-th tau_R and the i-th S sits at index
    j * len(S_vals) + i, and its impulse is
    formation_envelope(S, sigma) * hysteresis_gain(tau_R, 0.5, k_H).  At
    the first return time equal to -0.5 the quotient of the outer loop
    raises [ZeroDivisionError] and no table is returned. *)
Theorem sweep_S_tauR_cross_product
    (D f : R) (S_vals tau_vals : option (list R)) (sigma k_H : R) (seed : Z) :
  let Ss := default (np_linspace 1.0 8.0 40) S_vals in
  let taus := default [0.1; 0.5; 1.0; 2.0; 5.0] tau_vals in
  (sigma <> 0 -> Forall (fun tau => tau + 0.5 <> 0) taus ->
   exists table : list sweep_row,
     sweep_S_tauR D f S_vals tau_vals sigma k_H seed = Ok table
     /\ table = sweep_table_spec Ss taus sigma k_H
     /\ length table = (length taus * length Ss)%nat
     /\ (forall (j i : nat) (tau S : R),
           taus !! j = Some tau -> Ss !! i = Some S ->
           table !! (j * length Ss + i)%nat
           = Some (S, tau,
                   formation_envelope S sigma 4.0
                   * hysteresis_gain tau 0.5 k_H)))
  /\ (forall (before after : list R) (tau : R),
        taus = before ++ tau :: after ->
        Forall (fun tau => tau + 0.5 <> 0) before -> tau + 0.5 = 0 ->
        sweep_S_tauR D f S_vals tau_vals sigma k_H seed
        = Raise ZeroDivisionError).
Proof.
  intros Ss taus. split.
  - intros Hs Hok.
    set (row := fun (tau S : R) =>
      (S, tau, formation_envelope S sigma 4.0 * hysteresis_gain tau 0.5 k_H)).
    exists (tau ← taus; map (row tau) Ss).
    split;
      [exact (sweep_S_tauR_rows D f S_vals tau_vals sigma k_H seed Hs Hok) |].
    split; [| split].
    + unfold sweep_table_spec.
      clear Hok. induction taus as [| tau taus' IH]; [done |].
      rewrite !bind_cons, IH. f_equal.
    + apply length_grid.
    + intros j i tau S Hj Hi. by apply (lookup_grid row).
  - intros before after tau Htaus Hok Htau.
    unfold sweep_S_tauR. cbv zeta. fold taus. rewrite Htaus.
    exact (sweep_loop_pole
             (fun data tau_R H =>
                foldl (fun data S =>
                         data ++ [(S, tau_R,
                                   default 0 (np_envelope S sigma)
                                   * (1.0 + k_H * H))])
                      data (default (np_linspace 1.0 8.0 40) S_vals))
             before after tau [] Hok Htau).
Qed.

Lemma sweep_S_tauR_cross_product_default :
  1.0 <> 0
  /\ Forall (fun tau => tau + 0.5 <> 0) [0.1; 0.5; 1.0; 2.0; 5.0]
  /\ exists table : list sweep_row,
       sweep_S_tauR 0.010 150.0 None None 1.0 0.6 417 = Ok table
       /\ length table = 200%nat
       /\ table !! 41%nat
          = Some (1.0 + INR 1 * ((8.0 - 1.0) / INR (40 - 1)), 0.5,
                  formation_envelope
                    (1.0 + INR 1 * ((8.0 - 1.0) / INR (40 - 1))) 1.0 4.0
                  * hysteresis_gain 0.5 0.5 0.6).
Proof.
  assert (Hs : 1.0 <> 0) by lra.
  assert (Hok : Forall (fun tau => tau + 0.5 <> 0) [0.1; 0.5; 1.0; 2.0; 5.0])
    by (repeat apply Forall_cons_2; try apply Forall_nil_2; lra).
  split; [exact Hs |]. split; [exact Hok |].
  destruct (proj1 (sweep_S_tauR_cross_product 0.010 150.0 None None
                     1.0 0.6 417) Hs Hok)
    as (table & Ht & _ & Hlen & Hrow).
  exists table. split; [exact Ht |]. split; [exact Hlen |].
  exact (Hrow 1%nat 1%nat 0.5 _ eq_refl eq_refl).
Defined.

(** C6 as stated fails for a list of return times that holds -0.5: the
    sweep raises and returns no table. *)
Lemma sweep_raises_on_gain_pole :
  sweep_S_tauR 0.010 150.0 (Some [3.0; 4.0]) (Some [1.0; -0.5]) 1.0 0.6 417
  = Raise ZeroDivisionError.
Proof.
  unfold sweep_S_tauR. cbv zeta. cbn [default].
  apply (sweep_loop_pole
           (fun data tau_R H =>
              foldl (fun data S =>
                       data ++ [(S, tau_R,
                                 default 0 (np_envelope S 1.0)
                                 * (1.0 + 0.6 * H))])
                    data [3.0; 4.0])
           [1.0] [] (-0.5) []).
  - apply Forall_cons_2; [lra | apply Forall_nil_2].
  - lra.
Qed.

(** ** The hysteresis loop *)

Section HysteresisLoop.
Variable p : sim_params.
Variables t xdot : list R.

Lemma z_after_S (k : nat) :
  z_after p t xdot (S k)
  = <[ S k := euler_step p (xdot !!! k) (z_after p t xdot k !!! k) ]>
      (z_after p t xdot k).
Proof.
  unfold z_after. rewrite seq_S, foldl_app. simpl.
  unfold bouc_wen_step at 1, euler_step.
  by replace (S k - 1)%nat with k by lia.
Qed.

Lemma length_z_after (k : nat) : length (z_after p t xdot k) = length t.
Proof.
  induction k as [| k IH].
  - unfold z_after. simpl. apply length_replicate.
  - by rewrite z_after_S, length_insert.
Qed.

Lemma zeros_lookup_total (m i : nat) : replicate m (0 : R) !!! i = 0.
Proof.
  destruct (decide (i < m)%nat).
  - by apply lookup_total_replicate_2.
  - rewrite list_lookup_total_alt, lookup_ge_None_2; [done |].
    rewrite length_replicate. lia.
Qed.

(** Slots the loop has not reached yet still hold the initial zero. *)
Lemma z_after_untouched (k i : nat) :
  (k < i)%nat -> z_after p t xdot k !!! i = 0.
Proof.
  revert i. induction k as [| k IH]; intros i Hi.
  - unfold z_after. simpl. apply zeros_lookup_total.
  - rewrite z_after_S, list_lookup_total_insert_ne by lia. apply IH. lia.
Qed.

Lemma z_after_head (k : nat) : z_after p t xdot k !!! 0%nat = 0.
Proof.
  induction k as [| k IH].
  - unfold z_after. simpl. apply zeros_lookup_total.
  - by rewrite z_after_S, list_lookup_total_insert_ne by lia.
Qed.

(** Later passes leave the slots already written alone. *)
Lemma z_after_stable (k j i : nat) :
  (i <= k)%nat -> (k <= j)%nat ->
  z_after p t xdot j !!! i = z_after p t xdot k !!! i.
Proof.
  intros Hik Hkj. induction Hkj as [| j Hkj IH]; [done |].
  rewrite z_after_S, list_lookup_total_insert_ne by lia. apply IH.
Qed.

Lemma z_after_written (k : nat) :
  (S k < length t)%nat ->
  z_after p t xdot (S k) !!! S k
  = euler_step p (xdot !!! k) (z_after p t xdot k !!! k).
Proof.
  intros Hk. rewrite z_after_S, list_lookup_total_insert_eq; [done |].
  by rewrite length_z_after.
Qed.

Lemma hysteretic_state_length : length (hysteretic_state p t xdot) = length t.
Proof. apply length_z_after. Qed.

Lemma hysteretic_state_head : hysteretic_state p t xdot !!! 0%nat = 0.
Proof. apply z_after_head. Qed.

Lemma hysteretic_state_step (i : nat) :
  (1 <= i)%nat -> (i < length t)%nat ->
  hysteretic_state p t xdot !!! i
  = euler_step p (xdot !!! (i - 1)%nat)
               (hysteretic_state p t xdot !!! (i - 1)%nat).
Proof.
  intros H1 Hi. unfold hysteretic_state. fold (z_after p t xdot (length t - 1)).
  destruct i as [| k]; [lia |].
  replace (S k - 1)%nat with k by lia.
  rewrite (z_after_stable (S k) (length t - 1) (S k)) by lia.
  rewrite (z_after_stable k (length t - 1) k) by lia.
  by apply z_after_written.
Qed.
End HysteresisLoop.

(** ** Runs of the simulator *)

Lemma pow2_gt_0 (x : R) : x <> 0 -> 0 < x ^ 2.
Proof. intros Hx. rewrite <- Rsqr_pow2. by apply Rsqr_pos_lt. Qed.

Lemma py_max_pos (a b : R) : 0 < a -> 0 < py_max a b.
Proof. intros Ha. unfold py_max. case_decide; lra. Qed.

Lemma py_max_Rmax (a b : R) : py_max a b = Rmax b a.
Proof.
  unfold py_max, Rmax. case_decide; destruct (Rle_dec b a); lra.
Qed.

Ltac run_steps H :=
  unfold simulate_cycle_frame, default_rng, py_hysteresis_gain, py_truediv,
    np_arange, np_gradient in H;
  repeat (case_decide; cbn [mbind mret result_bind result_ret] in H;
          try discriminate H).

Lemma length_final_stretch (p : sim_params) (g h : R -> R) :
  length (drop (Z.to_nat (py_int (0.8 * INR (length
            (map (fun i => 0.0 + INR i * dt p)
               (seq 0 (Z.to_nat (Zceil ((duration_cycles p * (1.0 / f p) - 0.0)
                                         / dt p)))))))))
          (map g (map h (map (fun i => 0.0 + INR i * dt p)
               (seq 0 (Z.to_nat (Zceil ((duration_cycles p * (1.0 / f p) - 0.0)
                                         / dt p))))))))
  = (nsamples p - idx0_of p)%nat.
Proof.
  rewrite length_drop, !length_map, length_seq. reflexivity.
Qed.

(** What a completed run has computed, field by field. *)
Lemma simulate_cycle_frame_inv (p : sim_params) (fr : frame) :
  simulate_cycle_frame p = Ok fr ->
  returns p
  /\ fr_rng fr = {| entropy := seed p |}
  /\ fr_t fr = map (fun i => 0.0 + INR i * dt p) (seq 0 (nsamples p))
  /\ fr_S fr = stroke_ratio p
  /\ fr_xdot fr
     = map (fun ti => 2 * PI * f p * (stroke_ratio p * D p / 2.0)
                      * cos (2 * PI * f p * ti)) (fr_t fr)
  /\ fr_z fr = hysteretic_state p (fr_t fr) (fr_xdot fr)
  /\ fr_A0 fr = PI * (D p / 2.0) ^ 2
  /\ fr_out fr = map (fun v => bool_decide (v > 0)) (fr_xdot fr)
  /\ fr_u fr
     = zip_with (fun v b => (v / fr_A0 fr) * b2r b) (fr_xdot fr) (fr_out fr)
  /\ fr_u_exit fr = map (fun ui => 0.8 * ui) (fr_u fr)
  /\ fr_thrust_inst fr
     = zip_with (fun ue b => 1.0 * rho p * fr_A0 fr * (ue ^ 2) * b2r b)
         (fr_u_exit fr) (fr_out fr)
  /\ fr_impulse fr = np_trapz (fr_thrust_inst fr) (fr_t fr)
  /\ fr_eff fr = formation_envelope (stroke_ratio p) 1.0 4.0
  /\ fr_G fr = hysteresis_gain (tau_R p) 0.5 0.6
  /\ fr_impulse_eff fr = fr_impulse fr * fr_eff fr * fr_G fr.
Proof.
  intros H. run_steps H.
  match goal with Hg : ~ (length _ < 2)%nat |- _ =>
    rewrite length_final_stretch in Hg end.
  injection H as <-. cbn.
  repeat split; try reflexivity; try assumption; try lia.
Qed.

Lemma half_period_nonzero (p : sim_params) :
  f p <> 0 -> 0.5 * (1.0 / f p) <> 0.
Proof.
  intros Hf H0. apply Rmult_integral in H0 as [H0 | H0]; [lra |].
  assert (H1 : 1.0 / f p * f p = 1).
  { unfold Rdiv. rewrite Rmult_assoc, Rinv_l by assumption. lra. }
  rewrite H0 in H1. lra.
Qed.

Lemma stiffness_denominator_nonzero (p : sim_params) :
  py_max 1e-12 (cavity_C p) <> 0.
Proof. pose proof (py_max_pos 1e-12 (cavity_C p)). lra. Qed.

Lemma simulate_cycle_frame_returns (p : sim_params) :
  returns p -> exists fr, simulate_cycle_frame p = Ok fr.
Proof.
  intros (Hseed & Hf & Hdt & Hn & Htau).
  unfold simulate_cycle_frame, default_rng, py_hysteresis_gain, py_truediv,
    np_arange, np_gradient.
  rewrite (decide_False (P := (seed p < 0)%Z)) by lia.
  cbn [mbind mret result_bind result_ret].
  rewrite (decide_False (P := f p = 0)) by assumption.
  cbn [mbind mret result_bind result_ret].
  rewrite (decide_False (P := dt p = 0)) by assumption.
  cbn [mbind mret result_bind result_ret].
  rewrite (decide_False (P := 0.5 * (1.0 / f p) = 0))
    by (by apply half_period_nonzero).
  cbn [mbind mret result_bind result_ret].
  rewrite (decide_False (P := py_max 1e-12 (cavity_C p) = 0))
    by apply stiffness_denominator_nonzero.
  cbn [mbind mret result_bind result_ret].
  rewrite length_final_stretch.
  rewrite (decide_False (P := (nsamples p - idx0_of p < 2)%nat)) by lia.
  cbn [mbind mret result_bind result_ret].
  rewrite (decide_False (P := tau_R p + 0.5 = 0)) by assumption.
  cbn [mbind mret result_bind result_ret].
  eauto.
Qed.

Lemma simulate_cycle_returns (p : sim_params) :
  returns p ->
  exists fr, simulate_cycle_frame p = Ok fr
             /\ simulate_cycle p = Ok (returned p fr).
Proof.
  intros H. destruct (simulate_cycle_frame_returns p H) as [fr Hfr].
  exists fr. split; [done |]. unfold simulate_cycle. by rewrite Hfr.
Qed.

Lemma simulate_cycle_inv (p : sim_params) (r : cycle_result) :
  simulate_cycle p = Ok r ->
  exists fr, simulate_cycle_frame p = Ok fr /\ r = returned p fr.
Proof.
  unfold simulate_cycle. destruct (simulate_cycle_frame p) as [fr | e];
    cbn [mbind mret result_bind result_ret]; intros H; [| discriminate].
  injection H as <-. eauto.
Qed.

(** The sample count of the default run, and of every run that shares its
    frequency, duration and time step: 10 cycles at 150 Hz, step 1e-5. *)
Lemma nsamples_default_grid (p : sim_params) :
  f p = 150.0 -> duration_cycles p = 10 -> dt p = 1e-5 ->
  nsamples p = Z.to_nat 6667 /\ idx0_of p = Z.to_nat 5333.
Proof.
  intros Hf Hc Hdt.
  assert (Hn : nsamples p = Z.to_nat 6667).
  { unfold nsamples. rewrite Hf, Hc, Hdt. f_equal. apply Zceil_eq. lra. }
  split; [exact Hn |].
  unfold idx0_of. rewrite Hn. f_equal.
  rewrite INR_IZR_INZ, Z2Nat.id by lia.
  unfold py_int. rewrite decide_True by lra.
  apply Zfloor_eq. lra.
Qed.

Lemma returns_default_grid (p : sim_params) :
  (0 <= seed p)%Z -> f p = 150.0 -> duration_cycles p = 10 -> dt p = 1e-5 ->
  tau_R p + 0.5 <> 0 -> returns p.
Proof.
  intros Hs Hf Hc Hdt Ht.
  destruct (nsamples_default_grid p Hf Hc Hdt) as [Hn Hi].
  unfold returns. rewrite Hn, Hi, Hf, Hdt.
  repeat split; try lra; try assumption.
  rewrite <- Z2Nat.inj_sub by lia. change 2%nat with (Z.to_nat 2).
  apply Z2Nat.inj_le; lia.
Qed.

Lemma returns_default : returns default_params.
Proof. apply returns_default_grid; cbn; (lia || lra). Qed.

(** ** Hysteretic state (C1) *)






Section StateInBinary64.

Import PrimFloat.


End StateInBinary64.

(** ** Exit velocity and thrust (C5) *)

Lemma orifice_area_pos (p : sim_params) : D p <> 0 -> 0 < orifice_area p.
Proof.
  intros HD. unfold orifice_area. apply Rmult_lt_0_compat; [apply PI_RGT_0 |].
  apply pow2_gt_0. lra.
Qed.

(** Exit velocity and thrust of one sample, from its drive velocity. *)
Lemma thrust_sample (p : sim_params) (fr : frame) (i : nat) (xd : R) :
  simulate_cycle_frame p = Ok fr ->
  fr_xdot fr !! i = Some xd ->
  let gate := b2r (bool_decide (xd > 0)) in
  let ue := 0.8 * (xd / orifice_area p * gate) in
  fr_u_exit fr !! i = Some ue
  /\ fr_thrust_inst fr !! i
     = Some (1.0 * rho p * orifice_area p * ue ^ 2 * gate).
Proof.
  intros Hfr Hxd gate ue.
  destruct (simulate_cycle_frame_inv p fr Hfr)
    as (_ & _ & _ & _ & _ & _ & HA0 & Hout & Hu & Hue & Hth & _).
  fold (orifice_area p) in HA0.
  assert (Hg : fr_out fr !! i = Some (bool_decide (xd > 0)))
    by (by rewrite Hout, list_lookup_fmap, Hxd).
  assert (Hui : fr_u_exit fr !! i = Some ue).
  { rewrite Hue, list_lookup_fmap, Hu, lookup_zip_with, Hxd, Hg, HA0. done. }
  split; [exact Hui |].
  rewrite Hth, lookup_zip_with, Hui, Hg, HA0. done.
Qed.

Lemma length_thrust (p : sim_params) (fr : frame) :
  simulate_cycle_frame p = Ok fr ->
  length (fr_xdot fr) = length (fr_t fr)
  /\ length (fr_u_exit fr) = length (fr_t fr)
  /\ length (fr_thrust_inst fr) = length (fr_t fr).
Proof.
  intros Hfr.
  destruct (simulate_cycle_frame_inv p fr Hfr)
    as (_ & _ & _ & _ & Hxd & _ & _ & Hout & Hu & Hue & Hth & _).
  assert (H1 : length (fr_xdot fr) = length (fr_t fr))
    by (by rewrite Hxd, length_map).
  assert (H2 : length (fr_out fr) = length (fr_t fr))
    by (by rewrite Hout, length_map).
  assert (H3 : length (fr_u_exit fr) = length (fr_t fr)).
  { rewrite Hue, length_map, Hu, length_zip_with. lia. }
  repeat split; try done.
  rewrite Hth, length_zip_with. lia.
Qed.

(** With a diameter other than zero and a non-negative density no sample
    has a negative thrust. *)
Lemma thrust_sample_nonneg (p : sim_params) (fr : frame) (i : nat) (xd : R) :
  simulate_cycle_frame p = Ok fr ->
  D p <> 0 -> 0 <= rho p ->
  fr_xdot fr !! i = Some xd ->
  exists th : R, fr_thrust_inst fr !! i = Some th /\ 0 <= th.
Proof.
  intros Hfr HD Hrho Hxd.
  destruct (thrust_sample p fr i xd Hfr Hxd) as [_ Hth].
  eexists. split; [exact Hth |].
  pose proof (orifice_area_pos p HD) as HA.
  set (ue := 0.8 * (xd / orifice_area p * b2r (bool_decide (xd > 0)))).
  assert (0 <= b2r (bool_decide (xd > 0)))
    by (unfold b2r; case_bool_decide; lra).
  pose proof (pow2_ge_0 ue).
  apply Rmult_le_pos; [| assumption].
  apply Rmult_le_pos; [| assumption].
  apply Rmult_le_pos; lra.
Qed.

(** C5, as the code has it.  In every run that returns with a diameter
    other than zero, each time sample has an exit velocity and a thrust;
    both are exactly 0 wherever the drive velocity is not strictly
    positive, and the thrust is non-negative at every sample provided the
    density rho is non-negative. *)
Theorem thrust_gated_outstroke (p : sim_params) :
  returns p -> D p <> 0 ->
  exists fr : frame,
    simulate_cycle_frame p = Ok fr
    /\ length (fr_thrust_inst fr) = length (fr_t fr)
    /\ length (fr_xdot fr) = length (fr_t fr)
    /\ (forall (i : nat) (xd : R), fr_xdot fr !! i = Some xd ->
          exists ue th : R,
            fr_u_exit fr !! i = Some ue
            /\ fr_thrust_inst fr !! i = Some th
            /\ (~ xd > 0 -> ue = 0 /\ th = 0)
            /\ (0 <= rho p -> 0 <= th)).
Proof.
  intros Hret HD.
  destruct (simulate_cycle_frame_returns p Hret) as [fr Hfr].
  exists fr. split; [exact Hfr |].
  destruct (length_thrust p fr Hfr) as (Hl1 & _ & Hl3).
  split; [exact Hl3 |]. split; [exact Hl1 |].
  intros i xd Hxd.
  destruct (thrust_sample p fr i xd Hfr Hxd) as [Hue Hth].
  eexists _, _. split; [exact Hue |]. split; [exact Hth |].
  split.
  - intros Hneg. rewrite bool_decide_eq_false_2 by assumption.
    unfold b2r. split; ring.
  - intros Hrho.
    destruct (thrust_sample_nonneg p fr i xd Hfr HD Hrho Hxd)
      as (th & Hth' & Hge).
    rewrite Hth in Hth'. apply (inj Some) in Hth'. by rewrite Hth'.
Qed.

Lemma thrust_gated_outstroke_default :
  returns default_params /\ D default_params <> 0
  /\ exists fr : frame,
       simulate_cycle_frame default_params = Ok fr
       /\ length (fr_thrust_inst fr) = length (fr_t fr).
Proof.
  assert (HD : D default_params <> 0) by (cbn; lra).
  split; [exact returns_default |]. split; [exact HD |].
  destruct (thrust_gated_outstroke default_params returns_default HD)
    as (fr & Hfr & Hlen & _).
  exists fr. auto.
Defined.

Lemma returns_negative_density : returns negative_density_params.
Proof. apply returns_default_grid; cbn; (lia || lra). Qed.

Lemma first_sample (p : sim_params) (fr : frame) :
  simulate_cycle_frame p = Ok fr ->
  fr_xdot fr !! 0%nat
  = Some (2 * PI * f p * (stroke_ratio p * D p / 2.0)).
Proof.
  intros Hfr.
  destruct (simulate_cycle_frame_inv p fr Hfr)
    as (Hrun & _ & Ht & _ & Hxd & _).
  destruct Hrun as (_ & _ & _ & Hn & _).
  rewrite Hxd, Ht, !list_lookup_fmap, lookup_seq_lt by lia. cbn.
  f_equal.
  replace (2 * PI * f p * (0.0 + 0 * dt p)) with 0 by lra.
  rewrite cos_0. ring.
Qed.

(** C5 as stated fails: with the density set to -1.2 the first sample, on
    the outstroke, has a negative thrust. *)
Lemma thrust_negative_for_negative_density :
  exists (fr : frame) (th : R),
    simulate_cycle_frame negative_density_params = Ok fr
    /\ fr_thrust_inst fr !! 0%nat = Some th
    /\ th < 0.
Proof.
  destruct (simulate_cycle_frame_returns _ returns_negative_density)
    as [fr Hfr].
  pose proof (first_sample _ fr Hfr) as Hxd.
  destruct (thrust_sample _ fr 0 _ Hfr Hxd) as [_ Hth].
  eexists fr, _. split; [exact Hfr |]. split; [exact Hth |].
  assert (HA : 0 < orifice_area negative_density_params)
    by (apply orifice_area_pos; cbn; lra).
  set (A0 := orifice_area negative_density_params) in *.
  cbn [f stroke_ratio D rho negative_density_params].
  pose proof PI_RGT_0 as Hpi.
  set (xd := 2 * PI * 150.0 * (4.0 * 0.010 / 2.0)).
  assert (Hx : xd > 0) by (unfold xd; lra).
  rewrite bool_decide_eq_true_2 by exact Hx.
  unfold b2r.
  assert (Hq : 0 < xd / A0) by (apply Rdiv_lt_0_compat; lra).
  assert (Hsq : 0 < (0.8 * (xd / A0 * 1)) ^ 2) by (apply pow2_gt_0; lra).
  nra.
Qed.

(** ** Parameter handling (C2) *)

Ltac run_to_decision :=
  unfold simulate_cycle, simulate_cycle_frame, default_rng,
    py_hysteresis_gain, py_truediv, np_arange, np_gradient;
  cbn [mbind mret result_bind result_ret].

Lemma raises_on_zero_frequency (p : sim_params) :
  (0 <= seed p)%Z -> f p = 0 -> simulate_cycle p = Raise ZeroDivisionError.
Proof.
  intros Hs Hf. run_to_decision.
  rewrite (decide_False (P := (seed p < 0)%Z)) by lia.
  cbn [mbind mret result_bind result_ret].
  by rewrite (decide_True (P := f p = 0)).
Qed.

Lemma raises_on_zero_step (p : sim_params) :
  (0 <= seed p)%Z -> f p <> 0 -> dt p = 0 ->
  simulate_cycle p = Raise ZeroDivisionError.
Proof.
  intros Hs Hf Hdt. run_to_decision.
  rewrite (decide_False (P := (seed p < 0)%Z)) by lia.
  cbn [mbind mret result_bind result_ret].
  rewrite (decide_False (P := f p = 0)) by assumption.
  cbn [mbind mret result_bind result_ret].
  by rewrite (decide_True (P := dt p = 0)).
Qed.

Lemma raises_on_short_grid (p : sim_params) :
  (0 <= seed p)%Z -> f p <> 0 -> dt p <> 0 ->
  (nsamples p - idx0_of p < 2)%nat ->
  simulate_cycle p = Raise IndexError.
Proof.
  intros Hs Hf Hdt Hn. run_to_decision.
  rewrite (decide_False (P := (seed p < 0)%Z)) by lia.
  cbn [mbind mret result_bind result_ret].
  rewrite (decide_False (P := f p = 0)) by assumption.
  cbn [mbind mret result_bind result_ret].
  rewrite (decide_False (P := dt p = 0)) by assumption.
  cbn [mbind mret result_bind result_ret].
  rewrite (decide_False (P := 0.5 * (1.0 / f p) = 0))
    by (by apply half_period_nonzero).
  cbn [mbind mret result_bind result_ret].
  rewrite (decide_False (P := py_max 1e-12 (cavity_C p) = 0))
    by apply stiffness_denominator_nonzero.
  cbn [mbind mret result_bind result_ret].
  rewrite length_final_stretch.
  by rewrite (decide_True (P := (nsamples p - idx0_of p < 2)%nat)).
Qed.


Lemma INR_IZR_nat (k : nat) : INR k = IZR (Z.of_nat k).
Proof. apply INR_IZR_INZ. Qed.

(** The last 20% of a grid of [k] samples holds at least two of them
    exactly when [k] is at least 6. *)
Lemma final_stretch_two_iff (k : nat) :
  (2 <= k - Z.to_nat (py_int (0.8 * INR k)))%nat <-> (6 <= k)%nat.
Proof.
  pose proof (pos_INR k) as Hpos.
  unfold py_int. rewrite decide_True by lra.
  pose proof (Zfloor_bound (0.8 * INR k)) as [Hlo Hhi].
  set (m := Zfloor (0.8 * INR k)) in *.
  rewrite INR_IZR_nat in Hlo, Hhi, Hpos.
  assert (Hm0 : (0 <= m)%Z).
  { apply Z.lt_succ_r. apply lt_IZR. rewrite succ_IZR. lra. }
  split; intros H.
  - assert (Hk : (m + 2 <= Z.of_nat k)%Z) by lia.
    apply IZR_le in Hk. rewrite plus_IZR in Hk.
    assert (H5 : 5 < IZR (Z.of_nat k)) by lra.
    apply lt_IZR in H5. lia.
  - assert (Hk : (6 <= Z.of_nat k)%Z) by lia.
    apply IZR_le in Hk.
    assert (Hlt : IZR m < IZR (Z.of_nat k - 1)) by (rewrite minus_IZR; lra).
    apply lt_IZR in Hlt. lia.
Qed.

(** A quotient of extent over step that stays clear of 5 decides on which
    side of six samples the grid falls.  The margin of 1e-9 is far wider
    than the rounding of the binary64 quotient [np.arange] takes the
    ceiling of, so the count is the same in the program. *)
Lemma nsamples_at_most_five (p : sim_params) :
  (duration_cycles p * (1.0 / f p) - 0.0) / dt p <= 5 - 1e-9 ->
  (nsamples p <= 5)%nat.
Proof.
  intros Hx. unfold nsamples.
  pose proof (Zceil_bound ((duration_cycles p * (1.0 / f p) - 0.0) / dt p))
    as [Hlo _].
  assert (Hz : IZR (Zceil ((duration_cycles p * (1.0 / f p) - 0.0) / dt p)) < 6)
    by lra.
  apply lt_IZR in Hz. lia.
Qed.

Lemma nsamples_at_least_six (p : sim_params) :
  5 + 1e-9 <= (duration_cycles p * (1.0 / f p) - 0.0) / dt p ->
  (6 <= nsamples p)%nat.
Proof.
  intros Hx. unfold nsamples.
  pose proof (Zceil_bound ((duration_cycles p * (1.0 / f p) - 0.0) / dt p))
    as [_ Hhi].
  assert (Hz : 5 < IZR (Zceil ((duration_cycles p * (1.0 / f p) - 0.0) / dt p)))
    by lra.
  apply lt_IZR in Hz. lia.
Qed.

Lemma short_grid_has_short_stretch (p : sim_params) :
  (nsamples p <= 5)%nat -> (nsamples p - idx0_of p < 2)%nat.
Proof.
  intros Hn.
  destruct (decide (2 <= nsamples p - idx0_of p)%nat) as [H2 | H2]; [| lia].
  apply final_stretch_two_iff in H2. lia.
Qed.




(** ** Effective impulse (C10) *)

(** C10. In every run that returns, the effective impulse is the raw
    impulse times exp(-0.5*((S-4.0)/1.0)^2) times
    1 + 0.6*tau_R/(tau_R + 0.5): width 1.0, peak 4.0, k_H = 0.6 and
    tau0 = 0.5 are constants of the formula, whatever the parameters. *)
Theorem effective_impulse_fixed_coefficients (p : sim_params) :
  returns p ->
  exists r : cycle_result,
    simulate_cycle p = Ok r
    /\ r_S r = stroke_ratio p /\ r_tau_R r = tau_R p
    /\ r_impulse r
       = r_impulse_raw r
         * exp (- 0.5 * ((stroke_ratio p - 4.0) / 1.0) ^ 2)
         * (1 + 0.6 * tau_R p / (tau_R p + 0.5)).
Proof.
  intros Hret.
  destruct (simulate_cycle_returns p Hret) as (fr & Hfr & Hr).
  exists (returned p fr). split; [exact Hr |].
  destruct (simulate_cycle_frame_inv p fr Hfr)
    as (_ & _ & _ & HS & _ & _ & _ & _ & _ & _ & _ & _ & Heff & HG & Himp).
  cbn [returned r_S r_tau_R r_impulse r_impulse_raw].
  split; [exact HS |]. split; [reflexivity |].
  rewrite Himp, Heff, HG. unfold formation_envelope, hysteresis_gain.
  f_equal. unfold Rdiv. lra.
Qed.

Lemma effective_impulse_fixed_coefficients_default :
  returns default_params
  /\ exists r : cycle_result,
       simulate_cycle default_params = Ok r
       /\ r_impulse r
          = r_impulse_raw r
            * exp (- 0.5 * ((4.0 - 4.0) / 1.0) ^ 2)
            * (1 + 0.6 * 2.0 / (2.0 + 0.5)).
Proof.
  split; [exact returns_default |].
  destruct (effective_impulse_fixed_coefficients default_params returns_default)
    as (r & Hr & _ & _ & Himp).
  exists r. split; [exact Hr | exact Himp].
Defined.

(** ** Determinism and the seed (C9) *)

Lemma seed_only_reaches_generator (p : sim_params) (s1 s2 : Z) :
  (0 <= s1)%Z -> (0 <= s2)%Z ->
  simulate_cycle (with_seed p s1) = simulate_cycle (with_seed p s2).
Proof.
  intros H1 H2. run_to_decision.
  cbn [with_seed D f stroke_ratio tau_R cavity_C rho mu_air A_bw beta gamma n
       duration_cycles dt seed].
  rewrite (decide_False (P := (s1 < 0)%Z)) by lia.
  rewrite (decide_False (P := (s2 < 0)%Z)) by lia.
  cbn [mbind mret result_bind result_ret].
  repeat (case_decide; cbn [mbind mret result_bind result_ret];
          try reflexivity).
Qed.

(** C9, as the code has it.  [simulate_cycle] is a function of its
    parameters, so equal parameters give equal results; and for any two
    seeds the generator accepts (non-negative integers) the results are
    equal, since the generator built from the seed is never drawn from. *)
Theorem simulate_cycle_seed_independent (p : sim_params) (s1 s2 : Z) :
  (0 <= s1)%Z -> (0 <= s2)%Z ->
  simulate_cycle (with_seed p s1) = simulate_cycle (with_seed p s2)
  /\ (forall q : sim_params,
        q = with_seed p s1 ->
        simulate_cycle q = simulate_cycle (with_seed p s1)).
Proof.
  intros H1 H2. split.
  - by apply seed_only_reaches_generator.
  - by intros q ->.
Qed.

Lemma simulate_cycle_seed_independent_default :
  (0 <= 417)%Z /\ (0 <= 2024)%Z
  /\ simulate_cycle (with_seed default_params 417)
     = simulate_cycle (with_seed default_params 2024).
Proof.
  assert (H1 : (0 <= 417)%Z) by lia.
  assert (H2 : (0 <= 2024)%Z) by lia.
  split; [exact H1 |]. split; [exact H2 |].
  exact (proj1 (simulate_cycle_seed_independent default_params 417 2024 H1 H2)).
Defined.

(** C9 as stated fails for a seed the generator refuses: with seed -1 the
    call raises [ValueError], with seed 417 the same parameters return. *)
Lemma negative_seed_changes_outcome :
  simulate_cycle (with_seed default_params (-1)) = Raise ValueError
  /\ exists r : cycle_result,
       simulate_cycle (with_seed default_params 417) = Ok r.
Proof.
  split.
  - run_to_decision. cbn [with_seed seed].
    by rewrite (decide_True (P := (-1 < 0)%Z)) by lia.
  - assert (Hret : returns (with_seed default_params 417))
      by (apply returns_default_grid; cbn; (lia || lra)).
    destruct (simulate_cycle_returns _ Hret) as (fr & _ & Hr). eauto.
Qed.

(** ** Calibration (C3, C4) *)

Lemma np_dot_self (v : list R) : np_dot v v = np_sum (map (fun r => r ^ 2) v).
Proof.
  unfold np_dot, np_sum. induction v as [| a v IH]; [done |].
  cbn [zip_with map foldr]. rewrite IH. ring.
Qed.

Lemma default_start_in_bounds : in_bounds (1.0, 0.6) (0.2, 0.0) (5.0, 2.0).
Proof. unfold in_bounds. cbn. lra. Qed.

(** Arrays of equal length pair up. *)
Lemma np_broadcast_same {A B C : Type} (g : A -> B -> C)
    (a : list A) (b : list B) :
  length a = length b -> np_broadcast g a b = Ok (zip_with g a b).
Proof. intros H. unfold np_broadcast. by rewrite decide_True. Qed.

Lemma finite_values_Some (r : list R) : finite_values (Some <$> r) = Some r.
Proof. unfold finite_values. by apply mapM_fmap_Some. Qed.

(** The residuals on arrays of one length, element by element. *)
Lemma resid_same_length (bench_S bench_tauR bench_impulse : list R)
    (tau0 sigma kH : R) :
  length bench_S = length bench_tauR ->
  length bench_tauR = length bench_impulse ->
  resid bench_S bench_tauR bench_impulse tau0 (sigma, kH)
  = Ok (zip_with (fun m b => m' ← m; Some (m' - b))
          (zip_with (fun S t => e' ← np_envelope S sigma;
                                h' ← np_true_divide t (t + tau0);
                                Some (e' * (1.0 + kH * h')))
             bench_S bench_tauR)
          bench_impulse).
Proof.
  intros H1 H2. unfold resid.
  rewrite np_broadcast_same by (by rewrite !length_map).
  cbn [mbind result_bind].
  rewrite np_broadcast_same
    by (rewrite length_zip_with, !length_map; lia).
  f_equal. f_equal.
  clear H1 H2. revert bench_tauR.
  induction bench_S as [| S Ss IH]; intros [| t ts]; cbn [map zip_with];
    try reflexivity.
  by rewrite IH.
Qed.

(** With a width other than zero and no return time at the pole
    [-tau0], every residual is finite. *)
Lemma resid_finite (bench_S bench_tauR bench_impulse : list R)
    (tau0 sigma kH : R) :
  length bench_S = length bench_tauR ->
  length bench_tauR = length bench_impulse ->
  Forall (fun t => t + tau0 <> 0) bench_tauR ->
  sigma <> 0 ->
  exists r : list R,
    resid bench_S bench_tauR bench_impulse tau0 (sigma, kH)
    = Ok (Some <$> r).
Proof.
  intros H1 H2 Hpole Hs. rewrite resid_same_length by assumption.
  clear H1 H2. revert bench_S bench_impulse.
  induction Hpole as [| t ts Ht Hts IH]; intros Ss Is.
  - exists []. by destruct Ss.
  - destruct Ss as [| S Ss]; [by exists [] |].
    destruct Is as [| b Is]; [by exists [] |].
    destruct (IH Ss Is) as [r Hr]. injection Hr as Hr.
    eexists (_ :: r). cbn [zip_with fmap list_fmap]. rewrite Hr.
    rewrite np_envelope_finite by assumption.
    unfold np_true_divide. rewrite decide_False by assumption.
    reflexivity.
Qed.

(** A return time at the pole leaves a residual that is not finite,
    whatever the parameters. *)
Lemma resid_not_finite (bench_S bench_tauR bench_impulse : list R)
    (tau0 : R) (x : R * R) :
  length bench_S = length bench_tauR ->
  length bench_tauR = length bench_impulse ->
  Exists (fun t => t + tau0 = 0) bench_tauR ->
  exists f : list (option R),
    resid bench_S bench_tauR bench_impulse tau0 x = Ok f
    /\ finite_values f = None.
Proof.
  destruct x as [sigma kH]. intros H1 H2 Hpole.
  rewrite resid_same_length by assumption.
  eexists. split; [reflexivity |].
  apply mapM_None_2.
  revert bench_S bench_impulse H1 H2.
  induction Hpole as [t ts Ht | t ts Hts IH]; intros Ss Is H1 H2;
    (destruct Ss as [| S Ss]; [discriminate H1 |]);
    (destruct Is as [| b Is]; [discriminate H2 |]);
    cbn [zip_with].
  - apply Exists_cons_hd. unfold np_true_divide.
    rewrite decide_True by assumption.
    by destruct (np_envelope S sigma).
  - apply Exists_cons_tl. apply IH; cbn [length] in *; lia.
Qed.

(** What [fit_sigma_kH] returns when the residuals are finite at the start
    and at the last iterate of the solver: that iterate and the [cost]
    field, whatever the status. *)
Lemma fit_sigma_kH_returns
    (trf : (R * R -> result (list (option R))) -> R * R -> R * R -> R * R
           -> (R * R) * Z)
    (bench_S bench_tauR bench_impulse : list R) (tau0 : R) (init : R * R)
    (r0 r : list R) :
  in_bounds init (0.2, 0.0) (5.0, 2.0) ->
  let F := resid bench_S bench_tauR bench_impulse tau0 in
  let x := (trf F init (0.2, 0.0) (5.0, 2.0)).1 in
  F init = Ok (Some <$> r0) ->
  F x = Ok (Some <$> r) ->
  fit_sigma_kH trf bench_S bench_tauR bench_impulse tau0 init
  = Ok (x.1, x.2, 0.5 * np_dot r r).
Proof.
  intros Hin F x H0 Hx. unfold fit_sigma_kH, least_squares. fold F.
  rewrite decide_True by exact Hin.
  rewrite H0. cbn [mbind result_bind]. rewrite finite_values_Some.
  subst x. destruct (trf F init (0.2, 0.0) (5.0, 2.0)) as [[s k] st].
  cbn [fst] in Hx. rewrite Hx. cbn [mbind result_bind].
  rewrite finite_values_Some. reflexivity.
Qed.

(** A start at which a residual is not finite is refused. *)
Lemma fit_sigma_kH_refuses
    (trf : (R * R -> result (list (option R))) -> R * R -> R * R -> R * R
           -> (R * R) * Z)
    (bench_S bench_tauR bench_impulse : list R) (tau0 : R) (init : R * R)
    (f0 : list (option R)) :
  resid bench_S bench_tauR bench_impulse tau0 init = Ok f0 ->
  finite_values f0 = None ->
  fit_sigma_kH trf bench_S bench_tauR bench_impulse tau0 init
  = Raise ValueError.
Proof.
  intros H0 Hnone. unfold fit_sigma_kH, least_squares.
  case_decide; [| reflexivity].
  rewrite H0. cbn [mbind result_bind]. by rewrite Hnone.
Qed.

Lemma in_bounds_width (x : R * R) :
  in_bounds x (0.2, 0.0) (5.0, 2.0) -> x.1 <> 0.
Proof. unfold in_bounds. cbn. lra. Qed.

(** C4, as the code has it.  On benchmark arrays of one length with no
    return time at the pole [-tau0], from a feasible start, and with the
    last iterate of the solver inside the bounds as SciPy keeps it, the
    third value returned by [fit_sigma_kH] is one half of the sum of
    squared residuals of the surrogate at the returned (sigma, k_H): it is
    the solver's [cost] field. *)
Theorem fit_cost_is_half_sum_of_squares
    (trf : (R * R -> result (list (option R))) -> R * R -> R * R -> R * R
           -> (R * R) * Z)
    (bench_S bench_tauR bench_impulse : list R) (tau0 : R) (init : R * R) :
  length bench_S = length bench_tauR ->
  length bench_tauR = length bench_impulse ->
  Forall (fun t => t + tau0 <> 0) bench_tauR ->
  in_bounds init (0.2, 0.0) (5.0, 2.0) ->
  in_bounds (trf (resid bench_S bench_tauR bench_impulse tau0) init
               (0.2, 0.0) (5.0, 2.0)).1 (0.2, 0.0) (5.0, 2.0) ->
  exists sigma_fit kH_fit cost sum_sq : R,
    fit_sigma_kH trf bench_S bench_tauR bench_impulse tau0 init
    = Ok (sigma_fit, kH_fit, cost)
    /\ sum_sq_resid bench_S bench_tauR bench_impulse tau0 (sigma_fit, kH_fit)
       = Some sum_sq
    /\ cost = 0.5 * sum_sq.
Proof.
  intros H1 H2 Hpole Hin Hend.
  set (x := (trf _ init (0.2, 0.0) (5.0, 2.0)).1) in *.
  destruct init as [s0 k0].
  destruct (resid_finite bench_S bench_tauR bench_impulse tau0 s0 k0
              H1 H2 Hpole (in_bounds_width _ Hin)) as [r0 Hr0].
  destruct (resid_finite bench_S bench_tauR bench_impulse tau0 x.1 x.2
              H1 H2 Hpole (in_bounds_width _ Hend)) as [r Hr].
  replace (x.1, x.2) with x in Hr by (by destruct x).
  exists x.1, x.2, (0.5 * np_dot r r), (np_sum (map (fun v => v ^ 2) r)).
  split; [| split].
  - by apply (fit_sigma_kH_returns trf _ _ _ _ _ r0 r).
  - unfold sum_sq_resid. replace (x.1, x.2) with x by (by destruct x).
    rewrite Hr, finite_values_Some. reflexivity.
  - by rewrite np_dot_self.
Qed.

Lemma fit_cost_is_half_sum_of_squares_flat :
  let trf := trf_ends_at (1.0, 0.6) 1 in
  length [4.0] = length [0.0]
  /\ length [0.0] = length [0.0]
  /\ Forall (fun t => t + 0.5 <> 0) [0.0]
  /\ in_bounds (1.0, 0.6) (0.2, 0.0) (5.0, 2.0)
  /\ in_bounds (trf (resid [4.0] [0.0] [0.0] 0.5) (1.0, 0.6)
                  (0.2, 0.0) (5.0, 2.0)).1 (0.2, 0.0) (5.0, 2.0)
  /\ exists sigma_fit kH_fit cost sum_sq : R,
       fit_sigma_kH trf [4.0] [0.0] [0.0] 0.5 (1.0, 0.6)
       = Ok (sigma_fit, kH_fit, cost)
       /\ sum_sq_resid [4.0] [0.0] [0.0] 0.5 (sigma_fit, kH_fit)
          = Some sum_sq
       /\ cost = 0.5 * sum_sq.
Proof.
  intros trf.
  assert (Hpole : Forall (fun t => t + 0.5 <> 0) [0.0])
    by (apply Forall_cons_2; [lra | apply Forall_nil_2]).
  repeat (split; [first [reflexivity | exact Hpole
                        | exact default_start_in_bounds] |]).
  exact (fit_cost_is_half_sum_of_squares trf [4.0] [0.0] [0.0] 0.5 (1.0, 0.6)
           eq_refl eq_refl Hpole default_start_in_bounds
           default_start_in_bounds).
Defined.

(** On the one-point benchmark S = 4, tau_R = 0, impulse = 0 the residual
    is 1 at every (sigma, k_H) with a width other than zero. *)
Lemma resid_flat (x : R * R) :
  x.1 <> 0 -> resid [4.0] [0.0] [0.0] 0.5 x = Ok [Some 1].
Proof.
  destruct x as [s k]. cbn [fst]. intros Hs.
  rewrite resid_same_length by reflexivity. cbn [zip_with].
  rewrite np_envelope_finite by assumption.
  unfold np_true_divide. rewrite decide_False by lra.
  cbn [mbind option_bind]. do 3 f_equal.
  replace (- 0.5 * ((4.0 - 4.0) / s) ^ 2) with 0
    by (unfold Rdiv; replace (4.0 - 4.0) with 0 by lra; ring).
  rewrite exp_0. unfold Rdiv. replace (0.0 * / (0.0 + 0.5)) with 0 by lra.
  lra.
Qed.

(** C4 as stated fails: on that benchmark, whatever point of the box the
    solver ends at, the sum of squared residuals there is 1 and the third
    value returned is 0.5. *)
Lemma fit_cost_differs_from_sum_of_squares :
  0.5 <> 1
  /\ forall trf : (R * R -> result (list (option R))) -> R * R -> R * R
                  -> R * R -> (R * R) * Z,
       in_bounds (trf (resid [4.0] [0.0] [0.0] 0.5) (1.0, 0.6)
                    (0.2, 0.0) (5.0, 2.0)).1 (0.2, 0.0) (5.0, 2.0) ->
       exists sigma_fit kH_fit : R,
         fit_sigma_kH trf [4.0] [0.0] [0.0] 0.5 (1.0, 0.6)
         = Ok (sigma_fit, kH_fit, 0.5)
         /\ sum_sq_resid [4.0] [0.0] [0.0] 0.5 (sigma_fit, kH_fit) = Some 1.
Proof.
  split; [lra |]. intros trf Hend.
  set (x := (trf _ (1.0, 0.6) (0.2, 0.0) (5.0, 2.0)).1) in *.
  pose proof (in_bounds_width _ Hend) as Hx.
  exists x.1, x.2. split.
  - rewrite (fit_sigma_kH_returns trf _ _ _ _ _ [1] [1]).
    + do 2 f_equal. unfold np_dot, np_sum. cbn [zip_with foldr]. lra.
    + exact default_start_in_bounds.
    + apply resid_flat. cbn. lra.
    + by apply resid_flat.
  - unfold sum_sq_resid. replace (x.1, x.2) with x by (by destruct x).
    rewrite resid_flat by assumption.
    change [Some 1] with (Some <$> [1]). rewrite finite_values_Some.
    cbn [mbind option_bind]. f_equal. unfold np_sum. cbn [map foldr]. lra.
Qed.

(** A benchmark with a return time at the pole is refused, from any
    start: with tau_R = [-0.5] and tau0 = 0.5 the quotient
    tau_R / (tau_R + tau0) is infinite, and SciPy raises [ValueError] on
    residuals that are not finite at the start. *)
Lemma fit_refuses_pole
    (trf : (R * R -> result (list (option R))) -> R * R -> R * R -> R * R
           -> (R * R) * Z)
    (bench_S bench_tauR bench_impulse : list R) (tau0 : R) (init : R * R) :
  length bench_S = length bench_tauR ->
  length bench_tauR = length bench_impulse ->
  Exists (fun t => t + tau0 = 0) bench_tauR ->
  fit_sigma_kH trf bench_S bench_tauR bench_impulse tau0 init
  = Raise ValueError.
Proof.
  intros H1 H2 Hpole.
  destruct (resid_not_finite bench_S bench_tauR bench_impulse tau0 init
              H1 H2 Hpole) as (f0 & Hf0 & Hnone).
  by apply (fit_sigma_kH_refuses trf _ _ _ _ _ f0).
Qed.

Lemma fit_refuses_pole_example
    (trf : (R * R -> result (list (option R))) -> R * R -> R * R -> R * R
           -> (R * R) * Z) :
  fit_sigma_kH trf [4.0] [-0.5] [0.0] 0.5 (1.0, 0.6) = Raise ValueError.
Proof.
  apply fit_refuses_pole; [reflexivity | reflexivity |].
  apply Exists_cons_hd. lra.
Qed.

(** Arrays whose lengths differ and are not 1 cannot be combined. *)
Lemma fit_refuses_mismatched_shapes
    (trf : (R * R -> result (list (option R))) -> R * R -> R * R -> R * R
           -> (R * R) * Z) :
  fit_sigma_kH trf [3.0; 4.0] [0.5; 1.0; 2.0] [1.0; 1.0] 0.5 (1.0, 0.6)
  = Raise ValueError.
Proof.
  unfold fit_sigma_kH, least_squares. case_decide; reflexivity.
Qed.

(** C3, as the code has it.  [fit_sigma_kH] returns only the fitted pair
    and the cost: the solver's termination status never reaches the
    caller.  Two solves that end at the same point return the same value
    whatever their statuses, converged or not. *)
Theorem fit_discards_convergence_status
    (search : (R * R -> result (list (option R))) -> R * R -> R * R -> R * R
              -> R * R)
    (status1 status2 : (R * R -> result (list (option R))) -> R * R -> R * R
                       -> R * R -> Z)
    (bench_S bench_tauR bench_impulse : list R) (tau0 : R) (init : R * R) :
  fit_sigma_kH (fun F x0 lb ub => (search F x0 lb ub, status1 F x0 lb ub))
    bench_S bench_tauR bench_impulse tau0 init
  = fit_sigma_kH (fun F x0 lb ub => (search F x0 lb ub, status2 F x0 lb ub))
      bench_S bench_tauR bench_impulse tau0 init.
Proof.
  unfold fit_sigma_kH, least_squares. case_decide; [| reflexivity].
  destruct (resid bench_S bench_tauR bench_impulse tau0 init) as [f0 |];
    cbn [mbind result_bind]; [| reflexivity].
  destruct (finite_values f0); [| reflexivity].
  destruct (resid bench_S bench_tauR bench_impulse tau0
              (search _ init (0.2, 0.0) (5.0, 2.0))) as [f |];
    cbn [mbind result_bind]; [| reflexivity].
  destruct (finite_values f); reflexivity.
Qed.

(** C3 as stated fails: a solve that exhausts its evaluation budget
    (status 0, [success] false) and one that meets a tolerance (status 1,
    [success] true) at the same point hand the caller the same triple. *)
Lemma non_convergence_is_not_surfaced :
  let F := resid [4.0] [0.0] [0.0] 0.5 in
  let stalled := trf_ends_at (1.0, 0.6) 0 in
  let converged := trf_ends_at (1.0, 0.6) 1 in
  exists res0 res1 : OptimizeResult,
    least_squares stalled F (1.0, 0.6) (0.2, 0.0) (5.0, 2.0) = Ok res0
    /\ least_squares converged F (1.0, 0.6) (0.2, 0.0) (5.0, 2.0) = Ok res1
    /\ res_success res0 = false /\ res_success res1 = true
    /\ fit_sigma_kH stalled [4.0] [0.0] [0.0] 0.5 (1.0, 0.6)
       = fit_sigma_kH converged [4.0] [0.0] [0.0] 0.5 (1.0, 0.6)
    /\ fit_sigma_kH stalled [4.0] [0.0] [0.0] 0.5 (1.0, 0.6)
       = Ok (1.0, 0.6, 0.5).
Proof.
  intros F stalled converged. subst F stalled converged.
  assert (Hflat : resid [4.0] [0.0] [0.0] 0.5 (1.0, 0.6) = Ok (Some <$> [1]))
    by (apply resid_flat; cbn; lra).
  unfold least_squares.
  rewrite !decide_True by exact default_start_in_bounds.
  cbn [trf_ends_at]. rewrite Hflat. cbn [mbind result_bind].
  rewrite finite_values_Some.
  eexists _, _. split; [reflexivity |]. split; [reflexivity |].
  split; [reflexivity |]. split; [reflexivity |].
  rewrite !(fit_sigma_kH_returns _ _ _ _ _ _ [1] [1])
    by first [exact default_start_in_bounds | exact Hflat].
  split; [reflexivity |].
  cbn [trf_ends_at fst snd].
  do 2 f_equal. unfold np_dot, np_sum. cbn [zip_with foldr]. lra.
Qed.

(** * Further properties of the simulator, the sweep and the calibration *)

(** ** Kinematics and pressure *)

Lemma simulate_cycle_frame_inv_traces (p : sim_params) (fr : frame) :
  simulate_cycle_frame p = Ok fr ->
  fr_x fr = map (drive_x p) (fr_t fr)
  /\ fr_xdot fr = map (drive_xdot p) (fr_t fr)
  /\ fr_k1 fr = 1.0 / py_max 1e-12 (cavity_C p)
  /\ fr_p fr = zip_with (fun xi zi => fr_k1 fr * xi + 0.2 * fr_k1 fr * zi)
                 (fr_x fr) (fr_z fr)
  /\ fr_dV fr = map (fun xi => orifice_area p * xi) (fr_x fr).
Proof.
  intros H. run_steps H. injection H as <-. cbn.
  repeat split; reflexivity.
Qed.

Lemma drive_xdot_is_derivative (p : sim_params) (t : R) :
  derivable_pt_lim (drive_x p) t (drive_xdot p t).
Proof.
  unfold drive_x, drive_xdot.
  set (a := stroke_ratio p * D p / 2.0). set (w := 2 * PI * f p).
  replace (w * a * cos (w * t)) with (a * (cos (w * t) * (w * 1))) by ring.
  apply (derivable_pt_lim_scal (fun s => sin (w * s))).
  apply (derivable_pt_lim_comp (fun s => w * s) sin).
  - apply (derivable_pt_lim_scal id). apply derivable_pt_lim_id.
  - apply derivable_pt_lim_sin.
Qed.

(** Kinematic consistency.  In every run that returns, the displacement
    and velocity traces sample, at each grid time, a function and its
    exact derivative. *)
Theorem velocity_trace_is_exact_derivative (p : sim_params) :
  returns p ->
  exists fr : frame,
    simulate_cycle_frame p = Ok fr
    /\ forall (i : nat) (ti : R), fr_t fr !! i = Some ti ->
         fr_x fr !! i = Some (drive_x p ti)
         /\ fr_xdot fr !! i = Some (drive_xdot p ti)
         /\ derivable_pt_lim (drive_x p) ti (drive_xdot p ti).
Proof.
  intros Hret. destruct (simulate_cycle_frame_returns p Hret) as [fr Hfr].
  exists fr. split; [exact Hfr |].
  destruct (simulate_cycle_frame_inv_traces p fr Hfr) as (Hx & Hxd & _).
  intros i ti Hti. rewrite Hx, Hxd, !list_lookup_fmap, Hti.
  repeat split. apply drive_xdot_is_derivative.
Qed.

Lemma velocity_trace_is_exact_derivative_default :
  returns default_params
  /\ exists fr : frame,
       simulate_cycle_frame default_params = Ok fr
       /\ forall (i : nat) (ti : R), fr_t fr !! i = Some ti ->
            fr_xdot fr !! i = Some (drive_xdot default_params ti).
Proof.
  split; [exact returns_default |].
  destruct (velocity_trace_is_exact_derivative default_params returns_default)
    as (fr & Hfr & H).
  exists fr. split; [exact Hfr |]. intros i ti Hti. apply (H i ti Hti).
Defined.

(** Pressure model.  In every run that returns, the pressure of a sample
    is the stiffness 1 / max(1e-12, cavity_C) times its displacement plus
    a fifth of that stiffness times its hysteretic state. *)
Theorem pressure_is_linear_plus_hysteretic (p : sim_params) :
  returns p ->
  exists fr : frame,
    simulate_cycle_frame p = Ok fr
    /\ length (fr_p fr) = length (fr_t fr)
    /\ forall (i : nat) (xi zi : R),
         fr_x fr !! i = Some xi -> fr_z fr !! i = Some zi ->
         fr_p fr !! i
         = Some (1.0 / Rmax (cavity_C p) 1e-12 * xi
                 + 0.2 * (1.0 / Rmax (cavity_C p) 1e-12) * zi).
Proof.
  intros Hret. destruct (simulate_cycle_frame_returns p Hret) as [fr Hfr].
  exists fr. split; [exact Hfr |].
  destruct (simulate_cycle_frame_inv_traces p fr Hfr) as (Hx & _ & Hk & Hp & _).
  destruct (simulate_cycle_frame_inv p fr Hfr) as (_ & _ & _ & _ & _ & Hz & _).
  split.
  - rewrite Hp, length_zip_with, Hx, length_map, Hz, hysteretic_state_length.
    lia.
  - intros i xi zi Hxi Hzi.
    rewrite Hp, lookup_zip_with, Hxi, Hzi, Hk, py_max_Rmax. reflexivity.
Qed.

Lemma pressure_is_linear_plus_hysteretic_default :
  returns default_params
  /\ exists fr : frame,
       simulate_cycle_frame default_params = Ok fr
       /\ length (fr_p fr) = length (fr_t fr).
Proof.
  split; [exact returns_default |].
  destruct (pressure_is_linear_plus_hysteretic default_params returns_default)
    as (fr & Hfr & Hlen & _).
  exists fr. auto.
Defined.

(** ** The default scenario *)

Lemma np_sum_nonneg (l : list R) :
  (forall (i : nat) (v : R), l !! i = Some v -> 0 <= v) -> 0 <= np_sum l.
Proof.
  induction l as [| a l IH]; intros H; cbn; [lra |].
  pose proof (H 0%nat a eq_refl).
  assert (0 <= np_sum l) by (apply IH; intros i v Hv; apply (H (S i) v Hv)).
  unfold np_sum in *. lra.
Qed.

Lemma np_sum_pos (l : list R) (v0 : R) :
  (forall (i : nat) (v : R), l !! i = Some v -> 0 <= v) ->
  l !! 0%nat = Some v0 -> 0 < v0 -> 0 < np_sum l.
Proof.
  destruct l as [| a l]; intros H H0 Hv0; [done |].
  injection H0 as ->.
  assert (0 <= np_sum l)
    by (apply np_sum_nonneg; intros i v Hv; apply (H (S i) v Hv)).
  unfold np_sum in *. cbn. lra.
Qed.

Lemma np_diff_lookup (x : list R) (i : nat) (d : R) :
  np_diff x !! i = Some d <->
  exists a b : R, x !! i = Some a /\ x !! S i = Some b /\ d = b - a.
Proof.
  unfold np_diff. rewrite lookup_zip_with_Some. setoid_rewrite lookup_tail.
  split; intros (a & b & H); exists a, b; tauto.
Qed.

(** On an evenly spaced increasing grid the trapezoid sum of non-negative
    samples that start with a positive one is positive. *)
Lemma np_trapz_pos (y x : list R) (h y0 y1 : R) :
  0 < h ->
  (forall (i : nat) (a b : R),
     x !! i = Some a -> x !! S i = Some b -> b - a = h) ->
  (forall (i : nat) (v : R), y !! i = Some v -> 0 <= v) ->
  y !! 0%nat = Some y0 -> y !! 1%nat = Some y1 -> 0 < y0 ->
  (2 <= length x)%nat ->
  0 < np_trapz y x.
Proof.
  intros Hh Hx Hy Hy0 Hy1 Hpos Hlen. unfold np_trapz.
  destruct (lookup_lt_is_Some_2 x 0) as [a Ha]; [lia |].
  destruct (lookup_lt_is_Some_2 x 1) as [b Hb]; [lia |].
  apply np_sum_pos with (v0 := (b - a) * (y1 + y0) / 2.0).
  - intros i v Hv.
    apply lookup_zip_with_Some in Hv as (d & s & -> & Hd & Hs).
    apply np_diff_lookup in Hd as (a' & b' & Ha' & Hb' & ->).
    apply lookup_zip_with_Some in Hs as (u & w & -> & Hu & Hw).
    rewrite lookup_tail in Hu.
    rewrite (Hx i a' b' Ha' Hb').
    pose proof (Hy _ _ Hu). pose proof (Hy _ _ Hw).
    apply Rmult_le_pos; [| lra]. apply Rmult_le_pos; lra.
  - apply lookup_zip_with_Some. exists (b - a), (y1 + y0).
    split; [done |]. split.
    + apply np_diff_lookup. eauto.
    + apply lookup_zip_with_Some. exists y1, y0.
      rewrite lookup_tail. auto.
  - rewrite (Hx 0%nat a b Ha Hb).
    pose proof (Hy _ _ Hy1).
    apply Rmult_lt_0_compat; [| lra]. apply Rmult_lt_0_compat; lra.
Qed.

Lemma time_grid_lookup (p : sim_params) (fr : frame) (i : nat) (ti : R) :
  simulate_cycle_frame p = Ok fr ->
  fr_t fr !! i = Some ti -> ti = 0.0 + INR i * dt p.
Proof.
  intros Hfr.
  destruct (simulate_cycle_frame_inv p fr Hfr) as (_ & _ & Ht & _).
  rewrite Ht, list_lookup_fmap. intros Hi.
  destruct (seq 0 (nsamples p) !! i) as [k |] eqn:Hk; [| done].
  apply lookup_seq in Hk as [-> _]. cbn in Hi. by injection Hi as <-.
Qed.

Lemma time_grid_spacing (p : sim_params) (fr : frame) (i : nat) (a b : R) :
  simulate_cycle_frame p = Ok fr ->
  fr_t fr !! i = Some a -> fr_t fr !! S i = Some b -> b - a = dt p.
Proof.
  intros Hfr Ha Hb.
  rewrite (time_grid_lookup p fr i a Hfr Ha),
          (time_grid_lookup p fr (S i) b Hfr Hb), S_INR.
  lra.
Qed.

(** The scenario of the specification: with the default parameters the run
    returns, every trace has 6667 samples, and the raw impulse is strictly
    positive. *)
Theorem default_scenario :
  exists r : cycle_result,
    simulate_cycle default_params = Ok r
    /\ length (r_t r) = Z.to_nat 6667
    /\ length (r_x r) = Z.to_nat 6667
    /\ length (r_xdot r) = Z.to_nat 6667
    /\ length (r_z r) = Z.to_nat 6667
    /\ length (r_p r) = Z.to_nat 6667
    /\ length (r_dV r) = Z.to_nat 6667
    /\ 0 < r_impulse_raw r.
Proof.
  destruct (simulate_cycle_returns _ returns_default) as (fr & Hfr & Hr).
  exists (returned default_params fr). split; [exact Hr |].
  destruct (simulate_cycle_frame_inv _ fr Hfr)
    as (_ & _ & Ht & _ & _ & Hz & _ & _ & _ & _ & _ & Himp & _).
  destruct (simulate_cycle_frame_inv_traces _ fr Hfr)
    as (Hx & Hxd & _ & Hp & HdV).
  destruct (nsamples_default_grid default_params) as [Hn _]; [cbn; lra .. |].
  assert (Hlt : length (fr_t fr) = Z.to_nat 6667)
    by (by rewrite Ht, length_map, length_seq).
  assert (Hlx : length (fr_x fr) = Z.to_nat 6667)
    by (by rewrite Hx, length_map).
  assert (Hlz : length (fr_z fr) = Z.to_nat 6667)
    by (by rewrite Hz, hysteretic_state_length).
  cbn [returned r_t r_x r_xdot r_z r_p r_dV r_impulse_raw].
  split; [exact Hlt |]. split; [exact Hlx |].
  split; [by rewrite Hxd, length_map |]. split; [exact Hlz |].
  split; [rewrite Hp, length_zip_with; lia |].
  split; [by rewrite HdV, length_map |].
  rewrite Himp.
  assert (HD : D default_params <> 0) by (cbn; lra).
  assert (Hrho : 0 <= rho default_params) by (cbn; lra).
  destruct (length_thrust _ fr Hfr) as (Hl1 & _ & Hl3).
  pose proof (first_sample _ fr Hfr) as Hxd0.
  destruct (thrust_sample _ fr 0 _ Hfr Hxd0) as [_ Hth0].
  destruct (lookup_lt_is_Some_2 (fr_thrust_inst fr) 1) as [y1 Hy1]; [lia |].
  eapply (np_trapz_pos _ _ (dt default_params)).
  - cbn [dt default_params]. lra.
  - intros i a b. apply (time_grid_spacing _ fr i a b Hfr).
  - intros i v Hv.
    destruct (lookup_lt_is_Some_2 (fr_xdot fr) i) as [xd Hxdi].
    { apply lookup_lt_Some in Hv. lia. }
    destruct (thrust_sample_nonneg _ fr i xd Hfr HD Hrho Hxdi)
      as (th & Hth & Hge).
    rewrite Hv in Hth. by apply (inj Some) in Hth as ->.
  - exact Hth0.
  - exact Hy1.
  - pose proof (orifice_area_pos _ HD) as HA.
    set (A0 := orifice_area default_params) in *.
    cbn [f stroke_ratio D rho default_params].
    pose proof PI_RGT_0 as Hpi.
    set (xd := 2 * PI * 150.0 * (4.0 * 0.010 / 2.0)).
    assert (Hx0 : xd > 0) by (unfold xd; lra).
    rewrite bool_decide_eq_true_2 by exact Hx0.
    unfold b2r.
    assert (Hq : 0 < xd / A0) by (apply Rdiv_lt_0_compat; lra).
    assert (Hsq : 0 < (0.8 * (xd / A0 * 1)) ^ 2) by (apply pow2_gt_0; lra).
    nra.
  - lia.
Qed.

(** ** Sweep and calibration *)


(** A start outside the box is refused by the solver, and so by
    [fit_sigma_kH], before any residual is evaluated. *)
Theorem fit_refuses_infeasible_start
    (trf : (R * R -> result (list (option R))) -> R * R -> R * R -> R * R
           -> (R * R) * Z)
    (bench_S bench_tauR bench_impulse : list R) (tau0 : R) (init : R * R) :
  ~ in_bounds init (0.2, 0.0) (5.0, 2.0) ->
  fit_sigma_kH trf bench_S bench_tauR bench_impulse tau0 init
  = Raise ValueError.
Proof.
  intros Hout. unfold fit_sigma_kH, least_squares.
  by rewrite decide_False by exact Hout.
Qed.

Lemma fit_refuses_infeasible_start_low_sigma :
  ~ in_bounds infeasible_start (0.2, 0.0) (5.0, 2.0)
  /\ fit_sigma_kH (trf_ends_at (1.0, 0.6) 1) [4.0] [0.0] [0.0] 0.5
       infeasible_start
     = Raise ValueError.
Proof.
  assert (H : ~ in_bounds infeasible_start (0.2, 0.0) (5.0, 2.0))
    by (unfold in_bounds, infeasible_start; cbn; lra).
  split; [exact H |].
  exact (fit_refuses_infeasible_start (trf_ends_at (1.0, 0.6) 1)
           [4.0] [0.0] [0.0] 0.5 infeasible_start H).
Defined.

(** * Outcomes of a run *)

Lemma returns_six_samples (p : sim_params) :
  returns p <->
  (0 <= seed p)%Z /\ f p <> 0 /\ dt p <> 0 /\ (6 <= nsamples p)%nat
  /\ tau_R p <> -0.5.
Proof.
  unfold returns, idx0_of. rewrite final_stretch_two_iff.
  split; intros (H1 & H2 & H3 & H4 & H5); repeat split; try assumption; lra.
Qed.

Lemma raises_on_negative_seed (p : sim_params) :
  (seed p < 0)%Z -> simulate_cycle p = Raise ValueError.
Proof.
  intros Hs. run_to_decision.
  by rewrite (decide_True (P := (seed p < 0)%Z)).
Qed.

Lemma raises_on_gain_pole (p : sim_params) :
  (0 <= seed p)%Z -> f p <> 0 -> dt p <> 0 -> (6 <= nsamples p)%nat ->
  tau_R p = -0.5 -> simulate_cycle p = Raise ZeroDivisionError.
Proof.
  intros Hs Hf Hdt Hn Ht. run_to_decision.
  rewrite (decide_False (P := (seed p < 0)%Z)) by lia.
  cbn [mbind mret result_bind result_ret].
  rewrite (decide_False (P := f p = 0)) by assumption.
  cbn [mbind mret result_bind result_ret].
  rewrite (decide_False (P := dt p = 0)) by assumption.
  cbn [mbind mret result_bind result_ret].
  rewrite (decide_False (P := 0.5 * (1.0 / f p) = 0))
    by (by apply half_period_nonzero).
  cbn [mbind mret result_bind result_ret].
  rewrite (decide_False (P := py_max 1e-12 (cavity_C p) = 0))
    by apply stiffness_denominator_nonzero.
  cbn [mbind mret result_bind result_ret].
  rewrite length_final_stretch.
  rewrite (decide_False (P := (nsamples p - idx0_of p < 2)%nat)).
  2:{ apply final_stretch_two_iff in Hn. unfold idx0_of. lia. }
  cbn [mbind mret result_bind result_ret].
  rewrite (decide_True (P := tau_R p + 0.5 = 0)) by lra.
  reflexivity.
Qed.

(** The outcome of a call, in the order the failures are reached: a
    negative seed, a zero frequency, a zero time step, a time grid of at
    most five samples (the duration over the time step at most 5 - 1e-9),
    and, on a grid of at least six samples (that quotient at least
    5 + 1e-9), the return-time constant -0.5, at which the gain divides by
    zero after all traces were computed.  Every other call on such a grid
    returns. *)
Theorem simulate_cycle_outcome (p : sim_params) :
  ((seed p < 0)%Z -> simulate_cycle p = Raise ValueError)
  /\ ((0 <= seed p)%Z -> f p = 0 ->
      simulate_cycle p = Raise ZeroDivisionError)
  /\ ((0 <= seed p)%Z -> f p <> 0 -> dt p = 0 ->
      simulate_cycle p = Raise ZeroDivisionError)
  /\ ((0 <= seed p)%Z -> f p <> 0 -> dt p <> 0 ->
      (duration_cycles p * (1.0 / f p) - 0.0) / dt p <= 5 - 1e-9 ->
      simulate_cycle p = Raise IndexError)
  /\ ((0 <= seed p)%Z -> f p <> 0 -> dt p <> 0 ->
      5 + 1e-9 <= (duration_cycles p * (1.0 / f p) - 0.0) / dt p ->
      tau_R p = -0.5 -> simulate_cycle p = Raise ZeroDivisionError)
  /\ ((0 <= seed p)%Z -> f p <> 0 -> dt p <> 0 ->
      5 + 1e-9 <= (duration_cycles p * (1.0 / f p) - 0.0) / dt p ->
      tau_R p <> -0.5 -> exists r, simulate_cycle p = Ok r).
Proof.
  split; [apply raises_on_negative_seed |].
  split; [apply raises_on_zero_frequency |].
  split; [apply raises_on_zero_step |].
  split; [| split].
  - intros Hs Hf Hdt Hx. apply raises_on_short_grid; try assumption.
    by apply short_grid_has_short_stretch, nsamples_at_most_five.
  - intros Hs Hf Hdt Hx. apply raises_on_gain_pole; try assumption.
    by apply nsamples_at_least_six.
  - intros Hs Hf Hdt Hx Ht.
    assert (Hret : returns p).
    { apply returns_six_samples. repeat split; try assumption.
      by apply nsamples_at_least_six. }
    destruct (simulate_cycle_returns p Hret) as (fr & _ & Hr). eauto.
Qed.

Lemma simulate_cycle_outcome_short_run :
  (0 <= seed short_run_params)%Z
  /\ f short_run_params <> 0 /\ dt short_run_params <> 0
  /\ (duration_cycles short_run_params * (1.0 / f short_run_params) - 0.0)
     / dt short_run_params <= 5 - 1e-9
  /\ simulate_cycle short_run_params = Raise IndexError.
Proof.
  assert (Hs : (0 <= seed short_run_params)%Z) by (cbn; lia).
  assert (Hf : f short_run_params <> 0) by (cbn; lra).
  assert (Hdt : dt short_run_params <> 0) by (cbn; lra).
  assert (Hx : (duration_cycles short_run_params
                * (1.0 / f short_run_params) - 0.0)
               / dt short_run_params <= 5 - 1e-9).
  { cbn [duration_cycles f dt short_run_params].
    replace ((3 * (1.0 / 10.0) - 0.0) / 0.1) with 3 by lra. lra. }
  repeat (split; [assumption |]).
  exact (proj1 (proj2 (proj2 (proj2 (simulate_cycle_outcome short_run_params))))
           Hs Hf Hdt Hx).
Defined.

(** * Flooring of the return time and the compliance *)

Lemma simulate_cycle_frame_inv_loop (p : sim_params) (fr : frame) :
  simulate_cycle_frame p = Ok fr ->
  fr_idx0 fr = idx0_of p
  /\ exists grad : list R,
       np_gradient (drop (fr_idx0 fr) (fr_dV fr)) (drop (fr_idx0 fr) (fr_t fr))
       = Ok grad
       /\ fr_A_loop fr
          = np_trapz (zip_with Rmult (drop (fr_idx0 fr) (fr_p fr)) grad)
              (drop (fr_idx0 fr) (fr_t fr)).
Proof.
  intros H.
  unfold simulate_cycle_frame, default_rng, py_hysteresis_gain, py_truediv,
    np_arange in H.
  repeat (case_decide; cbn [mbind mret result_bind result_ret] in H;
          try discriminate H).
  all: match type of H with
       | context [np_gradient ?a ?b] =>
           destruct (np_gradient a b) as [g |] eqn:Hg
       end; cbn [mbind mret result_bind result_ret] in H;
       try discriminate H.
  injection H as <-. cbn [fr_idx0 fr_dV fr_t fr_A_loop fr_p].
  split.
  - unfold idx0_of, nsamples. by rewrite length_map, length_seq.
  - exists g. split; [exact Hg | reflexivity].
Qed.

Lemma py_max_idem (a b : R) : py_max a (py_max a b) = py_max a b.
Proof. unfold py_max. repeat case_decide; lra. Qed.

(** The hysteresis loop reads [tau_R] only through [max(1e-9, tau_R)]. *)
Lemma hysteretic_state_floored (p : sim_params) (t xdot : list R) :
  hysteretic_state (floored p) t xdot = hysteretic_state p t xdot.
Proof.
  unfold hysteretic_state. apply foldl_ext_all. intros z i.
  unfold bouc_wen_step. cbn [floored A_bw beta gamma n dt tau_R].
  by rewrite py_max_idem.
Qed.

Lemma returns_floored (p : sim_params) : returns p -> returns (floored p).
Proof.
  unfold returns, idx0_of, nsamples.
  cbn [floored seed f dt duration_cycles tau_R].
  intros (H1 & H2 & H3 & H4 & _). repeat split; try assumption.
  pose proof (py_max_pos 1e-9 (tau_R p)). lra.
Qed.

(** Flooring is all the simulator does with a return time at or below
    1e-9 and a compliance at or below 1e-12: a run that returns and the
    run on the floored parameters have the same traces, loop area and raw
    impulse. *)
Theorem flooring_is_all_that_happens (p : sim_params) :
  returns p ->
  exists r r' : cycle_result,
    simulate_cycle p = Ok r
    /\ simulate_cycle (floored p) = Ok r'
    /\ r_t r' = r_t r /\ r_x r' = r_x r /\ r_xdot r' = r_xdot r
    /\ r_z r' = r_z r /\ r_p r' = r_p r /\ r_dV r' = r_dV r
    /\ r_A_loop r' = r_A_loop r
    /\ r_impulse_raw r' = r_impulse_raw r.
Proof.
  intros Hret.
  destruct (simulate_cycle_returns p Hret) as (fr & Hfr & Hr).
  destruct (simulate_cycle_returns _ (returns_floored p Hret))
    as (fr' & Hfr' & Hr').
  exists (returned p fr), (returned (floored p) fr').
  split; [exact Hr |]. split; [exact Hr' |].
  destruct (simulate_cycle_frame_inv p fr Hfr)
    as (_ & _ & Ht & _ & _ & Hz & HA & Hout & Hu & Hue & Hth & Himp & _).
  destruct (simulate_cycle_frame_inv _ fr' Hfr')
    as (_ & _ & Ht' & _ & _ & Hz' & HA' & Hout' & Hu' & Hue' & Hth' & Himp' & _).
  destruct (simulate_cycle_frame_inv_traces p fr Hfr)
    as (Hx & Hxd & Hk & Hp & HdV).
  destruct (simulate_cycle_frame_inv_traces _ fr' Hfr')
    as (Hx' & Hxd' & Hk' & Hp' & HdV').
  destruct (simulate_cycle_frame_inv_loop p fr Hfr)
    as (Hi & g & Hg & Hloop).
  destruct (simulate_cycle_frame_inv_loop _ fr' Hfr')
    as (Hi' & g' & Hg' & Hloop').
  assert (Et : fr_t fr' = fr_t fr) by (by rewrite Ht, Ht').
  assert (Ex : fr_x fr' = fr_x fr) by (by rewrite Hx, Hx', Et).
  assert (Exd : fr_xdot fr' = fr_xdot fr) by (by rewrite Hxd, Hxd', Et).
  assert (Ez : fr_z fr' = fr_z fr)
    by (by rewrite Hz, Hz', Et, Exd, hysteretic_state_floored).
  assert (Ek : fr_k1 fr' = fr_k1 fr).
  { rewrite Hk, Hk'. cbn [floored cavity_C]. by rewrite py_max_idem. }
  assert (Ep : fr_p fr' = fr_p fr) by (by rewrite Hp, Hp', Ek, Ex, Ez).
  assert (EdV : fr_dV fr' = fr_dV fr) by (by rewrite HdV, HdV', Ex).
  assert (Ei : fr_idx0 fr' = fr_idx0 fr) by (by rewrite Hi, Hi').
  assert (EA : fr_A0 fr' = fr_A0 fr) by (by rewrite HA, HA').
  assert (Eout : fr_out fr' = fr_out fr) by (by rewrite Hout, Hout', Exd).
  assert (Eu : fr_u fr' = fr_u fr) by (by rewrite Hu, Hu', EA, Exd, Eout).
  assert (Eue : fr_u_exit fr' = fr_u_exit fr) by (by rewrite Hue, Hue', Eu).
  assert (Eth : fr_thrust_inst fr' = fr_thrust_inst fr)
    by (by rewrite Hth, Hth', EA, Eue, Eout).
  cbn [returned r_t r_x r_xdot r_z r_p r_dV r_A_loop r_impulse_raw].
  repeat split; try assumption.
  - rewrite EdV, Ei, Et, Hg in Hg'. injection Hg' as <-.
    by rewrite Hloop, Hloop', Ep, Ei, Et.
  - by rewrite Himp, Himp', Eth, Et.
Qed.

Lemma returns_below_floor : returns below_floor_params.
Proof. apply returns_default_grid; cbn; (lia || lra). Qed.

Lemma flooring_is_all_that_happens_below_floor :
  returns below_floor_params
  /\ tau_R below_floor_params < tau_R (floored below_floor_params)
  /\ cavity_C below_floor_params < cavity_C (floored below_floor_params)
  /\ exists r r' : cycle_result,
       simulate_cycle below_floor_params = Ok r
       /\ simulate_cycle (floored below_floor_params) = Ok r'
       /\ r_z r' = r_z r /\ r_p r' = r_p r
       /\ r_A_loop r' = r_A_loop r.
Proof.
  split; [exact returns_below_floor |].
  split; [cbn [floored tau_R below_floor_params]; unfold py_max;
          case_decide; lra |].
  split; [cbn [floored cavity_C below_floor_params]; unfold py_max;
          case_decide; lra |].
  destruct (flooring_is_all_that_happens below_floor_params
              returns_below_floor)
    as (r & r' & Hr & Hr' & _ & _ & _ & Hz & Hp & _ & HA & _).
  exists r, r'. auto.
Defined.

(** * The time grid *)

(** With a positive time step the grid is [0, dt, 2*dt, ...]: it starts at
    0, every sample lies strictly before the end of the run,
    duration_cycles / f, and one more step would reach or pass that end. *)
Theorem time_grid_half_open (p : sim_params) :
  returns p -> 0 < dt p ->
  exists r : cycle_result,
    simulate_cycle p = Ok r
    /\ length (r_t r) = nsamples p
    /\ (forall (i : nat) (ti : R), r_t r !! i = Some ti ->
          ti = INR i * dt p
          /\ 0 <= ti < duration_cycles p * (1.0 / f p))
    /\ duration_cycles p * (1.0 / f p) <= INR (nsamples p) * dt p.
Proof.
  intros Hret Hdt.
  destruct (simulate_cycle_returns p Hret) as (fr & Hfr & Hr).
  exists (returned p fr). split; [exact Hr |].
  destruct (simulate_cycle_frame_inv p fr Hfr) as (_ & _ & Ht & _).
  cbn [returned r_t].
  set (dur := duration_cycles p * (1.0 / f p)).
  pose proof (Zceil_bound ((dur - 0.0) / dt p)) as [Hlo Hhi].
  assert (Hx : (dur - 0.0) / dt p * dt p = dur).
  { unfold Rdiv. rewrite Rmult_assoc, Rinv_l by lra. lra. }
  assert (Hn : nsamples p = Z.to_nat (Zceil ((dur - 0.0) / dt p)))
    by reflexivity.
  split; [by rewrite Ht, length_map, length_seq |]. split.
  - intros i ti Hi.
    assert (Hlt : (i < nsamples p)%nat).
    { apply lookup_lt_Some in Hi.
      by rewrite Ht, length_map, length_seq in Hi. }
    rewrite (time_grid_lookup p fr i ti Hfr Hi).
    split; [lra |]. pose proof (pos_INR i) as Hpos.
    split; [nra |].
    assert (Hi' : (Z.of_nat i + 1 <= Zceil ((dur - 0.0) / dt p))%Z) by lia.
    apply IZR_le in Hi'. rewrite plus_IZR, <- INR_IZR_nat in Hi'.
    assert (Hq : INR i < (dur - 0.0) / dt p) by lra.
    assert (INR i * dt p < (dur - 0.0) / dt p * dt p)
      by (apply Rmult_lt_compat_r; assumption).
    lra.
  - rewrite Hn, INR_IZR_nat.
    destruct (Z_le_gt_dec 0 (Zceil ((dur - 0.0) / dt p))) as [Hz | Hz].
    + rewrite Z2Nat.id by exact Hz.
      assert ((dur - 0.0) / dt p * dt p
              <= IZR (Zceil ((dur - 0.0) / dt p)) * dt p)
        by (apply Rmult_le_compat_r; lra).
      lra.
    + destruct Hret as (_ & _ & _ & H2 & _). lia.
Qed.

Lemma time_grid_half_open_default :
  returns default_params /\ 0 < dt default_params
  /\ exists r : cycle_result,
       simulate_cycle default_params = Ok r
       /\ length (r_t r) = nsamples default_params.
Proof.
  assert (Hdt : 0 < dt default_params) by (cbn [dt default_params]; lra).
  split; [exact returns_default |]. split; [exact Hdt |].
  destruct (time_grid_half_open default_params returns_default Hdt)
    as (r & Hr & Hlen & _).
  exists r. auto.
Defined.

(** * Thrust and impulse *)

Lemma np_trapz_nonneg (y x : list R) (h : R) :
  0 < h ->
  (forall (i : nat) (a b : R),
     x !! i = Some a -> x !! S i = Some b -> b - a = h) ->
  (forall (i : nat) (v : R), y !! i = Some v -> 0 <= v) ->
  0 <= np_trapz y x.
Proof.
  intros Hh Hx Hy. unfold np_trapz. apply np_sum_nonneg.
  intros i v Hv.
  apply lookup_zip_with_Some in Hv as (d & s & -> & Hd & Hs).
  apply np_diff_lookup in Hd as (a' & b' & Ha' & Hb' & ->).
  apply lookup_zip_with_Some in Hs as (u & w & -> & Hu & Hw).
  rewrite lookup_tail in Hu.
  rewrite (Hx i a' b' Ha' Hb').
  pose proof (Hy _ _ Hu). pose proof (Hy _ _ Hw).
  apply Rmult_le_pos; [| lra]. apply Rmult_le_pos; lra.
Qed.

Lemma thrust_trace_nonneg (p : sim_params) (fr : frame) :
  simulate_cycle_frame p = Ok fr -> D p <> 0 -> 0 <= rho p ->
  forall (i : nat) (v : R), fr_thrust_inst fr !! i = Some v -> 0 <= v.
Proof.
  intros Hfr HD Hrho i v Hv.
  destruct (length_thrust p fr Hfr) as (Hl1 & _ & Hl3).
  destruct (lookup_lt_is_Some_2 (fr_xdot fr) i) as [xd Hxd].
  { apply lookup_lt_Some in Hv. lia. }
  destruct (thrust_sample_nonneg p fr i xd Hfr HD Hrho Hxd)
    as (th & Hth & Hge).
  rewrite Hv in Hth. by apply (inj Some) in Hth as ->.
Qed.

(** On the outstroke the exit velocity is 0.8 * xdot / A0 and the thrust is
    the quadratic 0.64 * rho * xdot^2 / A0, with A0 = pi * (D/2)^2. *)
Theorem outstroke_thrust_is_quadratic (p : sim_params) :
  returns p -> D p <> 0 ->
  exists fr : frame,
    simulate_cycle_frame p = Ok fr
    /\ forall (i : nat) (xd : R),
         fr_xdot fr !! i = Some xd -> xd > 0 ->
         fr_u_exit fr !! i = Some (0.8 * xd / orifice_area p)
         /\ fr_thrust_inst fr !! i
            = Some (0.64 * rho p * xd ^ 2 / orifice_area p).
Proof.
  intros Hret HD.
  destruct (simulate_cycle_frame_returns p Hret) as [fr Hfr].
  exists fr. split; [exact Hfr |]. intros i xd Hxd Hpos.
  destruct (thrust_sample p fr i xd Hfr Hxd) as [Hue Hth].
  pose proof (orifice_area_pos p HD) as HA.
  rewrite Hue, Hth, bool_decide_eq_true_2 by exact Hpos.
  unfold b2r. set (A0 := orifice_area p) in *.
  assert (HAi : A0 * / A0 = 1) by (apply Rinv_r; lra).
  set (t := xd / A0).
  assert (Ht : A0 * t = xd).
  { unfold t, Rdiv. rewrite (Rmult_comm xd), <- Rmult_assoc, HAi. lra. }
  split; apply f_equal.
  - unfold t, Rdiv. lra.
  - replace (0.64 * rho p * xd ^ 2 / A0) with (0.64 * rho p * xd * t)
      by (unfold t, Rdiv; lra).
    rewrite <- Ht. lra.
Qed.

Lemma outstroke_thrust_is_quadratic_default :
  returns default_params /\ D default_params <> 0
  /\ exists fr : frame,
       simulate_cycle_frame default_params = Ok fr
       /\ forall (i : nat) (xd : R),
            fr_xdot fr !! i = Some xd -> xd > 0 ->
            fr_u_exit fr !! i
            = Some (0.8 * xd / orifice_area default_params).
Proof.
  assert (HD : D default_params <> 0) by (cbn; lra).
  split; [exact returns_default |]. split; [exact HD |].
  destruct (outstroke_thrust_is_quadratic default_params returns_default HD)
    as (fr & Hfr & H).
  exists fr. split; [exact Hfr |]. intros i xd Hxd Hpos.
  apply (H i xd Hxd Hpos).
Defined.

(** With a positive time step, a non-negative density, a diameter other
    than zero and a non-negative return time, the raw impulse is
    non-negative and the effective impulse lies between 0 and 1.6 times
    the raw impulse. *)
Theorem effective_impulse_bounds (p : sim_params) :
  returns p -> 0 < dt p -> 0 <= rho p -> D p <> 0 -> 0 <= tau_R p ->
  exists r : cycle_result,
    simulate_cycle p = Ok r
    /\ 0 <= r_impulse_raw r
    /\ 0 <= r_impulse r <= 1.6 * r_impulse_raw r.
Proof.
  intros Hret Hdt Hrho HD Htau.
  destruct (simulate_cycle_returns p Hret) as (fr & Hfr & Hr).
  exists (returned p fr). split; [exact Hr |].
  destruct (simulate_cycle_frame_inv p fr Hfr)
    as (_ & _ & _ & _ & _ & _ & _ & _ & _ & _ & _ & Himp & Heff & HG & Hie).
  cbn [returned r_impulse_raw r_impulse].
  assert (Hraw : 0 <= fr_impulse fr).
  { rewrite Himp. apply (np_trapz_nonneg _ _ (dt p) Hdt).
    - intros i a b. apply (time_grid_spacing p fr i a b Hfr).
    - apply (thrust_trace_nonneg p fr Hfr HD Hrho). }
  split; [exact Hraw |].
  assert (He : 0 < fr_eff fr <= 1).
  { rewrite Heff. unfold formation_envelope. split; [apply exp_pos |].
    apply exp_le_1. pose proof (pow2_ge_0 ((stroke_ratio p - 4.0) / 1.0)).
    lra. }
  assert (Hg : 1 <= fr_G fr < 1.6).
  { rewrite HG. unfold hysteresis_gain.
    destruct (saturation_range (tau_R p) 0.5) as [? ?]; lra. }
  rewrite Hie. split.
  - apply Rmult_le_pos; [apply Rmult_le_pos |]; lra.
  - assert (fr_impulse fr * fr_eff fr <= fr_impulse fr) by nra.
    assert (0 <= fr_impulse fr * fr_eff fr) by nra.
    nra.
Qed.

Lemma effective_impulse_bounds_default :
  returns default_params /\ 0 < dt default_params
  /\ 0 <= rho default_params /\ D default_params <> 0
  /\ 0 <= tau_R default_params
  /\ exists r : cycle_result,
       simulate_cycle default_params = Ok r
       /\ 0 <= r_impulse r <= 1.6 * r_impulse_raw r.
Proof.
  assert (H1 : 0 < dt default_params) by (cbn [dt default_params]; lra).
  assert (H2 : 0 <= rho default_params) by (cbn; lra).
  assert (H3 : D default_params <> 0) by (cbn; lra).
  assert (H4 : 0 <= tau_R default_params) by (cbn; lra).
  repeat (split; [assumption || exact returns_default |]).
  destruct (effective_impulse_bounds default_params returns_default H1 H2 H3 H4)
    as (r & Hr & _ & Hb).
  exists r. auto.
Defined.

(** Within four stroke ratios of the peak the envelope keeps at least
    1/6561 of the raw impulse. *)
Lemma formation_envelope_floor (S : R) :
  Rabs (S - 4.0) <= 4 -> 1.5e-4 <= formation_envelope S 1.0 4.0.
Proof.
  intros HS. unfold formation_envelope.
  assert (Hsq : ((S - 4.0) / 1.0) ^ 2 <= 16).
  { assert (- 4 <= S - 4.0 <= 4)
      by (unfold Rabs in HS; destruct (Rcase_abs (S - 4.0)); lra).
    replace ((S - 4.0) / 1.0) with (S - 4.0) by lra. nra. }
  assert (Hle : exp (- 8) <= exp (- 0.5 * ((S - 4.0) / 1.0) ^ 2)).
  { destruct (Req_dec (- 8) (- 0.5 * ((S - 4.0) / 1.0) ^ 2)) as [<- | Hne];
      [lra |].
    left. apply exp_increasing. lra. }
  assert (H8 : exp (- 8) * exp 8 = 1)
    by (rewrite <- exp_plus; replace (- 8 + 8) with 0 by lra; apply exp_0).
  pose proof exp_8_le. pose proof (exp_pos (- 8)). pose proof (exp_pos 8).
  assert (1.5e-4 <= exp (- 8)) by nra.
  lra.
Qed.

(** A run that starts on the outstroke (f * stroke_ratio * D > 0) with a
    positive time step and density delivers a strictly positive raw
    impulse; with a stroke ratio from 0 to 8 and a return time that is not
    negative, the effective impulse keeps at least 1.5e-4 of it. *)
Theorem raw_impulse_positive (p : sim_params) :
  returns p -> 0 < dt p -> 0 < rho p -> D p <> 0 ->
  0 < f p * stroke_ratio p * D p ->
  exists r : cycle_result,
    simulate_cycle p = Ok r
    /\ 0 < r_impulse_raw r
    /\ (0 <= tau_R p -> Rabs (stroke_ratio p - 4.0) <= 4 ->
        1.5e-4 * r_impulse_raw r <= r_impulse r).
Proof.
  intros Hret Hdt Hrho HD Hdrive.
  destruct (simulate_cycle_returns p Hret) as (fr & Hfr & Hr).
  exists (returned p fr). split; [exact Hr |].
  destruct (simulate_cycle_frame_inv p fr Hfr)
    as (Hrun & _ & Ht & _ & _ & _ & _ & _ & _ & _ & _ & Himp & Heff & HG & Hie).
  cbn [returned r_impulse_raw r_impulse].
  assert (Hlen : length (fr_t fr) = nsamples p)
    by (by rewrite Ht, length_map, length_seq).
  destruct Hrun as (_ & _ & _ & Hn & _).
  destruct (length_thrust p fr Hfr) as (Hl1 & _ & Hl3).
  pose proof (first_sample p fr Hfr) as Hxd0.
  destruct (thrust_sample p fr 0 _ Hfr Hxd0) as [_ Hth0].
  destruct (lookup_lt_is_Some_2 (fr_thrust_inst fr) 1) as [y1 Hy1]; [lia |].
  assert (Hraw : 0 < fr_impulse fr).
  { rewrite Himp. eapply (np_trapz_pos _ _ (dt p)).
    - exact Hdt.
    - intros i a b. apply (time_grid_spacing p fr i a b Hfr).
    - apply (thrust_trace_nonneg p fr Hfr HD); lra.
    - exact Hth0.
    - exact Hy1.
    - pose proof (orifice_area_pos p HD) as HA.
      set (A0 := orifice_area p) in *.
      pose proof PI_RGT_0 as Hpi.
      set (xd := 2 * PI * f p * (stroke_ratio p * D p / 2.0)).
      assert (Hx0 : xd > 0).
      { unfold xd.
        replace (2 * PI * f p * (stroke_ratio p * D p / 2.0))
          with (PI * (f p * stroke_ratio p * D p)) by lra.
        apply Rmult_lt_0_compat; assumption. }
      rewrite bool_decide_eq_true_2 by exact Hx0.
      unfold b2r.
      assert (Hq : 0 < xd / A0) by (apply Rdiv_lt_0_compat; lra).
      assert (Hsq : 0 < (0.8 * (xd / A0 * 1)) ^ 2)
        by (apply pow2_gt_0; lra).
      assert (0 < 1.0 * rho p * A0) by nra.
      nra.
    - lia. }
  split; [exact Hraw |]. intros Htau HS.
  assert (He : 1.5e-4 <= fr_eff fr)
    by (rewrite Heff; by apply formation_envelope_floor).
  assert (Hg : 1 <= fr_G fr).
  { rewrite HG. unfold hysteresis_gain.
    destruct (saturation_range (tau_R p) 0.5) as [? ?]; lra. }
  rewrite Hie.
  assert (1.5e-4 * fr_impulse fr <= fr_impulse fr * fr_eff fr) by nra.
  assert (0 <= fr_impulse fr * fr_eff fr) by nra.
  nra.
Qed.

Lemma raw_impulse_positive_default :
  returns default_params /\ 0 < dt default_params
  /\ 0 < rho default_params /\ D default_params <> 0
  /\ 0 < f default_params * stroke_ratio default_params * D default_params
  /\ exists r : cycle_result,
       simulate_cycle default_params = Ok r /\ 0 < r_impulse_raw r
       /\ 1.5e-4 * r_impulse_raw r <= r_impulse r.
Proof.
  assert (H1 : 0 < dt default_params) by (cbn [dt default_params]; lra).
  assert (H2 : 0 < rho default_params) by (cbn; lra).
  assert (H3 : D default_params <> 0) by (cbn; lra).
  assert (H4 :
    0 < f default_params * stroke_ratio default_params * D default_params)
    by (cbn; lra).
  repeat (split; [assumption || exact returns_default |]).
  destruct (raw_impulse_positive default_params returns_default H1 H2 H3 H4)
    as (r & Hr & Hpos & Heff).
  exists r. split; [exact Hr |]. split; [exact Hpos |].
  apply Heff; cbn [tau_R stroke_ratio default_params]; [lra |].
  replace (4.0 - 4.0) with 0 by lra. rewrite Rabs_R0. lra.
Defined.

(** * A drive of zero amplitude *)

Lemma np_sum_zero (l : list R) : Forall (fun v => v = 0) l -> np_sum l = 0.
Proof.
  induction 1 as [| a l Ha _ IH]; [done |].
  unfold np_sum in *. cbn. rewrite Ha, IH. lra.
Qed.

Lemma np_trapz_zero (y x : list R) :
  Forall (fun v => v = 0) y -> np_trapz y x = 0.
Proof.
  intros Hy. unfold np_trapz. apply np_sum_zero.
  apply Forall_lookup. intros i v Hv.
  apply lookup_zip_with_Some in Hv as (d & s & -> & _ & Hs).
  apply lookup_zip_with_Some in Hs as (u & w & -> & Hu & Hw).
  rewrite lookup_tail in Hu.
  rewrite (proj1 (Forall_lookup _ _) Hy _ _ Hu),
          (proj1 (Forall_lookup _ _) Hy _ _ Hw).
  lra.
Qed.

Lemma euler_step_rest (p : sim_params) : euler_step p 0 0 = 0.
Proof.
  unfold euler_step, bouc_wen. rewrite Rabs_R0.
  set (P := np_power 0 (n p - 1)). set (Q := np_power 0 (n p)).
  set (m := py_max 1e-9 (tau_R p)).
  replace (A_bw p * 0 - beta p * 0 * P * 0 - gamma p * 0 * Q) with 0 by ring.
  unfold Rdiv. ring.
Qed.

(** Without drive velocity the hysteretic state never leaves zero. *)
Lemma hysteretic_state_rest (p : sim_params) (t xdot : list R) :
  Forall (fun v => v = 0) xdot -> length xdot = length t ->
  Forall (fun v => v = 0) (hysteretic_state p t xdot).
Proof.
  intros Hx Hlen. apply Forall_lookup. intros i v Hv.
  assert (Hi : (i < length t)%nat).
  { apply lookup_lt_Some in Hv. by rewrite hysteretic_state_length in Hv. }
  apply list_lookup_total_correct in Hv. subst v.
  induction i as [| i IH].
  - apply hysteretic_state_head.
  - rewrite hysteretic_state_step by lia.
    replace (S i - 1)%nat with i by lia.
    rewrite IH by lia.
    assert (Hxi : xdot !!! i = 0).
    { destruct (lookup_lt_is_Some_2 xdot i) as [xd Hxd]; [lia |].
      rewrite (list_lookup_total_correct _ _ _ Hxd).
      apply (proj1 (Forall_lookup _ _) Hx _ _ Hxd). }
    rewrite Hxi. apply euler_step_rest.
Qed.

(** With a stroke ratio of zero (and a diameter other than zero, an
    exponent n >= 1) the actuator stays at rest: displacement, velocity,
    hysteretic state, pressure and volume are zero at every sample, and the
    loop area and both impulses are zero. *)
Theorem zero_stroke_gives_zero_response (p : sim_params) :
  returns p -> stroke_ratio p = 0 -> D p <> 0 -> 1 <= n p ->
  exists r : cycle_result,
    simulate_cycle p = Ok r
    /\ Forall (fun v => v = 0) (r_x r)
    /\ Forall (fun v => v = 0) (r_xdot r)
    /\ Forall (fun v => v = 0) (r_z r)
    /\ Forall (fun v => v = 0) (r_p r)
    /\ Forall (fun v => v = 0) (r_dV r)
    /\ r_A_loop r = 0 /\ r_impulse_raw r = 0 /\ r_impulse r = 0.
Proof.
  intros Hret HS HD Hn.
  destruct (simulate_cycle_returns p Hret) as (fr & Hfr & Hr).
  exists (returned p fr). split; [exact Hr |].
  destruct (simulate_cycle_frame_inv p fr Hfr)
    as (_ & _ & _ & _ & _ & Hz & _ & _ & _ & _ & _ & Himp & _ & _ & Hie).
  destruct (simulate_cycle_frame_inv_traces p fr Hfr)
    as (Hx & Hxd & _ & Hp & HdV).
  destruct (simulate_cycle_frame_inv_loop p fr Hfr) as (_ & g & _ & Hloop).
  cbn [returned r_x r_xdot r_z r_p r_dV r_A_loop r_impulse_raw r_impulse].
  assert (Zx : Forall (fun v => v = 0) (fr_x fr)).
  { rewrite Hx. apply Forall_fmap, Forall_true. intros ti. cbn.
    unfold drive_x. rewrite HS. unfold Rdiv. ring. }
  assert (Zxd : Forall (fun v => v = 0) (fr_xdot fr)).
  { rewrite Hxd. apply Forall_fmap, Forall_true. intros ti. cbn.
    unfold drive_xdot. rewrite HS. unfold Rdiv. ring. }
  assert (Zz : Forall (fun v => v = 0) (fr_z fr)).
  { rewrite Hz. apply hysteretic_state_rest; [exact Zxd |].
    by rewrite Hxd, length_map. }
  assert (Zp : Forall (fun v => v = 0) (fr_p fr)).
  { rewrite Hp. apply Forall_lookup. intros i v Hv.
    apply lookup_zip_with_Some in Hv as (xi & zi & -> & Hxi & Hzi).
    rewrite (proj1 (Forall_lookup _ _) Zx _ _ Hxi),
            (proj1 (Forall_lookup _ _) Zz _ _ Hzi).
    ring. }
  assert (ZdV : Forall (fun v => v = 0) (fr_dV fr)).
  { rewrite HdV. apply Forall_lookup. intros i v Hv.
    rewrite list_lookup_fmap in Hv.
    destruct (fr_x fr !! i) as [xi |] eqn:Hxi; [| done].
    cbn in Hv. injection Hv as <-.
    rewrite (proj1 (Forall_lookup _ _) Zx _ _ Hxi). ring. }
  assert (Zth : Forall (fun v => v = 0) (fr_thrust_inst fr)).
  { apply Forall_lookup. intros i v Hv.
    destruct (length_thrust p fr Hfr) as (Hl1 & _ & Hl3).
    destruct (lookup_lt_is_Some_2 (fr_xdot fr) i) as [xd Hxdi].
    { apply lookup_lt_Some in Hv. lia. }
    destruct (thrust_sample p fr i xd Hfr Hxdi) as [_ Hth].
    rewrite Hv in Hth. apply (inj Some) in Hth. rewrite Hth.
    rewrite (proj1 (Forall_lookup _ _) Zxd _ _ Hxdi).
    rewrite bool_decide_eq_false_2 by lra. unfold b2r. ring. }
  assert (Zraw : fr_impulse fr = 0)
    by (rewrite Himp; by apply np_trapz_zero).
  repeat (split; [assumption |]).
  split; [| split; [exact Zraw |]].
  - rewrite Hloop. apply np_trapz_zero. apply Forall_lookup. intros i v Hv.
    apply lookup_zip_with_Some in Hv as (pi' & gi & -> & Hpi & _).
    rewrite lookup_drop in Hpi.
    rewrite (proj1 (Forall_lookup _ _) Zp _ _ Hpi). ring.
  - rewrite Hie, Zraw. ring.
Qed.

Lemma returns_zero_stroke : returns zero_stroke_params.
Proof. apply returns_default_grid; cbn; (lia || lra). Qed.

Lemma zero_stroke_gives_zero_response_default :
  returns zero_stroke_params /\ stroke_ratio zero_stroke_params = 0
  /\ D zero_stroke_params <> 0 /\ 1 <= n zero_stroke_params
  /\ exists r : cycle_result,
       simulate_cycle zero_stroke_params = Ok r
       /\ Forall (fun v => v = 0) (r_z r) /\ r_impulse r = 0.
Proof.
  assert (H1 : stroke_ratio zero_stroke_params = 0) by reflexivity.
  assert (H2 : D zero_stroke_params <> 0) by (cbn; lra).
  assert (H3 : 1 <= n zero_stroke_params) by (cbn; lra).
  repeat (split; [assumption || exact returns_zero_stroke |]).
  destruct (zero_stroke_gives_zero_response zero_stroke_params
              returns_zero_stroke H1 H2 H3)
    as (r & Hr & _ & _ & Hz & _ & _ & _ & _ & Hi).
  exists r. auto.
Defined.

(** * The sweep and the simulator *)

(** The factor [simulate_cycle] applies to the raw impulse is the impulse
    the sweep tabulates at the run's stroke ratio and return time, for the
    width 1.0 and the gain coefficient 0.6. *)
Theorem simulator_applies_sweep_factor (p : sim_params) :
  returns p ->
  exists (r : cycle_result) (v : R),
    simulate_cycle p = Ok r
    /\ sweep_S_tauR (D p) (f p) (Some [stroke_ratio p]) (Some [tau_R p])
         1.0 0.6 (seed p)
       = Ok [(stroke_ratio p, tau_R p, v)]
    /\ r_impulse r = r_impulse_raw r * v.
Proof.
  intros Hret.
  destruct (simulate_cycle_returns p Hret) as (fr & Hfr & Hr).
  destruct (simulate_cycle_frame_inv p fr Hfr)
    as (_ & _ & _ & _ & _ & _ & _ & _ & _ & _ & _ & _ & Heff & HG & Hie).
  exists (returned p fr), (formation_envelope (stroke_ratio p) 1.0 4.0
                           * hysteresis_gain (tau_R p) 0.5 0.6).
  split; [exact Hr |]. split.
  - rewrite sweep_S_tauR_rows; [reflexivity | lra |].
    apply Forall_cons_2; [| apply Forall_nil_2].
    by destruct Hret as (_ & _ & _ & _ & Hpole).
  - cbn [returned r_impulse r_impulse_raw]. rewrite Hie, Heff, HG. ring.
Qed.

Lemma simulator_applies_sweep_factor_default :
  returns default_params
  /\ exists (r : cycle_result) (v : R),
       simulate_cycle default_params = Ok r
       /\ r_impulse r = r_impulse_raw r * v.
Proof.
  split; [exact returns_default |].
  destruct (simulator_applies_sweep_factor default_params returns_default)
    as (r & v & Hr & _ & Hi).
  exists r, v. auto.
Defined.

(** * The demonstration figure *)

Lemma foldl_append_calls {A B : Type} (g : A -> B) (l : list A) (acc : list B) :
  foldl (fun calls a => calls ++ [g a]) acc l = acc ++ map g l.
Proof.
  revert acc. induction l as [| a l IH]; intros acc; cbn.
  - by rewrite app_nil_r.
  - rewrite IH. by rewrite <- app_assoc.
Qed.

Lemma zip_with_map_r {A B C : Type} (g : A -> B -> C) (h : A -> B)
    (l : list A) :
  zip_with g l (map h l) = map (fun a => g a (h a)) l.
Proof. induction l as [| a l IH]; cbn; [done | by rewrite IH]. Qed.

(** The figure of [demo_plot] draws the fast sweep: it has one curve per
    return time 0.1, 0.5, 1.0, 2.0, 5.0, each over the same 300 stroke
    ratios, and the points of its curves, taken in order, are the rows of
    [sweep_S_tauR] on that grid with sigma = 1.0 and k_H = 0.6. *)
Theorem demo_plot_draws_the_sweep (D f : R) (seed : Z) :
  map plot_label_tauR (fig_calls demo_plot) = [0.1; 0.5; 1.0; 2.0; 5.0]
  /\ Forall (fun c => plot_x c = np_linspace 1.0 8.0 300
                      /\ length (plot_y c) = 300%nat)
       (fig_calls demo_plot)
  /\ Ok (c ← fig_calls demo_plot; plotted_rows c)
     = sweep_S_tauR D f (Some (np_linspace 1.0 8.0 300))
         (Some [0.1; 0.5; 1.0; 2.0; 5.0]) 1.0 0.6 seed.
Proof.
  rewrite sweep_S_tauR_rows
    by first [lra
             | cbn [default]; repeat apply Forall_cons_2;
               try apply Forall_nil_2; lra].
  cbn [default].
  unfold demo_plot. cbn [fig_calls].
  rewrite (foldl_append_calls
             (fun tauR =>
                {| plot_x := np_linspace 1.0 8.0 300;
                   plot_y :=
                     map (fun c => c * (1.0 + 0.6 * (tauR / (tauR + 0.5))))
                       (map (fun s => exp (- 0.5 * ((s - 4.0) / 1.0) ^ 2))
                          (np_linspace 1.0 8.0 300));
                   plot_label_tauR := tauR |})).
  rewrite app_nil_l.
  split; [reflexivity |]. split.
  - apply Forall_fmap, Forall_true. intros tauR.
    unfold compose. cbn [plot_x plot_y]. split; [done |].
    unfold np_linspace. by rewrite !length_map, length_seq.
  - set (S := np_linspace 1.0 8.0 300).
    assert (Hrow : forall tauR : R,
      plotted_rows
        {| plot_x := S;
           plot_y :=
             map (fun c => c * (1.0 + 0.6 * (tauR / (tauR + 0.5))))
               (map (fun s => exp (- 0.5 * ((s - 4.0) / 1.0) ^ 2)) S);
           plot_label_tauR := tauR |}
      = map (fun s => (s, tauR, formation_envelope s 1.0 4.0
                                * hysteresis_gain tauR 0.5 0.6)) S).
    { intros tauR. unfold plotted_rows. cbn [plot_x plot_y plot_label_tauR].
      rewrite map_map.
      exact (zip_with_map_r (fun s y => (s, tauR, y)) _ S). }
    cbn [map]. rewrite !bind_cons, !Hrow. reflexivity.
Qed.

(** * The phrase interpreter *)

Lemma append_if_sublist (kw text ph : string) (acc acc' : list string) :
  acc `sublist_of` acc' ->
  Poetics.append_if kw text ph acc `sublist_of` acc' ++ [text].
Proof.
  intros H. unfold Poetics.append_if. destruct (py_in kw ph).
  - apply sublist_app; [exact H | reflexivity].
  - by apply sublist_inserts_r.
Qed.

Lemma elem_of_append_if (kw text ph x : string) (acc : list string) :
  x ∈ Poetics.append_if kw text ph acc <->
  x ∈ acc \/ (x = text /\ py_in kw ph = true).
Proof.
  unfold Poetics.append_if. destruct (py_in kw ph).
  - rewrite elem_of_app, list_elem_of_singleton. intuition.
  - intuition discriminate.
Qed.

(** Whatever the phrase, the interpretations come out in the fixed order
    of the lexicon, each at most once: the result is a sub-list of the
    eight texts, so it never has more than eight entries. *)
Theorem interpret_is_sublist_of_lexicon
    (self : Poetics.CollapsePoeticsInterpreter) :
  Poetics.interpret self `sublist_of` map snd Poetics.lexicon
  /\ NoDup (Poetics.interpret self)
  /\ (length (Poetics.interpret self) <= 8)%nat.
Proof.
  assert (Hsub : Poetics.interpret self `sublist_of` map snd Poetics.lexicon).
  { unfold Poetics.interpret.
    change (map snd Poetics.lexicon) with
      (((((((([] ++ ["Doorway → anchor point in κ-space"])
        ++ ["Edge of room → not a boundary, but a reference rejection"])
        ++ ["Act of stepping → drift initiation (ω > 0)"])
        ++ ["Threshold → curvature fold, not scalar crossing"])
        ++ ["Fold in time → τR > 0 (return delay)"])
        ++ ["Mirror → κ-preserving reflection"])
        ++ ["Spiral → C > 0 (high curvature path)"])
        ++ ["Wall → ω → 1⁻ (saturation boundary)"]).
    repeat apply append_if_sublist. reflexivity. }
  split; [exact Hsub |]. split.
  - eapply sublist_NoDup; [| exact Hsub].
    apply (bool_decide_unpack _). vm_compute. exact I.
  - apply sublist_length in Hsub. exact Hsub.
Qed.

(** An interpretation is returned exactly when its keyword occurs in the
    stored, lower-cased phrase. *)
Theorem interpretation_iff_keyword
    (self : Poetics.CollapsePoeticsInterpreter) (kw text : string) :
  (kw, text) ∈ Poetics.lexicon ->
  text ∈ Poetics.interpret self <-> py_in kw (Poetics.phrase self) = true.
Proof.
  intros Hlex. unfold Poetics.interpret.
  rewrite !elem_of_append_if, elem_of_nil.
  unfold Poetics.lexicon in Hlex.
  repeat (apply elem_of_cons in Hlex as [Heq | Hlex];
          [injection Heq as -> -> |]);
    [.. | by apply elem_of_nil in Hlex];
    split; [| tauto | | tauto | | tauto | | tauto | | tauto | | tauto
            | | tauto | | tauto];
    intros H; repeat (destruct H as [H | H]); try done;
    destruct H as [? ?]; done.
Qed.

Lemma interpretation_iff_keyword_wall :
  ("wall", "Wall → ω → 1⁻ (saturation boundary)") ∈ Poetics.lexicon
  /\ ("Wall → ω → 1⁻ (saturation boundary)"
      ∈ Poetics.interpret (Poetics.new "Against the Wall")
      <-> py_in "wall" (Poetics.phrase (Poetics.new "Against the Wall"))
          = true).
Proof.
  assert (H : ("wall", "Wall → ω → 1⁻ (saturation boundary)")
              ∈ Poetics.lexicon)
    by (apply (bool_decide_unpack _); vm_compute; exact I).
  split; [exact H |].
  exact (interpretation_iff_keyword (Poetics.new "Against the Wall") _ _ H).
Defined.

Lemma ascii_lower_upper (c : ascii) : ascii_lower (ascii_upper c) = ascii_lower c.
Proof. destruct c as [[] [] [] [] [] [] [] []]; vm_compute; reflexivity. Qed.

Lemma ascii_lower_idem (c : ascii) : ascii_lower (ascii_lower c) = ascii_lower c.
Proof. destruct c as [[] [] [] [] [] [] [] []]; vm_compute; reflexivity. Qed.

Lemma py_lower_upper (s : string) : py_lower (py_upper s) = py_lower s.
Proof.
  induction s as [| c s IH]; [done |].
  cbn [py_upper py_lower]. by rewrite ascii_lower_upper, IH.
Qed.

Lemma py_lower_idem (s : string) : py_lower (py_lower s) = py_lower s.
Proof.
  induction s as [| c s IH]; [done |].
  cbn [py_lower]. by rewrite ascii_lower_idem, IH.
Qed.

(** The interpreter ignores the case of ASCII letters: a phrase, the
    phrase in capitals and the phrase in lower case are interpreted
    alike. *)
Theorem interpret_ignores_case (s : string) :
  Poetics.interpret (Poetics.new (py_upper s))
  = Poetics.interpret (Poetics.new s)
  /\ Poetics.interpret (Poetics.new (py_lower s))
     = Poetics.interpret (Poetics.new s).
Proof.
  unfold Poetics.new. by rewrite py_lower_upper, py_lower_idem.
Qed.

Lemma append_cons (c : ascii) (a b : string) :
  (String c a ++ b)%string = String c (a ++ b)%string.
Proof. reflexivity. Qed.

Lemma append_empty (b : string) : (EmptyString ++ b)%string = b.
Proof. reflexivity. Qed.

Lemma py_lower_app (a b : string) :
  py_lower (a ++ b) = (py_lower a ++ py_lower b)%string.
Proof.
  induction a as [| c a IH]; [done |].
  rewrite append_cons. cbn [py_lower]. by rewrite append_cons, IH.
Qed.

Lemma prefix_empty (h : string) : String.prefix EmptyString h = true.
Proof. by destruct h. Qed.

Lemma prefix_app_r (n h b : string) :
  String.prefix n h = true -> String.prefix n (h ++ b) = true.
Proof.
  revert h. induction n as [| c n IH]; intros h H;
    [apply prefix_empty |].
  destruct h as [| d h]; [done |]. rewrite append_cons.
  cbn [String.prefix] in *.
  destruct (ascii_dec c d); [| done]. by apply IH.
Qed.

Lemma py_in_unfold (n h : string) :
  py_in n h
  = (String.prefix n h
     || match h with
        | EmptyString => false
        | String _ r => py_in n r
        end)%bool.
Proof. by destruct h. Qed.

Lemma py_in_app_r (n h b : string) :
  py_in n h = true -> py_in n (h ++ b) = true.
Proof.
  induction h as [| d h IH]; intros H.
  - rewrite py_in_unfold in H. rewrite orb_false_r in H.
    rewrite py_in_unfold. apply orb_true_iff. left.
    by apply (prefix_app_r n EmptyString b).
  - rewrite py_in_unfold in H. apply orb_true_iff in H as [H | H].
    + rewrite py_in_unfold. apply orb_true_iff. left.
      by apply prefix_app_r.
    + rewrite append_cons, py_in_unfold. apply orb_true_iff.
      right. by apply IH.
Qed.

Lemma py_in_app_l (n a h : string) :
  py_in n h = true -> py_in n (a ++ h) = true.
Proof.
  intros H. induction a as [| c a IH]; [done |].
  rewrite append_cons, py_in_unfold. apply orb_true_iff. by right.
Qed.

(** Text around a phrase never removes an interpretation: what a phrase
    yields is also yielded by any longer phrase that contains it. *)
Theorem interpret_monotone_in_context (before s after : string) :
  Poetics.interpret (Poetics.new s)
  ⊆ Poetics.interpret (Poetics.new (before ++ s ++ after)).
Proof.
  intros x. unfold Poetics.interpret, Poetics.new.
  cbn [Poetics.phrase].
  rewrite !elem_of_append_if, !elem_of_nil, !py_lower_app.
  assert (Hin : forall kw : string,
            py_in kw (py_lower s) = true ->
            py_in kw (py_lower before ++ py_lower s ++ py_lower after) = true)
    by (intros kw H; by apply py_in_app_l, py_in_app_r).
  intros H.
  repeat (destruct H as [H | H]); [done | ..];
    destruct H as [-> H]; apply Hin in H; tauto.
Qed.

(** * The two routes *)

(** The route [/interpret]: a body without ["phrase"] is answered with the
    empty list, a body whose ["phrase"] is a string with the
    interpretations of that string, and a ["phrase"] of any other JSON
    type makes the handler fail with [AttributeError]. *)
Theorem interpret_route_cases (body : gmap string json) :
  (body !! "phrase" = None -> Poetics.interpret_route body = Returns [])
  /\ (forall s : string, body !! "phrase" = Some (JStr s) ->
        Poetics.interpret_route body
        = Returns (Poetics.interpret (Poetics.new s)))
  /\ (forall v : json, body !! "phrase" = Some v ->
        (forall s : string, v <> JStr s) ->
        Poetics.interpret_route body = Raises AttributeError).
Proof.
  unfold Poetics.interpret_route, dict_get. split; [| split].
  - intros ->. reflexivity.
  - intros s ->. reflexivity.
  - intros v -> Hv. cbn [default]. destruct v; try reflexivity.
    by destruct (Hv s).
Qed.

(** * The fragment generator *)

(** The fragment has one line for every invariant that is given, and none
    for an invariant left out. *)
Theorem fragment_has_a_line_per_invariant
    (omega C tau_R kappa : option pyfloat) :
  length (Poetics.generate_poetics_from_invariants omega C tau_R kappa)
  = length (omap (fun given : option pyfloat => given)
              [omega; C; tau_R; kappa]).
Proof. destruct omega, C, tau_R, kappa; reflexivity. Qed.

(** For finite invariants the fragment is the calm one, all four second
    variants, exactly when the drift is at most 0.3, the curvature at most
    0.2, the return time at most 5 and the integrity not negative: the
    thresholds themselves still read as calm.  Four NaN invariants read as
    calm as well. *)
Theorem calm_fragment_iff (omega C tau_R kappa : R) :
  let calm := [ "It moved, but softly — a whisper of change.";
                "It curled gently, holding form.";
                "The loop closed — return was near.";
                "It held. It lived as one." ] in
  (Poetics.generate_poetics_from_invariants
     (Some (Finite omega)) (Some (Finite C))
     (Some (Finite tau_R)) (Some (Finite kappa)) = calm
   <-> omega <= 0.3 /\ C <= 0.2 /\ tau_R <= 5 /\ 0 <= kappa)
  /\ Poetics.generate_poetics_from_invariants
       (Some NaN) (Some NaN) (Some NaN) (Some NaN) = calm.
Proof.
  intros calm. split; [| reflexivity].
  unfold Poetics.generate_poetics_from_invariants, float_gt, float_lt, calm.
  cbn [app].
  repeat case_bool_decide; split; intros Hc;
    try discriminate Hc; try reflexivity; lra.
Qed.

(** * The route [/generate] *)

Lemma float_int_bound_large : 1000 < float_int_bound.
Proof. unfold float_int_bound. apply (IZR_lt 1000). reflexivity. Qed.

Lemma py_float_in_range (f : string -> option pyfloat) (r : R) :
  Rabs r <= 1000 ->
  Poetics.py_float f (JNum (Finite r)) = Returns (Finite r).
Proof.
  intros Hr. pose proof float_int_bound_large.
  cbn [Poetics.py_float]. rewrite decide_True by lra. reflexivity.
Qed.

(** An integer of 401 digits is beyond the floats. *)
Lemma py_float_overflow (f : string -> option pyfloat) :
  Poetics.py_float f (JNum (Finite (IZR (10 ^ 400)))) = Raises OverflowError.
Proof.
  cbn [Poetics.py_float]. rewrite decide_False; [reflexivity |].
  rewrite Rabs_right by (apply Rle_ge, (IZR_le 0); by vm_compute).
  apply Rle_not_lt. unfold float_int_bound. apply IZR_le. by vm_compute.
Qed.

Lemma generate_route_unfold (f : string -> option pyfloat)
    (data : gmap string json) :
  Poetics.generate_route f data
  = (omega ← Poetics.py_float f (dict_get data "omega" (JNum (Finite 0)));
     curvature ←
       Poetics.py_float f (dict_get data "curvature" (JNum (Finite 0)));
     tau_R ← Poetics.py_float f (dict_get data "tauR" (JNum (Finite 0)));
     kappa ← Poetics.py_float f (dict_get data "kappa" (JNum (Finite 0)));
     mret (Poetics.generate_poetics_from_invariants
             (Some omega) (Some curvature) (Some tau_R) (Some kappa))).
Proof. reflexivity. Qed.

(** When [/generate] answers, every key it reads was absent or held a
    value that [float] accepts, and the fragment has exactly four lines:
    an absent key counts as 0 and so still gets its line. *)
Theorem generate_route_returns_four_lines (f : string -> option pyfloat)
    (data : gmap string json) (lines : list string) :
  Poetics.generate_route f data = Returns lines ->
  length lines = 4%nat
  /\ Forall (fun key => exists x : pyfloat,
               Poetics.py_float f (dict_get data key (JNum (Finite 0)))
               = Returns x)
            Poetics.generate_keys.
Proof.
  rewrite generate_route_unfold. unfold Poetics.generate_keys.
  destruct (Poetics.py_float f (dict_get data "omega" _)) as [o | ?] eqn:Ho;
    [| discriminate].
  destruct (Poetics.py_float f (dict_get data "curvature" _))
    as [c | ?] eqn:Hc; [| discriminate].
  destruct (Poetics.py_float f (dict_get data "tauR" _)) as [t | ?] eqn:Ht;
    [| discriminate].
  destruct (Poetics.py_float f (dict_get data "kappa" _)) as [k | ?] eqn:Hk;
    [| discriminate].
  cbn [mbind outcome_bind mret outcome_ret].
  intros H. injection H as <-.
  split; [reflexivity |].
  repeat apply Forall_cons_2; [by exists o | by exists c | by exists t
                              | by exists k | apply Forall_nil_2].
Qed.

Lemma generate_route_returns_four_lines_example :
  let f : string -> option pyfloat := fun _ => None in
  let data : gmap string json :=
    <["omega" := JNum (Finite 1)]> (<["kappa" := JBool true]> ∅) in
  let lines := [ "The ground slipped — a drift unbound.";
                 "It curled gently, holding form.";
                 "The loop closed — return was near.";
                 "It held. It lived as one." ] in
  Poetics.generate_route f data = Returns lines
  /\ length lines = 4%nat.
Proof.
  intros f data lines.
  assert (H : Poetics.generate_route f data = Returns lines).
  { rewrite generate_route_unfold. unfold dict_get, data.
    rewrite lookup_insert_eq.
    rewrite (lookup_insert_ne _ "omega" "curvature") by done.
    rewrite (lookup_insert_ne _ "omega" "tauR") by done.
    rewrite (lookup_insert_ne _ "omega" "kappa") by done.
    rewrite (lookup_insert_ne _ "kappa" "curvature") by done.
    rewrite (lookup_insert_ne _ "kappa" "tauR") by done.
    rewrite lookup_insert_eq, !lookup_empty.
    cbv [default from_option Datatypes.id].
    rewrite !py_float_in_range by (rewrite ?Rabs_R0, ?Rabs_R1; lra).
    cbv [Poetics.py_float mbind outcome_bind mret outcome_ret].
    unfold Poetics.generate_poetics_from_invariants, float_gt, float_lt.
    cbn [app]. unfold lines.
    repeat case_bool_decide; try reflexivity; lra. }
  split; [exact H |].
  exact (proj1 (generate_route_returns_four_lines f data lines H)).
Defined.

(** [/generate] fails exactly when some key holds a value that [float]
    rejects, and the exception is that of the first such key in the order
    omega, curvature, tauR, kappa: a null, an array or an object gives
    [TypeError], a string that spells no number [ValueError], an integer
    beyond the floats [OverflowError]. *)
Theorem generate_route_first_failure (f : string -> option pyfloat)
    (data : gmap string json) (e : Exn) :
  Poetics.generate_route f data = Raises e
  <-> exists (before : list string) (key : string) (after : list string),
        Poetics.generate_keys = before ++ key :: after
        /\ Forall (fun k => exists x : pyfloat,
                     Poetics.py_float f (dict_get data k (JNum (Finite 0)))
                     = Returns x)
                  before
        /\ Poetics.py_float f (dict_get data key (JNum (Finite 0)))
           = Raises e.
Proof.
  rewrite generate_route_unfold. unfold Poetics.generate_keys.
  destruct (Poetics.py_float f (dict_get data "omega" _)) as [o | eo] eqn:Ho.
  2:{ cbn [mbind outcome_bind]. split.
      - intros H. exists [], "omega", ["curvature"; "tauR"; "kappa"].
        rewrite Ho. repeat split; [apply Forall_nil_2 | congruence].
      - intros (before & key & after & Hk & Hb & He).
        destruct before as [| k0 before]; simplify_eq/=; [congruence |].
        apply Forall_cons in Hb as [[x Hx] _]. congruence. }
  destruct (Poetics.py_float f (dict_get data "curvature" _))
    as [c | ec] eqn:Hc.
  2:{ cbn [mbind outcome_bind]. split.
      - intros H. exists ["omega"], "curvature", ["tauR"; "kappa"].
        rewrite Hc. repeat split; [| congruence].
        repeat apply Forall_cons_2; [by exists o | apply Forall_nil_2].
      - intros (before & key & after & Hk & Hb & He).
        destruct before as [| k0 [| k1 before]]; simplify_eq/=;
          [congruence | congruence |].
        apply Forall_cons in Hb as [_ Hb].
        apply Forall_cons in Hb as [[x Hx] _]. congruence. }
  destruct (Poetics.py_float f (dict_get data "tauR" _)) as [t | et] eqn:Ht.
  2:{ cbn [mbind outcome_bind]. split.
      - intros H. exists ["omega"; "curvature"], "tauR", ["kappa"].
        rewrite Ht. repeat split; [| congruence].
        repeat apply Forall_cons_2;
          [by exists o | by exists c | apply Forall_nil_2].
      - intros (before & key & after & Hk & Hb & He).
        destruct before as [| k0 [| k1 [| k2 before]]]; simplify_eq/=;
          [congruence | congruence | congruence |].
        apply Forall_cons in Hb as [_ Hb].
        apply Forall_cons in Hb as [_ Hb].
        apply Forall_cons in Hb as [[x Hx] _]. congruence. }
  destruct (Poetics.py_float f (dict_get data "kappa" _)) as [k | ek] eqn:Hk'.
  2:{ cbn [mbind outcome_bind]. split.
      - intros H. exists ["omega"; "curvature"; "tauR"], "kappa", [].
        rewrite Hk'. repeat split; [| congruence].
        repeat apply Forall_cons_2;
          [by exists o | by exists c | by exists t | apply Forall_nil_2].
      - intros (before & key & after & Hk & Hb & He).
        destruct before as [| k0 [| k1 [| k2 [| k3 before]]]]; simplify_eq/=;
          [congruence | congruence | congruence | congruence |].
        destruct before; discriminate. }
  cbn [mbind outcome_bind mret outcome_ret]. split; [discriminate |].
  intros (before & key & after & Hk & Hb & He).
  destruct before as [| k0 [| k1 [| k2 [| k3 before]]]]; simplify_eq/=;
    [congruence | congruence | congruence | congruence |].
  destruct before; discriminate.
Qed.

Lemma generate_route_first_failure_overflow :
  let f : string -> option pyfloat := fun _ => None in
  let data : gmap string json :=
    <["omega" := JNum (Finite 1)]>
      (<["curvature" := JNum (Finite (IZR (10 ^ 400)))]>
         (<["tauR" := JNull]> ∅)) in
  Poetics.generate_route f data = Raises OverflowError.
Proof.
  intros f data.
  apply (proj2 (generate_route_first_failure f data OverflowError)).
  exists ["omega"], "curvature", ["tauR"; "kappa"].
  split; [reflexivity |]. unfold dict_get, data. split.
  - apply Forall_cons_2; [| apply Forall_nil_2].
    exists (Finite 1). rewrite lookup_insert_eq.
    cbv [default from_option Datatypes.id].
    apply py_float_in_range. rewrite Rabs_R1. lra.
  - rewrite (lookup_insert_ne _ "omega" "curvature") by done.
    rewrite lookup_insert_eq. cbv [default from_option Datatypes.id].
    apply py_float_overflow.
Defined.

(** * The weld test *)

Lemma isclose_pos_iff (a b eps : R) :
  0 < a -> 0 <= eps < 1 ->
  AuditStack.isclose a b eps = true
  <-> a * (1 - eps) <= b /\ b * (1 - eps) <= a.
Proof.
  intros Ha Heps. unfold AuditStack.isclose.
  destruct (decide (a = b)) as [-> | Hne].
  - split; [intros _; split; nra | done].
  - cbv zeta. rewrite !orb_true_iff, !bool_decide_eq_true.
    unfold Rabs.
    destruct (Rcase_abs (b - a)), (Rcase_abs (eps * b)),
      (Rcase_abs (eps * a)); split;
      try (intros [[H | H] | H]; split; nra);
      intros [H1 H2];
      try (left; left; nra); try (left; right; nra); try (right; nra).
Qed.

Lemma math_exp_in_range (x : R) :
  - 700 <= x <= 700 -> AuditStack.math_exp x = Returns (exp x).
Proof.
  intros Hx. unfold AuditStack.math_exp.
  rewrite (decide_False (P := 709.782712893384 < x)) by lra.
  rewrite (decide_False (P := x < -745.1332191019412)) by lra.
  reflexivity.
Qed.

Lemma math_exp_overflow (x : R) :
  709.782712893384 < x -> AuditStack.math_exp x = Raises OverflowError.
Proof. intros Hx. unfold AuditStack.math_exp. by rewrite decide_True. Qed.

Lemma math_exp_underflow (x : R) :
  x < -745.1332191019412 -> AuditStack.math_exp x = Returns 0.
Proof.
  intros Hx. unfold AuditStack.math_exp.
  rewrite (decide_False (P := 709.782712893384 < x)) by lra.
  by rewrite decide_True.
Qed.

Lemma weld_pass_in_range (delta_kappa I_ratio residual tol : R) :
  - 700 <= delta_kappa <= 700 ->
  AuditStack.weld_pass delta_kappa I_ratio residual tol
  = Returns (bool_decide (Rabs residual <= tol)
             && AuditStack.isclose (exp delta_kappa) I_ratio 1e-9).
Proof.
  intros Hd. unfold AuditStack.weld_pass.
  rewrite math_exp_in_range by exact Hd.
  by destruct (bool_decide (Rabs residual <= tol)).
Qed.


(** Within the range where [math.exp] neither overflows nor loses
    precision, [weld_pass] returns, and it draws the line at one part in
    10^9: a weld that passes has its residual within the tolerance in
    absolute value, a positive intensity ratio, and the ratio within two
    parts in 10^9 of [exp delta_kappa]; a weld whose residual is within
    the tolerance and whose ratio is within half a part in 10^9 of
    [exp delta_kappa] passes. *)
Theorem weld_pass_tolerance (delta_kappa I_ratio residual tol : R) :
  - 700 <= delta_kappa <= 700 ->
  exists passed : bool,
    AuditStack.weld_pass delta_kappa I_ratio residual tol = Returns passed
    /\ (passed = true ->
        - tol <= residual <= tol /\ 0 < I_ratio
        /\ exp delta_kappa * (1 - 2e-9) <= I_ratio
        /\ I_ratio * (1 - 2e-9) <= exp delta_kappa)
    /\ (- tol <= residual <= tol ->
        exp delta_kappa * (1 - 5e-10) <= I_ratio ->
        I_ratio * (1 - 5e-10) <= exp delta_kappa ->
        passed = true).
Proof.
  intros Hd. eexists. split; [by apply weld_pass_in_range |].
  pose proof (exp_pos delta_kappa) as He.
  pose proof (isclose_pos_iff (exp delta_kappa) I_ratio 1e-9 He) as Hc.
  rewrite andb_true_iff, bool_decide_eq_true.
  split.
  - intros [Hr Hclose]. apply Hc in Hclose as [H1 H2]; [| lra].
    split; [unfold Rabs in Hr; destruct (Rcase_abs residual); lra |].
    assert (0 < I_ratio) by nra.
    repeat split; nra.
  - intros Hr H1 H2. split; [apply Rabs_le; lra |].
    assert (0 < I_ratio) by nra.
    apply Hc; [lra |]. split; nra.
Qed.

Lemma weld_pass_tolerance_example :
  - 700 <= 1 <= 700
  /\ AuditStack.weld_pass 1 (exp 1) 0 0.005 = Returns true.
Proof.
  assert (Hd : - 700 <= 1 <= 700) by lra.
  split; [exact Hd |].
  destruct (weld_pass_tolerance 1 (exp 1) 0 0.005 Hd) as (b & Hb & _ & Hpass).
  rewrite Hb. f_equal. pose proof (exp_pos 1).
  apply Hpass; [lra | nra | nra].
Defined.

(** Far below the range the exponential is 0.0, and the weld with a ratio
    of 0.0 passes. *)
Lemma weld_pass_underflow :
  AuditStack.weld_pass (- 1000) 0 0 0.005 = Returns true.
Proof.
  unfold AuditStack.weld_pass.
  rewrite bool_decide_eq_true_2 by (rewrite Rabs_R0; lra).
  rewrite math_exp_underflow by lra.
  cbn [mbind outcome_bind mret outcome_ret].
  unfold AuditStack.isclose. by rewrite decide_True.
Qed.

(** * The HUD of a weld *)

Section Hud.

Variables weld_id seed sha256 manifest_root_hash : json.

Lemma render_hud_fields (delta_kappa I_ratio residual kappa I tol : R) :
  - 700 <= delta_kappa <= 700 ->
  exists (hud : gmap string json) (passed : bool),
    AuditStack.render_hud weld_id delta_kappa I_ratio residual
      kappa I seed sha256 manifest_root_hash tol = Returns hud
    /\ AuditStack.weld_pass delta_kappa I_ratio residual tol = Returns passed
    /\ hud !! "I_t1" = Some (JNum (Finite (I * exp delta_kappa)))
    /\ hud !! "kappa_t1" = Some (JNum (Finite (kappa + delta_kappa)))
    /\ hud !! "pass" = Some (JBool passed).
Proof.
  intros Hd. unfold AuditStack.render_hud.
  rewrite math_exp_in_range by exact Hd.
  rewrite weld_pass_in_range by exact Hd.
  cbn [mbind outcome_bind mret outcome_ret].
  eexists _, _. split; [reflexivity |]. repeat split; reflexivity.
Qed.

(** The HUD moves the intensity and the integrity together: for a step
    [delta_kappa] from -100 to 100, where the exponential stays far from
    the ends of the float range, the HUD is rendered, and the quantity
    [I * exp (- kappa)] is the same after the weld as before it.  A
    step above 709.782712893384 makes [math.exp] overflow, and no HUD is
    rendered. *)
Theorem render_hud_conserves (delta_kappa I_ratio residual kappa I tol : R) :
  (- 100 <= delta_kappa <= 100 ->
   exists (hud : gmap string json) (I_t1 kappa_t1 : R),
     AuditStack.render_hud weld_id delta_kappa I_ratio residual
       kappa I seed sha256 manifest_root_hash tol = Returns hud
     /\ hud !! "I_t1" = Some (JNum (Finite I_t1))
     /\ hud !! "kappa_t1" = Some (JNum (Finite kappa_t1))
     /\ I_t1 * exp (- kappa_t1) = I * exp (- kappa))
  /\ (709.782712893384 < delta_kappa ->
      AuditStack.render_hud weld_id delta_kappa I_ratio residual
        kappa I seed sha256 manifest_root_hash tol = Raises OverflowError).
Proof.
  split.
  - intros Hd.
    destruct (render_hud_fields delta_kappa I_ratio residual kappa I tol)
      as (hud & passed & Hhud & _ & EI & Ek & _); [lra |].
    exists hud, (I * exp delta_kappa), (kappa + delta_kappa).
    split; [exact Hhud |]. split; [exact EI |]. split; [exact Ek |].
    replace (- (kappa + delta_kappa)) with (- kappa + - delta_kappa) by lra.
    rewrite exp_plus, (exp_Ropp delta_kappa).
    pose proof (exp_pos delta_kappa) as Hp.
    assert (H1 : exp delta_kappa * / exp delta_kappa = 1)
      by (apply Rinv_r; lra).
    replace (I * exp delta_kappa * (exp (- kappa) * / exp delta_kappa))
      with (I * exp (- kappa) * (exp delta_kappa * / exp delta_kappa))
      by ring.
    rewrite H1. ring.
  - intros Hd. unfold AuditStack.render_hud.
    by rewrite math_exp_overflow.
Qed.

(** Far below the range the intensity after the weld is 0.0. *)
Lemma render_hud_underflow (delta_kappa I_ratio residual kappa I tol : R) :
  delta_kappa < -745.1332191019412 ->
  exists hud : gmap string json,
    AuditStack.render_hud weld_id delta_kappa I_ratio residual
      kappa I seed sha256 manifest_root_hash tol = Returns hud
    /\ hud !! "I_t1" = Some (JNum (Finite (I * 0))).
Proof.
  intros Hd. unfold AuditStack.render_hud, AuditStack.weld_pass.
  rewrite math_exp_underflow by exact Hd.
  destruct (bool_decide (Rabs residual <= tol));
    cbn [mbind outcome_bind mret outcome_ret];
    eexists; split; reflexivity.
Qed.

End Hud.

Lemma render_hud_conserves_example :
  - 100 <= 1 <= 100
  /\ exists (hud : gmap string json) (I_t1 kappa_t1 : R),
       AuditStack.render_hud JNull 1 2 0 3 4 JNull JNull JNull 0.005
       = Returns hud
       /\ hud !! "I_t1" = Some (JNum (Finite I_t1))
       /\ hud !! "kappa_t1" = Some (JNum (Finite kappa_t1))
       /\ I_t1 * exp (- kappa_t1) = 4 * exp (- 3).
Proof.
  assert (Hd : - 100 <= 1 <= 100) by lra.
  split; [exact Hd |].
  exact (proj1 (render_hud_conserves JNull JNull JNull JNull 1 2 0 3 4 0.005)
           Hd).
Defined.

(** * The ledger file *)

Lemma append_to_ledger_unfold (entry : json) (filename : string)
    (fs : AuditStack.files) :
  AuditStack.append_to_ledger entry filename fs
  = match fs !! filename with
    | None =>
        (<[filename := AuditStack.Doc (JArr [entry])]> fs, Returns tt)
    | Some AuditStack.Garbled => (fs, Raises JSONDecodeError)
    | Some (AuditStack.Doc (JArr l)) =>
        (<[filename := AuditStack.Doc (JArr (l ++ [entry]))]> fs, Returns tt)
    | Some (AuditStack.Doc _) => (fs, Raises AttributeError)
    end.
Proof.
  unfold AuditStack.append_to_ledger, AuditStack.os_path_exists,
    AuditStack.json_load, AuditStack.json_dump, AuditStack.lift,
    mbind, AuditStack.io_bind, mret, AuditStack.io_ret.
  destruct (fs !! filename) as [[| j] |] eqn:Hf.
  - rewrite bool_decide_eq_true_2 by eauto. by rewrite Hf.
  - rewrite bool_decide_eq_true_2 by eauto. rewrite Hf. by destruct j.
  - rewrite bool_decide_eq_false_2 by (intros [? ?]; done). reflexivity.
Qed.



(** An append, whether it succeeds or fails, leaves every file other than
    the ledger as it was. *)
Theorem append_touches_only_the_ledger (entry : json)
    (filename other : string) (fs : AuditStack.files) :
  other <> filename ->
  (AuditStack.append_to_ledger entry filename fs).1 !! other = fs !! other.
Proof.
  intros Hne. rewrite append_to_ledger_unfold.
  destruct (fs !! filename) as [[| j] |]; [| destruct j |]; cbn [fst];
    try reflexivity; by rewrite lookup_insert_ne.
Qed.

Lemma append_touches_only_the_ledger_example :
  "notes.txt" <> "ledger.json"
  /\ (AuditStack.append_to_ledger JNull "ledger.json"
        (<["notes.txt" := AuditStack.Garbled]> ∅)).1 !! "notes.txt"
     = (<["notes.txt" := AuditStack.Garbled]> ∅ : AuditStack.files)
         !! "notes.txt".
Proof.
  assert (Hne : "notes.txt" <> "ledger.json") by discriminate.
  split; [exact Hne |].
  exact (append_touches_only_the_ledger JNull "ledger.json" "notes.txt"
           (<["notes.txt" := AuditStack.Garbled]> ∅) Hne).
Defined.

(** The ledger accumulates: appending entries one after the other to a
    ledger that holds a list leaves the old list followed by the new
    entries, in the order they were appended and with repetitions kept,
    and no append fails. *)
Theorem ledger_accumulates (entries old : list json) (filename : string)
    (fs : AuditStack.files) :
  fs !! filename = Some (AuditStack.Doc (JArr old)) ->
  AuditStack.for_each
    (fun entry => AuditStack.append_to_ledger entry filename) entries fs
  = (<[filename := AuditStack.Doc (JArr (old ++ entries))]> fs, Returns tt).
Proof.
  revert old fs. induction entries as [| entry entries IH]; intros old fs Hf.
  - cbn [AuditStack.for_each]. rewrite app_nil_r, insert_id by done.
    reflexivity.
  - cbn [AuditStack.for_each]. unfold mbind, AuditStack.io_bind.
    rewrite append_to_ledger_unfold, Hf.
    rewrite (IH (old ++ [entry])) by apply lookup_insert_eq.
    rewrite insert_insert_eq, <- app_assoc. reflexivity.
Qed.

Lemma ledger_accumulates_example :
  let fs : AuditStack.files :=
    <["ledger.json" := AuditStack.Doc (JArr [JNull])]> ∅ in
  fs !! "ledger.json" = Some (AuditStack.Doc (JArr [JNull]))
  /\ AuditStack.for_each
       (fun entry => AuditStack.append_to_ledger entry "ledger.json")
       [JBool true; JBool true] fs
     = (<["ledger.json" :=
            AuditStack.Doc (JArr ([JNull] ++ [JBool true; JBool true]))]> fs,
        Returns tt).
Proof.
  intros fs.
  assert (Hf : fs !! "ledger.json" = Some (AuditStack.Doc (JArr [JNull])))
    by apply lookup_insert_eq.
  split; [exact Hf |].
  exact (ledger_accumulates [JBool true; JBool true] [JNull] "ledger.json"
           fs Hf).
Defined.

(** * The script *)





(** * The weather service: coordinates *)

(** The coordinate check accepts exactly the finite latitudes from -90 to
    90 with the finite longitudes from -180 to 180, the bounds included:
    an infinity or a NaN in either place is refused. *)
Theorem validate_lat_lon_iff (lat lon : pyfloat) :
  Weather.validate_lat_lon lat lon = true
  <-> exists la lo : R,
        lat = Finite la /\ lon = Finite lo
        /\ - 90 <= la <= 90 /\ - 180 <= lo <= 180.
Proof.
  unfold Weather.validate_lat_lon, float_ge, float_le.
  rewrite !andb_true_iff. split.
  - intros [[H1 H2] [H3 H4]].
    destruct lat as [la | | |]; try discriminate.
    destruct lon as [lo | | |]; try discriminate.
    apply bool_decide_eq_true in H1, H2, H3, H4.
    exists la, lo. repeat split; lra.
  - intros (la & lo & -> & -> & Hla & Hlo).
    rewrite !bool_decide_eq_true. lra.
Qed.

Section WeatherProperties.

Variable float_str : pyfloat -> string.
Variable py_repr : json -> string.
Variable fetch : list json -> json -> outcome json.

(** Coordinates that fail the check are answered with the error entry by
    both look-ups, and no request is made for them. *)
Theorem invalid_coordinates_make_no_request (lat lon : pyfloat)
    (hourly : option bool) (log : list json) :
  Weather.validate_lat_lon lat lon = false ->
  Weather.get_weather float_str py_repr fetch lat lon hourly log
  = (log, Returns Weather.invalid_lat_lon)
  /\ Weather.get_alerts float_str py_repr fetch lat lon log
     = (log, Returns Weather.invalid_lat_lon).
Proof.
  intros H. unfold Weather.get_weather, Weather.get_alerts.
  rewrite H. split; reflexivity.
Qed.

(** ** The alert formatter *)

Lemma py_get_raises (x : json) (key : string) (dflt : json) (e : Exn) :
  py_get x key dflt = Raises e -> e = AttributeError.
Proof. destruct x; cbn [py_get]; congruence. Qed.

Lemma py_get_returns (x : json) (key : string) (dflt v : json) :
  py_get x key dflt = Returns v ->
  exists d : gmap string json, x = JObj d /\ v = dict_get d key dflt.
Proof.
  destruct x; cbn [py_get]; intros H; try discriminate H.
  injection H as <-. eauto.
Qed.

(** The formatter returns a text exactly for a feature that is a
    dictionary whose ["properties"] are absent or a dictionary; on every
    other feature it raises [AttributeError]: on a feature that is a list,
    a string, a number or null, and on properties that are null. *)
Theorem format_alert_returns_iff (feature : json) :
  ((exists text : string,
      Weather.format_alert py_repr feature = Returns text)
   <-> exists d : gmap string json,
         feature = JObj d
         /\ (d !! "properties" = None
             \/ exists p : gmap string json,
                  d !! "properties" = Some (JObj p)))
  /\ ((forall text : string,
         Weather.format_alert py_repr feature <> Returns text)
      -> Weather.format_alert py_repr feature = Raises AttributeError).
Proof.
  unfold Weather.format_alert. split.
  - split.
    + intros [text H].
      destruct (py_get feature "properties" (JObj ∅)) as [props |] eqn:Hp;
        [| discriminate H].
      apply py_get_returns in Hp as (d & -> & Hp). exists d. split; [done |].
      unfold dict_get in Hp. destruct (d !! "properties") as [v |];
        [| by left].
      right. cbn [default from_option] in Hp. subst props.
      cbn [mbind outcome_bind] in H.
      destruct v; cbn [py_get mbind outcome_bind] in H;
        try discriminate H. eauto.
    + intros (d & -> & [Hn | [p Hp]]); cbn [py_get]; unfold dict_get.
      * rewrite Hn. cbn. eauto.
      * rewrite Hp. cbn. eauto.
  - intros Hno.
    destruct (py_get feature "properties" (JObj ∅)) as [props | e] eqn:Hp.
    + cbn [mbind outcome_bind] in *.
      destruct props; cbn [py_get mbind outcome_bind] in *;
        try reflexivity.
      exfalso. eapply Hno. reflexivity.
    + apply py_get_raises in Hp as ->. reflexivity.
Qed.

Lemma format_alert_raises (feature : json) (e : Exn) :
  Weather.format_alert py_repr feature = Raises e -> e = AttributeError.
Proof.
  unfold Weather.format_alert.
  destruct (py_get feature "properties" (JObj ∅)) as [props | e'] eqn:Hp.
  - cbn [mbind outcome_bind].
    destruct props; cbn [py_get mbind outcome_bind mret outcome_ret];
      intros H; try discriminate H; congruence.
  - apply py_get_raises in Hp as ->. cbn [mbind outcome_bind]. congruence.
Qed.

Lemma format_each_raises (l : list json) (e : Exn) :
  Weather.format_each py_repr l = Raises e -> e = AttributeError.
Proof.
  induction l as [| f l IH]; cbn [Weather.format_each]; [discriminate |].
  destruct (Weather.format_alert py_repr f) as [text | e'] eqn:Hf.
  - cbn [mbind outcome_bind].
    destruct (Weather.format_each py_repr l) as [texts | e''];
      cbn [mbind outcome_bind mret outcome_ret]; [discriminate |].
    intros H. injection H as <-. by apply IH.
  - cbn [mbind outcome_bind]. intros H. injection H as <-.
    by apply format_alert_raises in Hf.
Qed.

Lemma format_each_length (l : list json) (texts : list string) :
  Weather.format_each py_repr l = Returns texts -> length texts = length l.
Proof.
  revert texts. induction l as [| f l IH]; intros texts;
    cbn [Weather.format_each].
  - intros H. injection H as <-. reflexivity.
  - destruct (Weather.format_alert py_repr f) as [text | e'];
      cbn [mbind outcome_bind]; [| discriminate].
    destruct (Weather.format_each py_repr l) as [ts | e''];
      cbn [mbind outcome_bind mret outcome_ret]; [| discriminate].
    intros H. injection H as <-. cbn [length]. by rewrite (IH ts).
Qed.

End WeatherProperties.

Lemma invalid_coordinates_make_no_request_example :
  let float_str : pyfloat -> string := fun _ => EmptyString in
  let py_repr : json -> string := fun _ => EmptyString in
  let fetch : list json -> json -> outcome json :=
    fun _ _ => Returns JNull in
  Weather.validate_lat_lon NaN (Finite 0) = false
  /\ Weather.get_weather float_str py_repr fetch NaN (Finite 0) None []
     = ([], Returns Weather.invalid_lat_lon).
Proof.
  intros float_str py_repr fetch.
  assert (H : Weather.validate_lat_lon NaN (Finite 0) = false)
    by reflexivity.
  split; [exact H |].
  exact (proj1 (invalid_coordinates_make_no_request float_str py_repr fetch
                  NaN (Finite 0) None [] H)).
Defined.

(** * The weather service: the look-ups *)

Section WeatherLookups.

Variable float_str : pyfloat -> string.
Variable py_repr : json -> string.
Variable fetch : list json -> json -> outcome json.

Lemma make_nws_request_unfold (url : json) (log : list json) :
  Weather.make_nws_request fetch url log
  = (log ++ [url], (Weather.make_nws_request fetch url log).2).
Proof. reflexivity. Qed.

Lemma make_nws_request_raises (url : json) (log : list json) (e : Exn) :
  (Weather.make_nws_request fetch url log).2 = Raises e ->
  fetch log url = Raises e
  /\ e <> HTTPStatusError /\ e <> RequestError
  /\ e <> FloatValueError /\ e <> JSONDecodeError.
Proof.
  unfold Weather.make_nws_request. cbn [snd].
  destruct (fetch log url) as [body | []]; intros H; try discriminate H;
    injection H as <-; repeat split; discriminate.
Qed.

Lemma web_bind_unfold {A B : Type} (m : Weather.web A)
    (k : A -> Weather.web B) (log : list json) :
  (m ≫= k) log
  = match m log with
    | (log', Returns a) => k a log'
    | (log', Raises e) => (log', Raises e)
    end.
Proof. reflexivity. Qed.

Lemma web_lift_bind {A B : Type} (o : outcome A)
    (k : A -> Weather.web B) (log : list json) :
  (Weather.lift o ≫= k) log
  = match o with
    | Returns a => k a log
    | Raises e => (log, Raises e)
    end.
Proof. rewrite web_bind_unfold. unfold Weather.lift. by destruct o. Qed.

Lemma format_all_length (x : json) (n : nat) (texts : list string) :
  py_len x = Returns n ->
  Weather.format_all py_repr x = Returns texts ->
  length texts = n.
Proof.
  destruct x as [| b | r | s | l | d]; cbn [py_len Weather.format_all];
    intros Hn Ht; try discriminate Hn; injection Hn as <-.
  - case_bool_decide as Hs; [| discriminate Ht].
    injection Ht as <-. by subst s.
  - by apply format_each_length in Ht.
  - case_bool_decide as Hs; [| discriminate Ht].
    injection Ht as <-. by rewrite Hs.
Qed.

(** The alerts look-up on valid coordinates makes one request, for the
    alerts of the point.  When it answers, it answers with the error
    entry or with a count that is the number of formatted alerts. *)
Theorem get_alerts_count_is_length (lat lon : pyfloat)
    (log log' : list json) (r : gmap string json) :
  Weather.validate_lat_lon lat lon = true ->
  Weather.get_alerts float_str py_repr fetch lat lon log
  = (log', Returns r) ->
  log' = log ++ [Weather.alerts_url float_str lat lon]
  /\ (r !! "error" = Some (JStr "failed to fetch alerts from NWS")
      \/ exists texts : list string,
           r !! "count" = Some (JNum (Finite (INR (length texts))))
           /\ r !! "formatted" = Some (JArr (JStr <$> texts))
           /\ r !! "error" = None).
Proof.
  intros Hv. unfold Weather.get_alerts. rewrite Hv. cbn [negb].
  rewrite web_bind_unfold, make_nws_request_unfold.
  destruct (Weather.make_nws_request fetch _ log).2 as [alerts | e];
    [| discriminate].
  assert (Hrest :
    (features ← Weather.lift (py_get alerts "features" (JArr []));
     count ← Weather.lift (py_len features);
     formatted ← Weather.lift (Weather.format_all py_repr features);
     mret (list_to_map
             [ ("count", JNum (Finite (INR count)));
               ("raw", alerts);
               ("formatted", JArr (JStr <$> formatted)) ]))
      (log ++ [Weather.alerts_url float_str lat lon])
    = (log', Returns r) ->
    log' = log ++ [Weather.alerts_url float_str lat lon]
    /\ exists texts : list string,
         r !! "count" = Some (JNum (Finite (INR (length texts))))
         /\ r !! "formatted" = Some (JArr (JStr <$> texts))
         /\ r !! "error" = None).
  { rewrite web_lift_bind.
    destruct (py_get alerts "features" (JArr [])) as [features | ?];
      [| discriminate].
    rewrite web_lift_bind.
    destruct (py_len features) as [n | ?] eqn:Hn; [| discriminate].
    rewrite web_lift_bind.
    destruct (Weather.format_all py_repr features) as [texts | ?] eqn:Ht;
      [| discriminate].
    intros H. injection H as <- <-. split; [reflexivity |].
    exists texts. rewrite (format_all_length _ _ _ Hn Ht).
    repeat split; reflexivity. }
  destruct alerts; try (intros H; apply Hrest in H as [? ?]; by eauto).
  intros H. injection H as <- <-. split; [reflexivity |]. by left.
Qed.


Lemma get_weather_returns (lat lon : pyfloat) (hourly : option bool)
    (log log' : list json) (r : gmap string json) :
  Weather.validate_lat_lon lat lon = true ->
  Weather.get_weather float_str py_repr fetch lat lon hourly log
  = (log', Returns r) ->
  (r = list_to_map
         [("error", JStr "failed to fetch point metadata from NWS")]
   /\ log' = log ++ [Weather.point_url float_str lat lon])
  \/ exists (props : gmap string json) (forecast alerts location_name : json)
       (texts : list string),
       let fh := dict_get props "forecastHourly" JNull in
       let fc := dict_get props "forecast" JNull in
       let f := Weather.py_or (if default false hourly then fh else fc)
                  (Weather.py_or fc fh) in
       r = list_to_map
             [ ("point_url", Weather.point_url float_str lat lon);
               ("point", JObj props);
               ("location_name", location_name);
               ("forecast_url", f);
               ("forecast", forecast);
               ("alerts_raw", alerts);
               ("alerts_text", JArr (JStr <$> texts)) ]
       /\ log' = log ++ [Weather.point_url float_str lat lon]
                 ++ (if py_bool f then [f] else [])
                 ++ [Weather.alerts_url float_str lat lon]
       /\ (py_bool f = false -> forecast = JNull).
Proof.
  intros Hv. unfold Weather.get_weather. rewrite Hv. cbn [negb].
  rewrite web_bind_unfold, make_nws_request_unfold.
  destruct (Weather.make_nws_request fetch _ log).2 as [point | e];
    [| discriminate].
  destruct point as [| b | x | s | l | d];
    try (rewrite web_lift_bind; cbn [py_get]; discriminate).
  { intros H. injection H as <- <-. by left. }
  rewrite web_lift_bind. cbn [py_get].
  destruct (dict_get d "properties" (JObj ∅)) as [| b | x | s | l | props];
    try (rewrite web_lift_bind; destruct (default false hourly);
         cbn [py_get]; discriminate).
  intros H. right.
  set (fh := dict_get props "forecastHourly" JNull) in *.
  set (fc := dict_get props "forecast" JNull) in *.
  rewrite web_lift_bind in H.
  assert (E0 : (if default false hourly
                then py_get (JObj props) "forecastHourly" JNull
                else py_get (JObj props) "forecast" JNull)
               = Returns (if default false hourly then fh else fc))
    by (by destruct (default false hourly)).
  rewrite E0 in H. clear E0.
  set (f0 := if default false hourly then fh else fc) in *.
  rewrite web_lift_bind in H.
  assert (E1 : (if negb (py_bool f0)
                then a ← py_get (JObj props) "forecast" JNull;
                     b ← (if py_bool a then mret a
                          else py_get (JObj props) "forecastHourly" JNull);
                     mret b
                else mret f0)
               = Returns (Weather.py_or f0 (Weather.py_or fc fh))).
  { unfold Weather.py_or. cbn [py_get mbind outcome_bind]. fold fc fh.
    destruct (py_bool f0); cbn [negb]; [reflexivity |].
    by destruct (py_bool fc). }
  rewrite E1 in H. clear E1.
  set (f := Weather.py_or f0 (Weather.py_or fc fh)) in *.
  rewrite web_bind_unfold in H.
  assert (E2 : exists forecast : outcome json,
            (if py_bool f then Weather.make_nws_request fetch f
             else mret JNull)
              (log ++ [Weather.point_url float_str lat lon])
            = ((log ++ [Weather.point_url float_str lat lon])
                 ++ (if py_bool f then [f] else []),
               forecast)
            /\ (py_bool f = false -> forecast = Returns JNull)).
  { destruct (py_bool f).
    - rewrite make_nws_request_unfold. eexists. split; [reflexivity | done].
    - rewrite app_nil_r. by exists (Returns JNull). }
  destruct E2 as (forecast & E2 & Hnone). rewrite E2 in H. clear E2.
  destruct forecast as [forecast | e]; [| discriminate H].
  rewrite web_bind_unfold, make_nws_request_unfold in H.
  destruct (Weather.make_nws_request fetch _ _).2 as [alerts | e];
    [| discriminate H].
  rewrite web_lift_bind in H.
  match type of H with
  | context [match ?o with Returns _ => _ | Raises _ => _ end] =>
      destruct o as [texts | e]; [| discriminate H]
  end.
  rewrite web_lift_bind in H. cbn [py_get] in H.
  rewrite web_lift_bind in H.
  match type of H with
  | context [match ?o with Returns _ => _ | Raises _ => _ end] =>
      destruct o as [location_name | e]; [| discriminate H]
  end.
  injection H as <- <-.
  exists props, forecast, alerts, location_name, texts.
  cbv zeta. fold fh fc f0 f. split; [reflexivity |].
  split; [rewrite <- !app_assoc; reflexivity |].
  intros Hf. specialize (Hnone Hf). congruence.
Qed.

(** A weather look-up that answers has asked for the point first and for
    the alerts last, with at most the forecast in between: one request
    when the point could not be fetched, two when the point names no
    forecast, three otherwise.  A forecast or an alert request that fails
    does not make the look-up fail. *)
Theorem get_weather_request_sequence (lat lon : pyfloat)
    (hourly : option bool) (log log' : list json) (r : gmap string json) :
  Weather.validate_lat_lon lat lon = true ->
  Weather.get_weather float_str py_repr fetch lat lon hourly log
  = (log', Returns r) ->
  let point_url := Weather.point_url float_str lat lon in
  let alerts_url := Weather.alerts_url float_str lat lon in
  (r !! "error" = Some (JStr "failed to fetch point metadata from NWS")
   /\ log' = log ++ [point_url])
  \/ (r !! "error" = None
      /\ r !! "point_url" = Some point_url
      /\ exists f : json,
           r !! "forecast_url" = Some f
           /\ (py_bool f = false
               /\ r !! "forecast" = Some JNull
               /\ log' = log ++ [point_url; alerts_url]
               \/ py_bool f = true
                  /\ log' = log ++ [point_url; f; alerts_url])).
Proof.
  intros Hv H point_url alerts_url.
  destruct (get_weather_returns lat lon hourly log log' r Hv H)
    as [[-> ->] | (props & forecast & alerts & loc & texts & Hr)].
  - left. split; reflexivity.
  - right. cbv zeta in Hr.
    set (f := Weather.py_or _ _) in Hr.
    destruct Hr as (-> & -> & Hnone).
    split; [reflexivity |]. split; [reflexivity |].
    exists f. split; [reflexivity |].
    destruct (py_bool f) eqn:Hf.
    + right. split; reflexivity.
    + left. split; [reflexivity |]. rewrite Hnone by reflexivity.
      split; reflexivity.
Qed.

(** The forecast that is asked for is the hourly one when it is wanted
    and the point names it, the plain one when that is wanted and named,
    and otherwise whichever of the two the point names, the plain one
    first; a forecast is asked for exactly when the point names one. *)
Theorem forecast_url_choice (lat lon : pyfloat) (hourly : option bool)
    (log log' : list json) (r props : gmap string json) :
  Weather.validate_lat_lon lat lon = true ->
  Weather.get_weather float_str py_repr fetch lat lon hourly log
  = (log', Returns r) ->
  r !! "point" = Some (JObj props) ->
  let fh := dict_get props "forecastHourly" JNull in
  let fc := dict_get props "forecast" JNull in
  exists f : json,
    r !! "forecast_url" = Some f
    /\ py_bool f = py_bool fc || py_bool fh
    /\ (f = fc \/ f = fh)
    /\ (hourly = Some true -> py_bool fh = true -> f = fh)
    /\ (hourly <> Some true -> py_bool fc = true -> f = fc).
Proof.
  intros Hv H Hp fh fc.
  destruct (get_weather_returns lat lon hourly log log' r Hv H)
    as [[-> ->] | (props' & forecast & alerts & loc & texts & Hr)].
  { exfalso. revert Hp.
    by assert ((list_to_map
                  [("error",
                    JStr "failed to fetch point metadata from NWS")]
                : gmap string json) !! "point" = None) as -> by reflexivity. }
  cbv zeta in Hr. destruct Hr as (-> & _ & _).
  assert (props' = props) as ->.
  { assert (E : forall a b c d e g h : json,
               (list_to_map
                  [ ("point_url", a); ("point", b); ("location_name", c);
                    ("forecast_url", d); ("forecast", e);
                    ("alerts_raw", g); ("alerts_text", h) ]
                : gmap string json) !! "point" = Some b)
      by reflexivity.
    rewrite E in Hp. by injection Hp. }
  fold fh fc.
  exists (Weather.py_or (if default false hourly then fh else fc)
            (Weather.py_or fc fh)).
  split; [reflexivity |].
  unfold Weather.py_or.
  destruct hourly as [[] |]; cbv [default from_option Datatypes.id];
    destruct (py_bool fc) eqn:Hc, (py_bool fh) eqn:Hh;
    rewrite ?Hc, ?Hh; cbn [orb]; repeat split; auto; congruence.
Qed.

(** ** What the look-ups raise *)

Lemma uncaught_AttributeError : Weather.uncaught AttributeError.
Proof. repeat split; discriminate. Qed.

Lemma uncaught_TypeError : Weather.uncaught TypeError.
Proof. repeat split; discriminate. Qed.

Lemma contained_ret {A : Type} (a : A) : Weather.contained (mret a).
Proof. intros log log' e H. discriminate H. Qed.

Lemma contained_bind {A B : Type} (m : Weather.web A)
    (k : A -> Weather.web B) :
  Weather.contained m -> (forall a : A, Weather.contained (k a)) ->
  Weather.contained (m ≫= k).
Proof.
  intros Hm Hk log log' e. rewrite web_bind_unfold.
  destruct (m log) as [log1 [a | e1]] eqn:Hm1.
  - apply Hk.
  - intros H. injection H as <- <-. by apply (Hm log log1).
Qed.

Lemma contained_request (url : json) :
  Weather.contained (Weather.make_nws_request fetch url).
Proof.
  intros log log' e H.
  assert (H2 : (Weather.make_nws_request fetch url log).2 = Raises e)
    by (by rewrite H).
  by apply make_nws_request_raises in H2 as [_ ?].
Qed.

Lemma contained_lift {A : Type} (o : outcome A) :
  (forall e : Exn, o = Raises e -> e = AttributeError \/ e = TypeError) ->
  Weather.contained (Weather.lift o).
Proof.
  intros Ho log log' e H. unfold Weather.lift in H.
  injection H as Hlog Heq.
  destruct (Ho e Heq) as [-> | ->];
    [apply uncaught_AttributeError | apply uncaught_TypeError].
Qed.

Lemma format_all_raises (x : json) (e : Exn) :
  Weather.format_all py_repr x = Raises e ->
  e = AttributeError \/ e = TypeError.
Proof.
  destruct x; cbn [Weather.format_all]; try case_bool_decide; intros Hx;
    try discriminate Hx; try (injection Hx as <-; by eauto).
  left. by apply format_each_raises in Hx.
Qed.

Lemma py_len_raises (x : json) (e : Exn) :
  py_len x = Raises e -> e = TypeError.
Proof. destruct x; cbn [py_len]; congruence. Qed.

Ltac raise_cases H :=
  repeat match type of H with
    | Returns _ = Raises _ => discriminate H
    | mret _ = Raises _ => discriminate H
    | py_get _ _ _ = Raises _ => apply py_get_raises in H
    | Weather.format_each _ _ = Raises _ => apply format_each_raises in H
    | context [if ?b then _ else _] => destruct b
    | context [py_get (JObj ?d) ?k ?v] =>
        change (py_get (JObj d) k v) with (Returns (dict_get d k v)) in H;
        cbn [mbind outcome_bind] in H
    | context [mbind _ (py_get ?x ?k ?v)] =>
        destruct x; cbn [py_get mbind outcome_bind] in H
    | context [match ?x with JArr _ => _ | _ => _ end] => destruct x
    | Raises _ = Raises _ => injection H as H
    end.

(** Neither look-up lets out what the request helper catches: whatever
    the network does, they raise no status error, no network error and
    no [ValueError]. *)
Theorem lookups_contain_request_failures (lat lon : pyfloat)
    (hourly : option bool) :
  Weather.contained
    (Weather.get_weather float_str py_repr fetch lat lon hourly)
  /\ Weather.contained
       (Weather.get_alerts float_str py_repr fetch lat lon).
Proof.
  split.
  - unfold Weather.get_weather.
    destruct (negb _); [apply contained_ret |].
    apply contained_bind; [apply contained_request | intros point].
    destruct point; try apply contained_ret.
    all: apply contained_bind;
      [apply contained_lift; intros e H; left; by apply py_get_raises in H
      | intros props].
    all: apply contained_bind;
      [apply contained_lift; intros e H; left; raise_cases H; by subst
      | intros f0].
    all: apply contained_bind;
      [apply contained_lift; intros e H; left; raise_cases H; by subst
      | intros f].
    all: apply contained_bind;
      [destruct (py_bool f); [apply contained_request | apply contained_ret]
      | intros forecast].
    all: apply contained_bind; [apply contained_request | intros alerts].
    all: apply contained_bind;
      [apply contained_lift; intros e H; left; raise_cases H; by subst
      | intros texts].
    all: apply contained_bind;
      [apply contained_lift; intros e H; left; by apply py_get_raises in H
      | intros rel_loc].
    all: apply contained_bind;
      [apply contained_lift; intros e H; left; raise_cases H; by subst
      | intros location_name].
    all: apply contained_ret.
  - unfold Weather.get_alerts.
    destruct (negb _); [apply contained_ret |].
    apply contained_bind; [apply contained_request | intros alerts].
    destruct alerts; try apply contained_ret.
    all: apply contained_bind;
      [apply contained_lift; intros e H; left; by apply py_get_raises in H
      | intros features].
    all: apply contained_bind;
      [apply contained_lift; intros e H; right; by apply py_len_raises in H
      | intros count].
    all: apply contained_bind;
      [apply contained_lift; apply format_all_raises | intros formatted].
    all: apply contained_ret.
Qed.

End WeatherLookups.

Lemma validate_origin :
  Weather.validate_lat_lon (Finite 0) (Finite 0) = true.
Proof.
  unfold Weather.validate_lat_lon, float_ge, float_le.
  rewrite !bool_decide_eq_true_2 by lra. reflexivity.
Qed.

Lemma get_alerts_count_is_length_example :
  let float_str : pyfloat -> string := fun _ => "0.0" in
  let py_repr : json -> string := fun _ => EmptyString in
  let flood : json :=
    JObj (<["properties" :=
              JObj (<["event" := JStr "Flood Warning"]>
                      (<["severity" := JStr "Severe"]> ∅))]> ∅) in
  let body : json := JObj (<["features" := JArr [flood; JObj ∅]]> ∅) in
  let fetch : list json -> json -> outcome json :=
    fun _ _ => Returns body in
  let texts : list string :=
    [ "Event: Flood Warning" +:+ newline
      +:+ "Area: Unknown" +:+ newline
      +:+ "Severity: Severe" +:+ newline +:+ newline
      +:+ "Description:" +:+ newline +:+ "No description available"
      +:+ newline +:+ newline
      +:+ "Instructions:" +:+ newline
      +:+ "No specific instructions provided" +:+ newline;
      "Event: Unknown" +:+ newline
      +:+ "Area: Unknown" +:+ newline
      +:+ "Severity: Unknown" +:+ newline +:+ newline
      +:+ "Description:" +:+ newline +:+ "No description available"
      +:+ newline +:+ newline
      +:+ "Instructions:" +:+ newline
      +:+ "No specific instructions provided" +:+ newline ] in
  let r : gmap string json :=
    list_to_map [ ("count", JNum (Finite (INR 2))); ("raw", body);
                  ("formatted", JArr (JStr <$> texts)) ] in
  let url := Weather.alerts_url float_str (Finite 0) (Finite 0) in
  Weather.validate_lat_lon (Finite 0) (Finite 0) = true
  /\ Weather.get_alerts float_str py_repr fetch (Finite 0) (Finite 0) []
     = ([url], Returns r)
  /\ [url] = [] ++ [url]
  /\ (r !! "error" = Some (JStr "failed to fetch alerts from NWS")
      \/ exists texts' : list string,
           r !! "count" = Some (JNum (Finite (INR (length texts'))))
           /\ r !! "formatted" = Some (JArr (JStr <$> texts'))
           /\ r !! "error" = None).
Proof.
  intros float_str py_repr flood body fetch texts r url.
  assert (H : Weather.get_alerts float_str py_repr fetch (Finite 0)
                (Finite 0) [] = ([url], Returns r)).
  { unfold Weather.get_alerts. rewrite validate_origin. reflexivity. }
  split; [exact validate_origin |]. split; [exact H |].
  exact (get_alerts_count_is_length float_str py_repr fetch
           (Finite 0) (Finite 0) [] [url] r validate_origin H).
Defined.

Lemma get_weather_example :
  let float_str : pyfloat -> string := fun _ => "0.0" in
  let py_repr : json -> string := fun _ => EmptyString in
  let fetch : list json -> json -> outcome json :=
    fun _ _ => Returns (JObj ∅) in
  Weather.get_weather float_str py_repr fetch (Finite 0) (Finite 0) None []
  = ([Weather.point_url float_str (Finite 0) (Finite 0);
      Weather.alerts_url float_str (Finite 0) (Finite 0)],
     Returns
       (list_to_map
          [ ("point_url", Weather.point_url float_str (Finite 0) (Finite 0));
            ("point", JObj ∅);
            ("location_name", JNull);
            ("forecast_url", JNull);
            ("forecast", JNull);
            ("alerts_raw", JObj ∅);
            ("alerts_text", JArr []) ])).
Proof.
  intros float_str py_repr fetch.
  unfold Weather.get_weather. rewrite validate_origin. reflexivity.
Qed.

Lemma get_weather_request_sequence_example :
  let float_str : pyfloat -> string := fun _ => "0.0" in
  let py_repr : json -> string := fun _ => EmptyString in
  let fetch : list json -> json -> outcome json :=
    fun _ _ => Returns (JObj ∅) in
  let point_url := Weather.point_url float_str (Finite 0) (Finite 0) in
  let alerts_url := Weather.alerts_url float_str (Finite 0) (Finite 0) in
  exists r : gmap string json,
    Weather.validate_lat_lon (Finite 0) (Finite 0) = true
    /\ Weather.get_weather float_str py_repr fetch (Finite 0) (Finite 0)
         None []
       = ([point_url; alerts_url], Returns r)
    /\ ((r !! "error"
         = Some (JStr "failed to fetch point metadata from NWS")
         /\ [point_url; alerts_url] = [] ++ [point_url])
        \/ (r !! "error" = None
            /\ r !! "point_url" = Some point_url
            /\ exists f : json,
                 r !! "forecast_url" = Some f
                 /\ (py_bool f = false
                     /\ r !! "forecast" = Some JNull
                     /\ [point_url; alerts_url]
                        = [] ++ [point_url; alerts_url]
                     \/ py_bool f = true
                        /\ [point_url; alerts_url]
                           = [] ++ [point_url; f; alerts_url]))).
Proof.
  intros float_str py_repr fetch point_url alerts_url.
  eexists. split; [exact validate_origin |].
  split; [exact get_weather_example |].
  exact (get_weather_request_sequence float_str py_repr fetch
           (Finite 0) (Finite 0) None [] _ _ validate_origin
           get_weather_example).
Defined.

Lemma forecast_url_choice_example :
  let float_str : pyfloat -> string := fun _ => "0.0" in
  let py_repr : json -> string := fun _ => EmptyString in
  let plain : json :=
    JStr "https://api.weather.gov/gridpoints/TOP/31,80/forecast" in
  let by_hour : json :=
    JStr "https://api.weather.gov/gridpoints/TOP/31,80/forecast/hourly" in
  let props : gmap string json :=
    <["forecast" := plain]> (<["forecastHourly" := by_hour]> ∅) in
  let fetch : list json -> json -> outcome json :=
    fun log _ =>
      match log with
      | [] => Returns (JObj (<["properties" := JObj props]> ∅))
      | _ => Returns (JObj ∅)
      end in
  let point_url := Weather.point_url float_str (Finite 0) (Finite 0) in
  let alerts_url := Weather.alerts_url float_str (Finite 0) (Finite 0) in
  let r : gmap string json :=
    list_to_map
      [ ("point_url", point_url);
        ("point", JObj props);
        ("location_name", JNull);
        ("forecast_url", by_hour);
        ("forecast", JObj ∅);
        ("alerts_raw", JObj ∅);
        ("alerts_text", JArr []) ] in
  Weather.validate_lat_lon (Finite 0) (Finite 0) = true
  /\ Weather.get_weather float_str py_repr fetch (Finite 0) (Finite 0)
       (Some true) []
     = ([point_url; by_hour; alerts_url], Returns r)
  /\ r !! "point" = Some (JObj props)
  /\ r !! "forecast_url" = Some by_hour
  /\ py_bool (dict_get props "forecast" JNull) = true
  /\ py_bool (dict_get props "forecastHourly" JNull) = true
  /\ exists f : json,
       r !! "forecast_url" = Some f
       /\ py_bool f = py_bool (dict_get props "forecast" JNull)
                      || py_bool (dict_get props "forecastHourly" JNull)
       /\ (f = dict_get props "forecast" JNull
           \/ f = dict_get props "forecastHourly" JNull)
       /\ (Some true = Some true ->
           py_bool (dict_get props "forecastHourly" JNull) = true ->
           f = dict_get props "forecastHourly" JNull)
       /\ (Some true <> Some true ->
           py_bool (dict_get props "forecast" JNull) = true ->
           f = dict_get props "forecast" JNull).
Proof.
  intros float_str py_repr plain by_hour props fetch point_url alerts_url r.
  assert (H : Weather.get_weather float_str py_repr fetch (Finite 0)
                (Finite 0) (Some true) []
              = ([point_url; by_hour; alerts_url], Returns r)).
  { unfold Weather.get_weather. rewrite validate_origin. reflexivity. }
  assert (Hp : r !! "point" = Some (JObj props)) by reflexivity.
  split; [exact validate_origin |]. split; [exact H |].
  split; [exact Hp |]. split; [reflexivity |].
  split; [reflexivity |]. split; [reflexivity |].
  exact (forecast_url_choice float_str py_repr fetch
           (Finite 0) (Finite 0) (Some true) [] _ r props validate_origin
           H Hp).
Defined.
